(** * Chorus (slackmediabot): the content pipeline, verified

    A shallow embedding of the Python sources under [app/]:
    - [app/services/generator.py]  draft clean-up and generation,
    - [app/services/detector.py]   duplicate and sensitivity filtering,
    - [app/services/buffer.py]     readiness of a channel's buffer,
    - [app/services/pipeline.py]   the per-channel pass and the daily quota,
    - [app/database.py]            the record store,
    - [app/slack_handler.py]       feedback on suggestions (reactions).

    Conventions.  A Python [str] is the list of its Unicode code points
    ([list Z]); a [datetime] is a number of microseconds since the epoch (naive
    UTC, as [datetime.utcnow] gives it) and a [timedelta] a number of
    microseconds.  A Python [dict] used as a map is a [gmap]; a database table
    is the list of its rows in insertion order.  Code that talks to the outside
    (the clock, the OpenAI client, the Slack client, the identifiers the store
    hands out) is written in a state monad over a [World] whose external part
    is an abstract state machine, so a theorem holds whatever the model
    answers.  An exception raised by a model or Slack call is the answer
    [None]; every call site in the sources sits in a [try]/[except Exception]
    of its own, which is where the fallback values below come from. *)

From Stdlib Require Import ZArith QArith Lia Bool.
From Corelib Require Import PrimFloat.
From Stdlib Require DecimalString.
From stdpp Require Import gmap strings list sorting.

Local Open Scope Z_scope.

(* ===================================================================== *)
(** * Python strings *)
(* ===================================================================== *)

Abbreviation str := (list Z).

(** A literal of ASCII characters as a Python string. *)
Fixpoint lit (s : string) : str :=
  match s with
  | EmptyString => []
  | String a rest => Z.of_nat (Ascii.nat_of_ascii a) :: lit rest
  end.

Definition in_range (lo hi c : Z) : bool := (lo <=? c) && (c <=? hi).

(** [str.isspace] on one code point (CPython's [_PyUnicode_IsWhitespace]);
    the regular expression class [\s] of a [str] pattern is the same set. *)
Definition isspace (c : Z) : bool :=
  in_range 0x09 0x0D c || in_range 0x1C 0x20 c || (c =? 0x85) || (c =? 0xA0)
  || (c =? 0x1680) || in_range 0x2000 0x200A c || (c =? 0x2028) || (c =? 0x2029)
  || (c =? 0x202F) || (c =? 0x205F) || (c =? 0x3000).

Definition ascii_isalnum (c : Z) : bool :=
  in_range 48 57 c || in_range 65 90 c || in_range 97 122 c.

(** What the sources use of Python's libraries and cannot be read off the
    repository: the Unicode database behind [\w] outside ASCII. *)
Class Unicode := {
  (** [str.isalnum] on one code point above 127. *)
  unicode_isalnum : Z -> bool
}.

(** The class [\w] of a [str] pattern: alphanumeric, or the underscore. *)
Definition is_word `{Unicode} (c : Z) : bool :=
  if c <? 128 then ascii_isalnum c || (c =? 95) else unicode_isalnum c.

Definition HASH : Z := 35.
Definition NEWLINE : Z := 10.

Fixpoint lstrip (s : str) : str :=
  match s with
  | c :: rest => if isspace c then lstrip rest else s
  | [] => []
  end.

Definition rstrip (s : str) : str := rev (lstrip (rev s)).

(** [s.strip()] *)
Definition strip (s : str) : str := rstrip (lstrip s).

(** [sep.join(parts)] *)
Fixpoint join (sep : str) (parts : list str) : str :=
  match parts with
  | [] => []
  | [p] => p
  | p :: rest => p ++ sep ++ join sep rest
  end.

(* ===================================================================== *)
(** * generator.py: the clean-up of a draft *)
(* ===================================================================== *)

(** The character class of [emoji_pattern], range by range as the source
    lists them (the same class in both clean-up functions). *)
Definition is_emoji (c : Z) : bool :=
  in_range 0x1F600 0x1F64F c      (* emoticons *)
  || in_range 0x1F300 0x1F5FF c   (* symbols & pictographs *)
  || in_range 0x1F680 0x1F6FF c   (* transport & map symbols *)
  || in_range 0x1F1E0 0x1F1FF c   (* flags *)
  || in_range 0x2702 0x27B0 c
  || in_range 0x24C2 0x1F251 c.

(** [emoji_pattern.sub('', draft)]: the pattern is [[class]+], so every
    maximal run of class characters is deleted, which deletes exactly the
    class characters. *)
Definition emoji_sub (draft : str) : str :=
  filter (fun c => is_emoji c = false) draft.

(** Whether a match of [#\w+] starts at the head of [c :: rest]. *)
Definition hashtag_at `{Unicode} (c : Z) (rest : str) : bool :=
  (c =? HASH) && match rest with d :: _ => is_word d | [] => false end.

(** [re.sub(r'#\w+', '', draft)] as the scanner runs it, left to right:
    [in_tag] says that a match is open and still consuming [\w+] (greedy);
    the first character that is no word character ends the match and is
    looked at afresh. *)
Fixpoint sub_hashtag_from `{Unicode} (in_tag : bool) (s : str) : str :=
  match s with
  | [] => []
  | c :: rest =>
      if in_tag && is_word c then sub_hashtag_from true rest
      else if hashtag_at c rest then sub_hashtag_from true rest
      else c :: sub_hashtag_from false rest
  end.

Definition sub_hashtag `{Unicode} (draft : str) : str := sub_hashtag_from false draft.

(** The scanner's state for [#\w+\s*]. *)
Inductive xscan := Outside | InWord | InSpace.

(** [re.sub(r'#\w+\s*', '', draft)]: as above, and the match goes on through
    the white space that follows the tag. *)
Fixpoint sub_hashtag_space_from `{Unicode} (st : xscan) (s : str) : str :=
  match s with
  | [] => []
  | c :: rest =>
      let afresh :=
        if hashtag_at c rest then sub_hashtag_space_from InWord rest
        else c :: sub_hashtag_space_from Outside rest in
      match st with
      | Outside => afresh
      | InWord =>
          if is_word c then sub_hashtag_space_from InWord rest
          else if isspace c then sub_hashtag_space_from InSpace rest
          else afresh
      | InSpace =>
          if isspace c then sub_hashtag_space_from InSpace rest else afresh
      end
  end.

Definition sub_hashtag_space `{Unicode} (draft : str) : str :=
  sub_hashtag_space_from Outside draft.

(** What a run of [n] newlines becomes under [re.sub(r'\n{3,}', '\n\n', _)]. *)
Definition newline_run (n : nat) : str :=
  if (3 <=? n)%nat then [NEWLINE; NEWLINE] else repeat NEWLINE n.

(** [re.sub(r'\n{3,}', '\n\n', draft)]; [run] counts the newlines read since
    the last other character. *)
Fixpoint collapse_newlines_from (run : nat) (s : str) : str :=
  match s with
  | [] => newline_run run
  | c :: rest =>
      if c =? NEWLINE then collapse_newlines_from (S run) rest
      else newline_run run ++ c :: collapse_newlines_from 0 rest
  end.

Definition collapse_newlines (draft : str) : str := collapse_newlines_from 0 draft.

(** [GeneratorService._clean_linkedin_draft] *)
Definition _clean_linkedin_draft `{Unicode} (draft : str) : str :=
  let draft := emoji_sub draft in
  let draft := sub_hashtag draft in
  let draft := collapse_newlines draft in
  strip draft.

(** [GeneratorService._clean_x_draft] *)
Definition _clean_x_draft `{Unicode} (draft : str) : str :=
  let draft := sub_hashtag_space draft in
  let draft := emoji_sub draft in
  let draft :=
    if (280 <? length draft)%nat then take 277 draft ++ lit "..." else draft in
  strip draft.

(** A hashtag token: some [#] directly followed by a word character (a
    place where [#\w+] matches). *)
Fixpoint has_hashtag `{Unicode} (s : str) : bool :=
  match s with
  | [] => false
  | c :: rest => hashtag_at c rest || has_hashtag rest
  end.

Definition has_emoji (s : str) : bool := existsb is_emoji s.


(* ===================================================================== *)
(** * Values decoded from JSON *)
(* ===================================================================== *)

(** What [json.loads] returns. A [dict] keeps its items as a list; [get]
    reads the first item of a key. *)
#[warnings="-register-all"]
Inductive json :=
| JNull
| JBool (b : bool)
| JInt (n : Z)
| JFloat (x : float)
| JStr (s : str)
| JList (items : list json)
| JObj (items : list (str * json)).

(** Python's truth value of an object. *)
Definition truthy (v : json) : bool :=
  match v with
  | JNull => false
  | JBool b => b
  | JInt n => negb (n =? 0)
  | JFloat x => negb (PrimFloat.eqb x 0%float)
  | JStr s => negb (bool_decide (s = []))
  | JList l => match l with [] => false | _ => true end
  | JObj kv => match kv with [] => false | _ => true end
  end.

Fixpoint assoc (key : str) (items : list (str * json)) : option json :=
  match items with
  | [] => None
  | (k, v) :: rest => if bool_decide (k = key) then Some v else assoc key rest
  end.

(** [result.get(key, default)]. [None] is the [AttributeError] of an object
    that is no [dict]. *)
Definition get (result : json) (key : string) (default : json) : option json :=
  match result with
  | JObj items => Some (from_option id default (assoc (lit key) items))
  | _ => None
  end.

(** [for x in v]: the items a [for] loop visits; [None] is the [TypeError]
    of an object that is not iterable. *)
Definition iterate (v : json) : option (list json) :=
  match v with
  | JList l => Some l
  | JStr s => Some (map (fun c => JStr [c]) s)
  | JObj items => Some (map (fun kv => JStr kv.1) items)
  | _ => None
  end.

(** Pydantic's validation of a field when a model is built, which the
    repository does not hold: [None] is a [ValidationError]. *)
Class Pydantic := {
  validate_str : json -> option str;
  validate_bool : json -> option bool
}.

(** A field of type [list[str]]. *)
Definition validate_str_list `{Pydantic} (v : json) : option (list str) :=
  match v with
  | JList l => mapM validate_str l
  | _ => None
  end.

(* ===================================================================== *)
(** * models.py *)
(* ===================================================================== *)

Abbreviation datetime := Z.
Abbreviation timedelta := Z.

(** [timedelta(minutes=m)] *)
Definition minutes (m : Z) : timedelta := m * 60000000.

Record SlackMessage := {
  message_id : str;
  channel_id : str;
  user_id : str;
  text : str;
  timestamp : datetime
}.

Record MessageBuffer := {
  buf_channel_id : str;
  buf_messages : list SlackMessage;
  started_at : datetime
}.

Record ConversationSummary := {
  summary : str;
  key_ideas : list str;
  opinions : list str;
  decisions : list str;
  interesting_phrases : list str
}.

Record SummaryMetadata := {
  md_key_ideas : list str;
  md_opinions : list str;
  md_decisions : list str;
  md_interesting_phrases : list str;
  message_count : Z;
  window_start : datetime;
  window_end : datetime
}.

Record PostIdea := {
  core_insight : str;
  why_it_works : str
}.

Record PostWorthinessResult := {
  is_post_worthy : bool;
  ideas : list PostIdea
}.

Record GeneratedContent := {
  gc_core_insight : str;
  gc_why_it_works : str;
  linkedin_draft : str;
  x_draft : str
}.

Inductive SuggestionStatus := PENDING | SAVED | IGNORED | REWRITTEN.

#[global] Instance SuggestionStatus_eq_dec : EqDecision SuggestionStatus.
Proof. solve_decision. Defined.

Record Suggestion := {
  sug_summary_id : str;
  sug_insight : str;
  sug_linkedin_draft : str;
  sug_x_draft : str;
  sug_status : SuggestionStatus
}.

(* ===================================================================== *)
(** * config.py *)
(* ===================================================================== *)

Record Settings := {
  buffer_window_minutes : Z;
  min_messages_for_summary : Z;
  max_suggestions_per_day : Z
}.

(** The defaults of the class [Settings]. *)
Definition default_settings : Settings :=
  {| buffer_window_minutes := 60;
     min_messages_for_summary := 8;
     max_suggestions_per_day := 3 |}.

(* ===================================================================== *)
(** * The record store and the world *)
(* ===================================================================== *)

(** The rows of the four tables. [id] and, where the code sends none,
    [created_at] are given by the store when the row is inserted. *)
Record MessageRow := {
  mr_id : str;
  mr_channel_id : str;
  mr_user_id : str;
  mr_text : str;
  mr_created_at : datetime
}.

Record SummaryRow := {
  sr_id : str;
  sr_channel_id : str;
  sr_summary : str;
  sr_metadata : SummaryMetadata;
  sr_created_at : datetime
}.

Record SuggestionRow := {
  sg_id : str;
  sg_summary_id : str;
  sg_insight : str;
  sg_linkedin_draft : str;
  sg_x_draft : str;
  sg_status : SuggestionStatus;
  sg_created_at : datetime
}.

Record ChannelRow := {
  lc_channel_id : str;
  lc_added_by : str;
  lc_added_at : datetime
}.

(** The tables, and the trace of the status updates the store was asked to
    run ([update(...).eq("id", ...).execute()]), oldest first. *)
Record Database := {
  messages : list MessageRow;
  summaries : list SummaryRow;
  suggestions : list SuggestionRow;
  listening_channels : list ChannelRow;
  status_writes : list (str * SuggestionStatus)
}.

(** The templates of [prompts/templates.py], each with the arguments its
    [.format] call fills in. *)
Inductive prompt :=
| SUMMARIZER_PROMPT (messages : str)
| POST_WORTHINESS_PROMPT (summary key_ideas interesting_phrases : str)
| DEDUPLICATION_PROMPT (existing_insights new_insight : str)
| SENSITIVITY_PROMPT (insight summary : str)
| LINKEDIN_PROMPT (core_insight why_it_works summary : str)
| X_POST_PROMPT (core_insight : str)
| REWRITE_LINKEDIN_PROMPT (original_draft core_insight summary : str)
| REWRITE_X_PROMPT (original_draft core_insight : str).

(** The arguments of one [chat.completions.create] call. *)
Record ChatRequest := {
  req_prompt : prompt;
  temperature : Q;
  max_tokens : option Z;
  json_object : bool
}.

(** The outside, as a state machine of an arbitrary state [Env]: the
    clock, the model, the Slack client, and the identifiers the store gives
    to new rows. A call that raises answers [None]. *)
Class External (Env : Type) := {
  (** [datetime.utcnow()] *)
  utcnow : Env -> datetime * Env;
  (** [client.chat.completions.create(...).choices[0].message.content] *)
  chat_completions_create : ChatRequest -> Env -> option str * Env;
  (** [json.loads] *)
  json_loads : str -> option json;
  (** [client.chat_postMessage(channel=, thread_ts=, text=)] and the [ts] of
      its result *)
  chat_postMessage : option str -> option str -> str -> Env -> option (option str) * Env;
  (** the [id] column's default *)
  new_id : Env -> str * Env
}.

Record World (Env : Type) := {
  env : Env;
  db : Database;
  (** [BufferService._buffers] *)
  _buffers : gmap str MessageBuffer;
  (** [SlackBot._suggestion_message_map] *)
  _suggestion_message_map : gmap str str
}.
Arguments env {Env} _.
Arguments db {Env} _.
Arguments _buffers {Env} _.
Arguments _suggestion_message_map {Env} _.

Definition set_env {Env : Type} (e : Env) (w : World Env) : World Env :=
  {| env := e; db := db w; _buffers := _buffers w;
     _suggestion_message_map := _suggestion_message_map w |}.

Definition set_db {Env : Type} (d : Database) (w : World Env) : World Env :=
  {| env := env w; db := d; _buffers := _buffers w;
     _suggestion_message_map := _suggestion_message_map w |}.

Definition set_buffers {Env : Type} (b : gmap str MessageBuffer) (w : World Env) : World Env :=
  {| env := env w; db := db w; _buffers := b;
     _suggestion_message_map := _suggestion_message_map w |}.

Definition set_message_map {Env : Type} (m : gmap str str) (w : World Env) : World Env :=
  {| env := env w; db := db w; _buffers := _buffers w;
     _suggestion_message_map := m |}.

(** ** The state monad *)

Definition M (Env A : Type) : Type := World Env -> A * World Env.

Definition ret {Env A : Type} (a : A) : M Env A := fun w => (a, w).

Definition bind {Env A B : Type} (c : M Env A) (k : A -> M Env B) : M Env B :=
  fun w => let (a, w1) := c w in k a w1.

Notation "x <- c ;; k" := (bind c (fun x => k))
  (at level 100, c at next level, right associativity).
Notation "c ;; k" := (bind c (fun _ => k))
  (at level 100, right associativity).

(** An operation of the outside, run on the world's external part. *)
Definition external {Env A : Type} (op : Env -> A * Env) : M Env A :=
  fun w => let (a, e) := op (env w) in (a, set_env e w).

Definition read {Env A : Type} (f : World Env -> A) : M Env A := fun w => (f w, w).

Definition write_db {Env : Type} (f : Database -> Database) : M Env unit :=
  fun w => (tt, set_db (f (db w)) w).

(** A [for] loop: [body] is run on each item in turn and threads [acc], the
    local variables the loop assigns or appends to. *)
Fixpoint for_each {Env A S : Type} (body : S -> A -> M Env S) (items : list A)
    (acc : S) : M Env S :=
  match items with
  | [] => ret acc
  | item :: rest => acc' <- body acc item ;; for_each body rest acc'
  end.

(* ===================================================================== *)
(** * database.py *)
(* ===================================================================== *)

Definition with_messages (rows : list MessageRow) (d : Database) : Database :=
  {| messages := rows; summaries := summaries d; suggestions := suggestions d;
     listening_channels := listening_channels d; status_writes := status_writes d |}.

Definition with_summaries (rows : list SummaryRow) (d : Database) : Database :=
  {| messages := messages d; summaries := rows; suggestions := suggestions d;
     listening_channels := listening_channels d; status_writes := status_writes d |}.

Definition with_suggestions (rows : list SuggestionRow) (d : Database) : Database :=
  {| messages := messages d; summaries := summaries d; suggestions := rows;
     listening_channels := listening_channels d; status_writes := status_writes d |}.

Definition with_status_writes (log : list (str * SuggestionStatus)) (d : Database) : Database :=
  {| messages := messages d; summaries := summaries d; suggestions := suggestions d;
     listening_channels := listening_channels d; status_writes := log |}.

(** [.order(column, desc=False)]: rows by ascending key, rows of equal keys
    in the order of the table. *)
Fixpoint insert_by {A : Type} (key : A -> Z) (x : A) (l : list A) : list A :=
  match l with
  | [] => [x]
  | y :: rest => if key x <=? key y then x :: l else y :: insert_by key x rest
  end.

Definition order_by {A : Type} (key : A -> Z) (l : list A) : list A :=
  foldr (insert_by key) [] l.

(** [.order(column, desc=True)] *)
Definition order_by_desc {A : Type} (key : A -> Z) (l : list A) : list A :=
  order_by (fun x => - key x) l.

(** [utcnow().replace(hour=0, minute=0, second=0, microsecond=0)] *)
Definition today_start_of (now : datetime) : datetime :=
  now - now mod 86400000000.

Definition set_status (suggestion_id : str) (status : SuggestionStatus)
    (row : SuggestionRow) : SuggestionRow :=
  if bool_decide (sg_id row = suggestion_id) then
    {| sg_id := sg_id row; sg_summary_id := sg_summary_id row;
       sg_insight := sg_insight row; sg_linkedin_draft := sg_linkedin_draft row;
       sg_x_draft := sg_x_draft row; sg_status := status;
       sg_created_at := sg_created_at row |}
  else row.

Definition message_of_row (row : MessageRow) : SlackMessage :=
  {| message_id := mr_id row; channel_id := mr_channel_id row;
     user_id := mr_user_id row; text := mr_text row;
     timestamp := mr_created_at row |}.

Section Services.

Context `{Unicode} `{Pydantic} {Env : Type} `{External Env}.
Variable settings : Settings.

Local Abbreviation M := (M Env).

(** [Database.save_message] *)
Definition save_message (message : SlackMessage) : M MessageRow :=
  i <- external new_id ;;
  let row := {| mr_id := i; mr_channel_id := channel_id message;
                mr_user_id := user_id message; mr_text := text message;
                mr_created_at := timestamp message |} in
  write_db (fun d => with_messages (messages d ++ [row]) d) ;;
  ret row.

(** [Database.get_messages_in_window] *)
Definition get_messages_in_window (channel : str) (window_minutes : Z)
    : M (list SlackMessage) :=
  now <- external utcnow ;;
  let cutoff := now - minutes window_minutes in
  rows <- read (fun w =>
    order_by mr_created_at
      (filter (fun r => mr_channel_id r = channel /\ cutoff <= mr_created_at r)
              (messages (db w)))) ;;
  ret (map message_of_row rows).

(** [Database.save_summary]; [created_at] is the time of the insertion. *)
Definition save_summary (channel : str) (summary_text : str)
    (metadata : SummaryMetadata) : M SummaryRow :=
  i <- external new_id ;;
  now <- external utcnow ;;
  let row := {| sr_id := i; sr_channel_id := channel; sr_summary := summary_text;
                sr_metadata := metadata; sr_created_at := now |} in
  write_db (fun d => with_summaries (summaries d ++ [row]) d) ;;
  ret row.

(** [Database.save_suggestion]; [created_at] is the time of the insertion. *)
Definition db_save_suggestion (suggestion : Suggestion) : M SuggestionRow :=
  i <- external new_id ;;
  now <- external utcnow ;;
  let row := {| sg_id := i; sg_summary_id := sug_summary_id suggestion;
                sg_insight := sug_insight suggestion;
                sg_linkedin_draft := sug_linkedin_draft suggestion;
                sg_x_draft := sug_x_draft suggestion;
                sg_status := sug_status suggestion; sg_created_at := now |} in
  write_db (fun d => with_suggestions (suggestions d ++ [row]) d) ;;
  ret row.

(** [Database.update_suggestion_status]: every row of that id gets the
    status; the result is the first updated row, if any. *)
Definition update_suggestion_status (suggestion_id : str)
    (status : SuggestionStatus) : M (option SuggestionRow) :=
  write_db (fun d =>
    with_status_writes (status_writes d ++ [(suggestion_id, status)])
      (with_suggestions (map (set_status suggestion_id status) (suggestions d)) d)) ;;
  read (fun w => head (filter (fun r => sg_id r = suggestion_id) (suggestions (db w)))).

(** [Database.get_suggestion] *)
Definition get_suggestion (suggestion_id : str) : M (option SuggestionRow) :=
  read (fun w => head (filter (fun r => sg_id r = suggestion_id) (suggestions (db w)))).

(** [Database.get_suggestions_today] *)
Definition get_suggestions_today : M (list SuggestionRow) :=
  now <- external utcnow ;;
  let today_start := today_start_of now in
  read (fun w => filter (fun r => today_start <= sg_created_at r) (suggestions (db w))).

(** [Database.get_saved_suggestions] *)
Definition get_saved_suggestions (limit : nat) : M (list SuggestionRow) :=
  read (fun w =>
    take limit (order_by_desc sg_created_at
      (filter (fun r => sg_status r = SAVED) (suggestions (db w))))).

(** [Database.get_listening_channels] *)
Definition get_listening_channels : M (list str) :=
  read (fun w => map lc_channel_id (listening_channels (db w))).

(* ===================================================================== *)
(** * services/llm.py *)
(* ===================================================================== *)

(** [LLMClient.complete]; [None] when the call raises. *)
Definition complete (p : prompt) (temp : Q) (max_tok : Z) : M (option str) :=
  content <- external (chat_completions_create
    {| req_prompt := p; temperature := temp; max_tokens := Some max_tok;
       json_object := false |}) ;;
  ret (strip <$> content).

(** [LLMClient.complete_json]; [None] when the call or [json.loads] raises. *)
Definition complete_json (p : prompt) (temp : Q) : M (option json) :=
  content <- external (chat_completions_create
    {| req_prompt := p; temperature := temp; max_tokens := None;
       json_object := true |}) ;;
  ret (content ≫= fun c => json_loads (strip c)).

(* ===================================================================== *)
(** * services/buffer.py *)
(* ===================================================================== *)

(** [BufferService.add_message] *)
Definition add_message (message : SlackMessage) : M unit :=
  let channel := channel_id message in
  save_message message ;;
  known <- read (fun w => _buffers w !! channel) ;;
  buffer <- match known with
            | Some b => ret b
            | None => now <- external utcnow ;;
                      ret {| buf_channel_id := channel; buf_messages := [];
                             started_at := now |}
            end ;;
  fun w => (tt, set_buffers (<[channel :=
    {| buf_channel_id := buf_channel_id buffer;
       buf_messages := buf_messages buffer ++ [message];
       started_at := started_at buffer |}]> (_buffers w)) w).

(** [BufferService.get_buffer_from_db] *)
Definition get_buffer_from_db (channel : str) : M (list SlackMessage) :=
  get_messages_in_window channel (buffer_window_minutes settings).

(** [BufferService.should_summarize] *)
Definition should_summarize (channel : str) : M bool :=
  let from_db :=
    db_messages <- get_buffer_from_db channel ;;
    if min_messages_for_summary settings <=? Z.of_nat (length db_messages)
    then ret true else ret false in
  buffer <- read (fun w => _buffers w !! channel) ;;
  match buffer with
  | None => from_db
  | Some buffer =>
      match buf_messages buffer with
      | [] => from_db
      | _ :: _ =>
          let count := Z.of_nat (length (buf_messages buffer)) in
          if min_messages_for_summary settings <=? count then ret true
          else
            now <- external utcnow ;;
            let window_elapsed := now - started_at buffer in
            if minutes (buffer_window_minutes settings) <=? window_elapsed then
              if 3 <=? count then ret true else ret false
            else ret false
      end
  end.

(** [BufferService.get_messages_for_summary] *)
Definition get_messages_for_summary (channel : str) : M (list SlackMessage) :=
  db_messages <- get_buffer_from_db channel ;;
  match db_messages with
  | _ :: _ => ret db_messages
  | [] =>
      buffer <- read (fun w => _buffers w !! channel) ;;
      ret (from_option buf_messages [] buffer)
  end.

(** [BufferService.clear_buffer] *)
Definition clear_buffer (channel : str) : M unit :=
  known <- read (fun w => _buffers w !! channel) ;;
  match known with
  | Some _ =>
      now <- external utcnow ;;
      fun w => (tt, set_buffers (<[channel :=
        {| buf_channel_id := channel; buf_messages := [];
           started_at := now |}]> (_buffers w)) w)
  | None => ret tt
  end.

Definition two_digits (n : Z) : str := [48 + n / 10; 48 + n mod 10].

(** [timestamp.strftime("%H:%M")] *)
Definition strftime_HM (t : datetime) : str :=
  two_digits ((t / 3600000000) mod 24) ++ lit ":" ++ two_digits ((t / 60000000) mod 60).

(** [s[-4:]] *)
Definition last4 (s : str) : str := drop (length s - 4) s.

(** [BufferService.format_messages_for_llm] *)
Definition format_messages_for_llm (msgs : list SlackMessage) : str :=
  join [NEWLINE]
    (map (fun msg => lit "[" ++ strftime_HM (timestamp msg) ++ lit "] User "
                     ++ last4 (user_id msg) ++ lit ": " ++ text msg) msgs).

(* ===================================================================== *)
(** * services/summarizer.py *)
(* ===================================================================== *)

Definition parse_summary (result : json) : option ConversationSummary :=
  s ← get result "summary" (JStr []) ≫= validate_str;
  k ← get result "key_ideas" (JList []) ≫= validate_str_list;
  o ← get result "opinions" (JList []) ≫= validate_str_list;
  d ← get result "decisions" (JList []) ≫= validate_str_list;
  p ← get result "interesting_phrases" (JList []) ≫= validate_str_list;
  Some {| summary := s; key_ideas := k; opinions := o; decisions := d;
          interesting_phrases := p |}.

(** [SummarizerService.summarize_conversation] *)
Definition summarize_conversation (msgs : list SlackMessage)
    : M (option ConversationSummary) :=
  match msgs with
  | [] => ret None
  | _ :: _ =>
      let formatted := format_messages_for_llm msgs in
      result <- complete_json (SUMMARIZER_PROMPT formatted) (3 # 10) ;;
      ret (result ≫= parse_summary)
  end.

(* ===================================================================== *)
(** * services/detector.py *)
(* ===================================================================== *)

(** ["\n".join(f"- {x}" for x in items)] *)
Definition bullet_list (items : list str) : str :=
  join [NEWLINE] (map (fun x => lit "- " ++ x) items).

Definition parse_idea (idea_data : json) : option PostIdea :=
  c ← get idea_data "core_insight" (JStr []) ≫= validate_str;
  y ← get idea_data "why_it_works" (JStr []) ≫= validate_str;
  Some {| core_insight := c; why_it_works := y |}.

Definition parse_detection (result : json) : option PostWorthinessResult :=
  items ← get result "ideas" (JList []) ≫= iterate;
  found ← mapM parse_idea items;
  worthy ← get result "is_post_worthy" (JBool false) ≫= validate_bool;
  Some {| is_post_worthy := worthy; ideas := found |}.

(** [DetectorService.detect_post_worthy] *)
Definition detect_post_worthy (s : ConversationSummary) : M PostWorthinessResult :=
  let p := POST_WORTHINESS_PROMPT (summary s) (bullet_list (key_ideas s))
             (bullet_list (interesting_phrases s)) in
  result <- complete_json p (4 # 10) ;;
  ret (from_option id {| is_post_worthy := false; ideas := [] |}
         (result ≫= parse_detection)).

(** [DetectorService.check_duplicate]. The value returned is the object the
    source returns: the literal [False], or whatever the model put under
    ["is_duplicate"]; the caller takes its truth value. *)
Definition check_duplicate (new_insight : str) (existing_insights : list str)
    : M json :=
  match existing_insights with
  | [] => ret (JBool false)
  | _ :: _ =>
      let p := DEDUPLICATION_PROMPT (bullet_list existing_insights) new_insight in
      result <- complete_json p (2 # 10) ;;
      ret (from_option id (JBool false)
             (result ≫= fun r => get r "is_duplicate" (JBool false)))
  end.

(** [DetectorService.check_sensitivity] *)
Definition check_sensitivity (insight : str) (summary_text : str) : M json :=
  let p := SENSITIVITY_PROMPT insight summary_text in
  result <- complete_json p (2 # 10) ;;
  ret (from_option id (JBool true)
         (result ≫= fun r => get r "is_sensitive" (JBool false))).

(** One turn of the loop of [filter_ideas]; [acc] holds the two lists the
    loop appends to, [existing_insights] and [filtered]. *)
Definition filter_idea (summary_text : str) (acc : list str * list PostIdea)
    (idea : PostIdea) : M (list str * list PostIdea) :=
  let existing_insights := acc.1 in
  let filtered := acc.2 in
  dup <- check_duplicate (core_insight idea) existing_insights ;;
  if truthy dup then ret acc
  else
    sens <- check_sensitivity (core_insight idea) summary_text ;;
    if truthy sens then ret acc
    else ret (existing_insights ++ [core_insight idea], filtered ++ [idea]).

(** [DetectorService.filter_ideas] *)
Definition filter_ideas (candidates : list PostIdea) (summary_text : str)
    : M (list PostIdea) :=
  recent_suggestions <- get_saved_suggestions 20 ;;
  let existing_insights := map sg_insight recent_suggestions in
  acc <- for_each (filter_idea summary_text) candidates (existing_insights, []) ;;
  ret acc.2.

(* ===================================================================== *)
(** * services/generator.py *)
(* ===================================================================== *)

(** [GeneratorService.generate_linkedin_post] *)
Definition generate_linkedin_post (idea : PostIdea) (summary_text : str) : M str :=
  let p := LINKEDIN_PROMPT (core_insight idea) (why_it_works idea) summary_text in
  draft <- complete p (7 # 10) 1000 ;;
  ret (from_option _clean_linkedin_draft [] draft).

(** [GeneratorService.generate_x_post] *)
Definition generate_x_post (idea : PostIdea) : M str :=
  let p := X_POST_PROMPT (core_insight idea) in
  draft <- complete p (8 # 10) 100 ;;
  ret (from_option _clean_x_draft [] draft).

(** [GeneratorService.generate_content] *)
Definition generate_content (idea : PostIdea) (summary_text : str)
    : M GeneratedContent :=
  linkedin <- generate_linkedin_post idea summary_text ;;
  x <- generate_x_post idea ;;
  ret {| gc_core_insight := core_insight idea;
         gc_why_it_works := why_it_works idea;
         linkedin_draft := linkedin; x_draft := x |}.

(** [GeneratorService.rewrite_linkedin] *)
Definition rewrite_linkedin (original_draft insight summary_text : str) : M str :=
  let p := REWRITE_LINKEDIN_PROMPT original_draft insight summary_text in
  draft <- complete p (8 # 10) 1000 ;;
  ret (from_option _clean_linkedin_draft original_draft draft).

(** [GeneratorService.rewrite_x] *)
Definition rewrite_x (original_draft insight : str) : M str :=
  let p := REWRITE_X_PROMPT original_draft insight in
  draft <- complete p (9 # 10) 100 ;;
  ret (from_option _clean_x_draft original_draft draft).

(** [GeneratorService.save_suggestion] *)
Definition save_suggestion (content : GeneratedContent) (summary_id : str)
    : M SuggestionRow :=
  db_save_suggestion
    {| sug_summary_id := summary_id; sug_insight := gc_core_insight content;
       sug_linkedin_draft := linkedin_draft content;
       sug_x_draft := x_draft content; sug_status := PENDING |}.

(* ===================================================================== *)
(** * services/pipeline.py *)
(* ===================================================================== *)

(** [l[:n]] *)
Definition slice_to {A : Type} (n : Z) (l : list A) : list A :=
  if 0 <=? n then take (Z.to_nat n) l
  else take (length l - Z.to_nat (- n)) l.

(** [not s] of a string *)
Definition is_empty (s : str) : bool := match s with [] => true | _ => false end.

(** One turn of the loop over [ideas_to_process]; a result is the saved row
    with its content attached. *)
Definition generate_idea (summary_text summary_id : str)
    (results : list (SuggestionRow * GeneratedContent)) (idea : PostIdea)
    : M (list (SuggestionRow * GeneratedContent)) :=
  content <- generate_content idea summary_text ;;
  if is_empty (linkedin_draft content) || is_empty (x_draft content) then ret results
  else
    saved <- save_suggestion content summary_id ;;
    ret (results ++ [(saved, content)]).

(** [ContentPipeline.process_channel] *)
Definition process_channel (channel : str)
    : M (list (SuggestionRow * GeneratedContent)) :=
  let results := [] in
  messages_in_buffer <- get_buffer_from_db channel ;;
  ready <- should_summarize channel ;;
  if negb ready then ret results else
  suggestions_today <- get_suggestions_today ;;
  if max_suggestions_per_day settings <=? Z.of_nat (length suggestions_today)
  then ret results else
  msgs <- get_messages_for_summary channel ;;
  match msgs with
  | [] => ret results
  | first :: _ =>
      s <- summarize_conversation msgs ;;
      match s with
      | None => clear_buffer channel ;; ret results
      | Some s =>
          if is_empty (summary s) then clear_buffer channel ;; ret results else
          let metadata :=
            {| md_key_ideas := key_ideas s; md_opinions := opinions s;
               md_decisions := decisions s;
               md_interesting_phrases := interesting_phrases s;
               message_count := Z.of_nat (length msgs);
               window_start := timestamp first;
               window_end := timestamp (List.last msgs first) |} in
          summary_record <- save_summary channel (summary s) metadata ;;
          let summary_id := sr_id summary_record in
          clear_buffer channel ;;
          detection <- detect_post_worthy s ;;
          if negb (is_post_worthy detection)
             || match ideas detection with [] => true | _ => false end
          then ret results else
          filtered_ideas <- filter_ideas (ideas detection) (summary s) ;;
          match filtered_ideas with
          | [] => ret results
          | _ :: _ =>
              let remaining_slots :=
                max_suggestions_per_day settings - Z.of_nat (length suggestions_today) in
              let ideas_to_process := slice_to remaining_slots filtered_ideas in
              for_each (generate_idea (summary s) summary_id) ideas_to_process results
          end
      end
  end.

(** [ContentPipeline.process_all_channels]. Every model call is guarded
    where it is made and the store of this model never fails, so nothing
    raises out of [process_channel] and the [except] of the loop is never
    entered. *)
Definition process_all_channels : M (list (SuggestionRow * GeneratedContent)) :=
  channels <- get_listening_channels ;;
  for_each (fun all_results channel =>
              results <- process_channel channel ;;
              ret (all_results ++ results))
           channels [].

(* ===================================================================== *)
(** * slack_handler.py: feedback on suggestions *)
(* ===================================================================== *)

(** A [reaction_added] event: [event.get("reaction")] and, of
    [event.get("item", {})], the [ts] and the [channel]. *)
Record ReactionEvent := {
  reaction : str;
  item_ts : option str;
  item_channel : option str
}.

(** [SlackBot._format_suggestion_message] *)
Definition _format_suggestion_message
    (insight why linkedin x : str) : str :=
  join [NEWLINE]
    [ [0x1F440] ++ lit " This might be worth posting:"; [];
      lit "*INSIGHT:*"; insight; [];
      lit "*Why this works:*"; why; [];
      lit "*LinkedIn Draft:*"; lit "---"; linkedin; lit "---"; [];
      lit "*X Draft:*"; lit "---"; x; lit "---"; [];
      lit "React with:";
      [0x1F44D] ++ lit " Save   " ++ [0x1F501] ++ lit " Rewrite   "
        ++ [0x274C] ++ lit " Ignore" ].

(** [SlackBot.send_suggestion] *)
Definition send_suggestion (channel : option str)
    (insight why linkedin x suggestion_id : str) : M unit :=
  let message := _format_suggestion_message insight why linkedin x in
  result <- external (chat_postMessage channel None message) ;;
  match result with
  | Some (Some message_ts) =>
      if is_empty message_ts then ret tt
      else fun w => (tt, set_message_map
                           (<[message_ts := suggestion_id]> (_suggestion_message_map w)) w)
  | _ => ret tt
  end.

(** [SlackBot._rewrite_suggestion] *)
Definition _rewrite_suggestion (suggestion_id : str) (channel : option str)
    (message_ts : str) : M unit :=
  suggestion <- get_suggestion suggestion_id ;;
  match suggestion with
  | None => ret tt
  | Some suggestion =>
      new_linkedin <- rewrite_linkedin (sg_linkedin_draft suggestion)
                        (sg_insight suggestion) [] ;;
      new_x <- rewrite_x (sg_x_draft suggestion) (sg_insight suggestion) ;;
      send_suggestion channel (sg_insight suggestion)
        (lit "Fresh angle on your earlier insight") new_linkedin new_x suggestion_id
  end.

Definition is_one_of (r : str) (names : list string) : bool :=
  existsb (fun n => bool_decide (r = lit n)) names.

(** [SlackBot._handle_reaction] *)
Definition _handle_reaction (event : ReactionEvent) : M unit :=
  suggestion_id <- read (fun w =>
    item_ts event ≫= fun ts => _suggestion_message_map w !! ts) ;;
  match item_ts event, suggestion_id with
  | Some message_ts, Some suggestion_id =>
      if is_empty suggestion_id then ret tt
      else if is_one_of (reaction event) ["+1"; "thumbsup"]%string then
        update_suggestion_status suggestion_id SAVED ;;
        external (chat_postMessage (item_channel event) (Some message_ts)
                    ([0x2705] ++ lit " Saved! Find it anytime with `saved posts`")) ;;
        ret tt
      else if is_one_of (reaction event) ["arrows_counterclockwise"; "repeat"]%string then
        _rewrite_suggestion suggestion_id (item_channel event) message_ts
      else if is_one_of (reaction event) ["x"; "negative_squared_cross_mark"]%string then
        update_suggestion_status suggestion_id IGNORED ;;
        ret tt
      else ret tt
  | _, _ => ret tt
  end.

End Services.

(* ===================================================================== *)
(** * The vocabulary of the statements *)
(* ===================================================================== *)

Section Vocabulary.

Context `{Unicode} {Env : Type} `{External Env}.
Variable settings : Settings.

(** Whether the string starts with a word character. *)
Definition hd_word (s : str) : bool :=
  match s with d :: _ => is_word d | [] => false end.

(** Everything but the outside is as before. *)
Definition same_store (w w' : World Env) : Prop :=
  db w' = db w /\ _buffers w' = _buffers w
  /\ _suggestion_message_map w' = _suggestion_message_map w.

(** A computation that only reads the store and talks to the outside. *)
Definition reads_only {A : Type} (c : M Env A) : Prop :=
  forall w, same_store w (c w).2.

(** The rows the durable query of [get_buffer_from_db] selects. *)
Definition durable_window (channel : str) (w : World Env) : list MessageRow :=
  filter (fun r => mr_channel_id r = channel
                   /\ (utcnow (env w)).1 - minutes (buffer_window_minutes settings)
                      <= mr_created_at r)
         (messages (db w)).

(** The suggestions of today, as [get_suggestions_today] selects them. *)
Definition today_rows (T : datetime) (d : Database) : list SuggestionRow :=
  filter (fun r => T <= sg_created_at r) (suggestions d).

End Vocabulary.

(* ===================================================================== *)
(** * A scripted outside, to run the model on concrete inputs *)
(* ===================================================================== *)

(** The model's and Slack's answers are read off two scripts (an exhausted
    script raises), the clock stands at [now], and the store numbers its
    rows. *)
Record Script := {
  answers : list (option str);
  deliveries : list (option (option str));
  issued : nat
}.

Definition canned (s : string) : list (str * json) :=
  [ (lit "summary", JStr (lit s)); (lit "is_post_worthy", JBool true);
    (lit "ideas", JList [ JObj [(lit "core_insight", JStr (lit "ship small"))];
                          JObj [(lit "core_insight", JStr (lit "talk to users"))];
                          JObj [(lit "core_insight", JStr (lit "hire slowly"))] ]) ].

(** A stand-in for [json.loads] that knows three documents. *)
Definition scripted_loads (content : str) : option json :=
  if bool_decide (content = lit "yes") then
    Some (JObj [(lit "is_duplicate", JBool true); (lit "is_sensitive", JBool true)])
  else if bool_decide (content = lit "no") then
    Some (JObj [(lit "is_duplicate", JBool false); (lit "is_sensitive", JBool false)])
  else if bool_decide (content = lit "ideas") then Some (JObj (canned "standup notes"))
  else None.

Definition scripted (now : datetime) : External Script :=
  {| utcnow e := (now, e);
     chat_completions_create _ e :=
       match answers e with
       | [] => (None, e)
       | a :: rest =>
           (a, {| answers := rest; deliveries := deliveries e; issued := issued e |})
       end;
     json_loads := scripted_loads;
     chat_postMessage _ _ _ e :=
       match deliveries e with
       | [] => (None, e)
       | d :: rest =>
           (d, {| answers := answers e; deliveries := rest; issued := issued e |})
       end;
     new_id e :=
       (lit "id-" ++ [48 + Z.of_nat (issued e)],
        {| answers := answers e; deliveries := deliveries e; issued := S (issued e) |}) |}.

Definition ascii_only : Unicode := {| unicode_isalnum := fun _ => false |}.

Definition strict : Pydantic :=
  {| validate_str v := match v with JStr s => Some s | _ => None end;
     validate_bool v := match v with JBool b => Some b | _ => None end |}.

Definition empty_db : Database :=
  {| messages := []; summaries := []; suggestions := [];
     listening_channels := []; status_writes := [] |}.

(** Eight o'clock on some day, in microseconds. *)
Definition eight_am : datetime := 20000 * 86400000000 + 8 * 3600000000.

Definition at_eight : External Script := scripted eight_am.

Definition chat (n : nat) (channel : string) (at_time : datetime) : list MessageRow :=
  map (fun i => {| mr_id := lit "m" ++ [48 + Z.of_nat i]; mr_channel_id := lit channel;
                   mr_user_id := lit "U0001"; mr_text := lit "hello";
                   mr_created_at := at_time + Z.of_nat i |}) (seq 0 n).

Definition said (contents : list string) : list (option str) :=
  map (fun s => Some (lit s)) contents.

Definition quiet : Script := {| answers := []; deliveries := []; issued := 0 |}.

Definition message (at_time : datetime) : SlackMessage :=
  {| message_id := lit "m"; channel_id := lit "C1"; user_id := lit "U0001";
     text := lit "hello"; timestamp := at_time |}.

(** A buffer of [n] messages, one a minute, whose window opened
    [opened_ago] minutes before eight. *)
Definition buffer_of (n : nat) (opened_ago : Z) : MessageBuffer :=
  {| buf_channel_id := lit "C1";
     buf_messages :=
       map (fun i => message (eight_am - minutes (opened_ago - Z.of_nat i))) (seq 0 n);
     started_at := eight_am - minutes opened_ago |}.

(** Channel C1 with that buffer in process, and an empty store. *)
Definition buffered (n : nat) (opened_ago : Z) : World Script :=
  {| env := quiet; db := empty_db;
     _buffers := {[ lit "C1" := buffer_of n opened_ago ]};
     _suggestion_message_map := ∅ |}.

(** After a restart: [n] messages of channel C1 in the store, sent within
    the last hour, and no in-process buffer. *)
Definition restarted (n : nat) : World Script :=
  {| env := quiet;
     db := with_messages (chat n "C1" (eight_am - minutes 50)) empty_db;
     _buffers := ∅; _suggestion_message_map := ∅ |}.

Definition ship_small : PostIdea :=
  {| core_insight := lit "ship small"; why_it_works := [] |}.

Definition talk_to_users : PostIdea :=
  {| core_insight := lit "talk to users"; why_it_works := [] |}.

Definition old_suggestion (status : SuggestionStatus) : SuggestionRow :=
  {| sg_id := lit "id-0"; sg_summary_id := lit "sum-0";
     sg_insight := lit "hire slowly"; sg_linkedin_draft := lit "long post";
     sg_x_draft := lit "short post"; sg_status := status;
     sg_created_at := eight_am - minutes 120 |}.

(** The model is down for the first call and answers "no" to the second. *)
Definition model_down_once (rows : list SuggestionRow) : World Script :=
  {| env := {| answers := [None; Some (lit "no")]; deliveries := []; issued := 0 |};
     db := with_suggestions rows empty_db;
     _buffers := ∅; _suggestion_message_map := ∅ |}.

(** Two listening channels with eight fresh messages each, one suggestion
    made earlier today, and a model that finds three ideas in C1. *)
Definition busy_world : World Script :=
  {| env := {| answers := said ["ideas"; "ideas"; "no"; "no"; "no"; "no"; "no"; "no";
                                "post one"; "tweet one"; "post two"; "tweet two"];
               deliveries := []; issued := 1 |};
     db := {| messages := chat 8 "C1" (eight_am - minutes 10)
                          ++ chat 8 "C2" (eight_am - minutes 10);
              summaries := [];
              suggestions := [old_suggestion SAVED];
              listening_channels :=
                [ {| lc_channel_id := lit "C1"; lc_added_by := lit "U0001";
                     lc_added_at := eight_am - minutes 600 |};
                  {| lc_channel_id := lit "C2"; lc_added_by := lit "U0001";
                     lc_added_at := eight_am - minutes 600 |} ];
              status_writes := [] |};
     _buffers := ∅; _suggestion_message_map := ∅ |}.

(** A pending suggestion that was delivered in the message 111.1. *)
Definition feedback_world : World Script :=
  {| env := {| answers := said ["fresh post"; "fresh tweet"];
               deliveries := [Some (Some (lit "222.2")); Some (Some (lit "333.3"))];
               issued := 1 |};
     db := with_suggestions [old_suggestion PENDING] empty_db;
     _buffers := ∅;
     _suggestion_message_map := {[ lit "111.1" := lit "id-0" ]} |}.

Definition reacted (name : string) : ReactionEvent :=
  {| reaction := lit name; item_ts := Some (lit "111.1");
     item_channel := Some (lit "D1") |}.

(* ===================================================================== *)
(** * More vocabulary: the shape of a cleaned draft *)
(* ===================================================================== *)

(** The string is empty or starts with a character that is no white
    space. *)
Definition starts_clean (s : str) : bool :=
  match s with c :: _ => negb (isspace c) | [] => true end.

(** No white space at either end. *)
Definition stripped (s : str) : bool := starts_clean s && starts_clean (rev s).

(** Three newlines in a row somewhere in the string. *)
Fixpoint has_blank_run (s : str) : bool :=
  match s with
  | [] => false
  | a :: rest =>
      match rest with
      | b :: c :: _ => (a =? NEWLINE) && (b =? NEWLINE) && (c =? NEWLINE)
      | _ => false
      end || has_blank_run rest
  end.

(** A clean long-form draft: no character of the emoji class, no hashtag
    token, no three newlines in a row, no white space at either end. *)
Definition clean_long_form `{Unicode} (s : str) : Prop :=
  has_emoji s = false /\ has_hashtag s = false /\ has_blank_run s = false
  /\ stripped s = true.

(** A clean short-form draft: no character of the emoji class, no white
    space at either end. *)
Definition clean_short_form (s : str) : Prop :=
  has_emoji s = false /\ stripped s = true.

(* ===================================================================== *)
(** * More of the sources *)
(* ===================================================================== *)

Definition with_listening_channels (rows : list ChannelRow) (d : Database) : Database :=
  {| messages := messages d; summaries := summaries d; suggestions := suggestions d;
     listening_channels := rows; status_writes := status_writes d |}.

(** [.upsert(data, on_conflict="channel_id")] on the rows of the table: the
    row of that channel is replaced where it stands, and the row is added
    at the end when the channel has none. *)
Definition upsert_channel (row : ChannelRow) (rows : list ChannelRow) : list ChannelRow :=
  if existsb (fun r => bool_decide (lc_channel_id r = lc_channel_id row)) rows
  then map (fun r => if bool_decide (lc_channel_id r = lc_channel_id row)
                     then row else r) rows
  else rows ++ [row].

(** [needle in hay] of two strings. *)
Fixpoint contains (needle hay : str) : bool :=
  bool_decide (take (length needle) hay = needle)
  || match hay with
     | [] => false
     | _ :: rest => contains needle rest
     end.

(** [str(n)] of a number that is not negative. *)
Definition str_of_nat (n : nat) : str :=
  lit (DecimalString.NilEmpty.string_of_uint (Nat.to_uint n)).

(** A [message] event: the keys the handlers read, [None] for a key the
    event does not have. *)
Record MessageEvent := {
  ev_thread_ts : option str;
  ev_channel : str;
  ev_ts : option str;
  ev_user : option str;
  ev_text : option str
}.

(** An [app_mention] event. *)
Record MentionEvent := {
  mention_text : option str;
  mention_channel : str;
  mention_user : str
}.

(** What else the sources use of Python and of the Slack client. *)
Class Platform (Env : Type) := {
  (** [str.lower] *)
  lower : str -> str;
  (** [client.conversations_open(users=...)] and
      [result["channel"]["id"]]; [None] when either raises *)
  conversations_open : list str -> Env -> option str * Env
}.

Section MoreServices.

Context `{Unicode} `{Pydantic} {Env : Type} `{External Env} `{Platform Env}.
Variable settings : Settings.

Local Abbreviation M := (M Env).

(** ** database.py *)

(** [Database.get_unprocessed_messages] *)
Definition get_unprocessed_messages (channel : str) (since : option datetime)
    : M (list SlackMessage) :=
  rows <- read (fun w =>
    let of_channel := filter (fun r => mr_channel_id r = channel) (messages (db w)) in
    let query :=
      match since with
      | Some t => filter (fun r => t <= mr_created_at r) of_channel
      | None => of_channel
      end in
    order_by mr_created_at query) ;;
  ret (map message_of_row rows).

(** [Database.get_recent_summaries] *)
Definition get_recent_summaries (channel : str) (limit : nat) : M (list SummaryRow) :=
  read (fun w =>
    take limit (order_by_desc sr_created_at
      (filter (fun r => sr_channel_id r = channel) (summaries (db w))))).

(** [Database.get_latest_summary] *)
Definition get_latest_summary (channel : str) : M (option SummaryRow) :=
  read (fun w =>
    head (take 1 (order_by_desc sr_created_at
      (filter (fun r => sr_channel_id r = channel) (summaries (db w)))))).

(** [Database.add_listening_channel] *)
Definition add_listening_channel (channel user : str) : M ChannelRow :=
  now <- external utcnow ;;
  let row := {| lc_channel_id := channel; lc_added_by := user; lc_added_at := now |} in
  write_db (fun d =>
    with_listening_channels (upsert_channel row (listening_channels d)) d) ;;
  ret row.

(** [Database.remove_listening_channel] *)
Definition remove_listening_channel (channel : str) : M bool :=
  write_db (fun d =>
    with_listening_channels
      (filter (fun r => lc_channel_id r <> channel) (listening_channels d)) d) ;;
  ret true.

(** [Database.is_listening] *)
Definition is_listening (channel : str) : M bool :=
  read (fun w =>
    (0 <? length (filter (fun r => lc_channel_id r = channel)
                         (listening_channels (db w))))%nat).

(** ** services/buffer.py *)

(** [BufferService.get_buffer] *)
Definition get_buffer (channel : str) : M (option MessageBuffer) :=
  read (fun w => _buffers w !! channel).

(** ** services/summarizer.py *)

(** [SummarizerService.process_channel] *)
Definition summarizer_process_channel (channel : str) : M (option SummaryRow) :=
  ready <- should_summarize settings channel ;;
  if negb ready then ret None else
  msgs <- get_messages_for_summary settings channel ;;
  match msgs with
  | [] => ret None
  | first :: _ =>
      s <- summarize_conversation msgs ;;
      match s with
      | None => clear_buffer channel ;; ret None
      | Some s =>
          if is_empty (summary s) then clear_buffer channel ;; ret None else
          let metadata :=
            {| md_key_ideas := key_ideas s; md_opinions := opinions s;
               md_decisions := decisions s;
               md_interesting_phrases := interesting_phrases s;
               message_count := Z.of_nat (length msgs);
               window_start := timestamp first;
               window_end := timestamp (List.last msgs first) |} in
          saved <- save_summary channel (summary s) metadata ;;
          clear_buffer channel ;;
          ret (Some saved)
      end
  end.

(** [SummarizerService.process_all_channels] *)
Definition summarizer_process_all_channels : M (list SummaryRow) :=
  channels <- get_listening_channels ;;
  for_each (fun results channel =>
              result <- summarizer_process_channel channel ;;
              match result with
              | Some row => ret (results ++ [row])
              | None => ret results
              end)
           channels [].

(** ** slack_handler.py *)

(** [event.get(key)] taken as a condition: the key is there and its string
    is not empty. *)
Definition present (v : option str) : bool :=
  match v with Some (_ :: _) => true | _ => false end.

(** [SlackBot._handle_channel_message] *)
Definition _handle_channel_message (event : MessageEvent) : M unit :=
  if present (ev_thread_ts event) then ret tt else
  let channel := ev_channel event in
  listening <- is_listening channel ;;
  if negb listening then ret tt else
  now <- external utcnow ;;
  let message :=
    {| message_id := from_option id [] (ev_ts event); channel_id := channel;
       user_id := from_option id [] (ev_user event);
       text := from_option id [] (ev_text event); timestamp := now |} in
  add_message message.

(** [SlackBot._handle_mention]; [say] is the handler's argument of that
    name, called with a text and a channel. *)
Definition _handle_mention (event : MentionEvent) (say : str -> str -> M unit)
    : M unit :=
  let txt := lower (from_option id [] (mention_text event)) in
  let channel := mention_channel event in
  let user := mention_user event in
  if contains (lit "start listening") txt then
    add_listening_channel channel user ;;
    say ([0x1F440] ++ lit " Got it! I'm now listening to this channel. "
           ++ lit "I'll stay quiet and only reach out when I spot something worth posting.")
        channel
  else if contains (lit "stop listening") txt then
    remove_listening_channel channel ;;
    say (lit "Okay, I've stopped listening to this channel.") channel
  else if contains (lit "status") txt then
    channels <- get_listening_channels ;;
    today <- get_suggestions_today ;;
    say ([0x1F4CA] ++ lit " *Status*" ++ [NEWLINE]
           ++ [0x2022] ++ lit " Listening to " ++ str_of_nat (length channels)
           ++ lit " channel(s)" ++ [NEWLINE]
           ++ [0x2022] ++ lit " " ++ str_of_nat (length today)
           ++ lit " suggestion(s) today" ++ [NEWLINE]
           ++ [0x2022] ++ lit " Max "
           ++ (if 0 <=? max_suggestions_per_day settings
               then str_of_nat (Z.to_nat (max_suggestions_per_day settings))
               else lit "-" ++ str_of_nat (Z.to_nat (- max_suggestions_per_day settings)))
           ++ lit " suggestions/day")
        channel
  else ret tt.

(** [SlackBot._handle_stop_listening]; [say] is called with a text only. *)
Definition _handle_stop_listening (say : str -> M unit) : M unit :=
  channels <- get_listening_channels ;;
  match channels with
  | [] => say (lit "I'm not currently listening to any channels.")
  | _ :: _ =>
      for_each (fun (_ : unit) channel => remove_listening_channel channel ;; ret tt)
               channels tt ;;
      say (lit "Stopped listening to " ++ str_of_nat (length channels)
             ++ lit " channel(s).")
  end.

(** [SlackBot.send_dm_suggestion] *)
Definition send_dm_suggestion (user : str) (content : GeneratedContent)
    (suggestion_id : str) : M unit :=
  opened <- external (conversations_open [user]) ;;
  match opened with
  | Some channel =>
      send_suggestion (Some channel) (gc_core_insight content)
        (gc_why_it_works content) (linkedin_draft content) (x_draft content)
        suggestion_id
  | None => ret tt
  end.

(** ** main.py *)

(** [scheduled_pipeline_run]; [founder_user_id] is the setting of that
    name. *)
Definition scheduled_pipeline_run (founder_user_id : str) : M unit :=
  found <- process_all_channels settings ;;
  for_each (fun (_ : unit) suggestion =>
              send_dm_suggestion founder_user_id suggestion.2 (sg_id suggestion.1))
           found tt.

End MoreServices.

(* ===================================================================== *)
(** * More vocabulary: what a pass leaves in the store *)
(* ===================================================================== *)

(** The buffers after [clear_buffer] read the clock at [t]: the buffer of
    the channel, if it has one, is empty and its window opens at [t]. *)
Definition reset_buffer (channel : str) (t : datetime)
    (buffers : gmap str MessageBuffer) : gmap str MessageBuffer :=
  match buffers !! channel with
  | Some _ =>
      <[channel := {| buf_channel_id := channel; buf_messages := [];
                      started_at := t |}]> buffers
  | None => buffers
  end.

(** A summary record as the pass writes it for a channel. *)
Definition summary_made (channel : str) (row : SummaryRow) : Prop :=
  sr_channel_id row = channel
  /\ sr_summary row <> []
  /\ 0 < message_count (sr_metadata row).

(** A result of the pass, made under the summary of id [summary_id]: the
    row is pending and holds the drafts of the content, both drafts are
    there and clean, and the short one has at most 280 characters. *)
Definition suggestion_made `{Unicode} (summary_id : str)
    (rc : SuggestionRow * GeneratedContent) : Prop :=
  sg_status rc.1 = PENDING
  /\ sg_summary_id rc.1 = summary_id
  /\ sg_insight rc.1 = gc_core_insight rc.2
  /\ sg_linkedin_draft rc.1 = linkedin_draft rc.2
  /\ sg_x_draft rc.1 = x_draft rc.2
  /\ linkedin_draft rc.2 <> []
  /\ x_draft rc.2 <> []
  /\ clean_long_form (linkedin_draft rc.2)
  /\ clean_short_form (x_draft rc.2)
  /\ (length (x_draft rc.2) <= 280)%nat.

(** The store [d] with summary rows and suggestion rows added at the end of
    their tables, and nothing else changed. *)
Definition grown (new_summaries : list SummaryRow)
    (new_suggestions : list SuggestionRow) (d : Database) : Database :=
  with_suggestions (suggestions d ++ new_suggestions)
    (with_summaries (summaries d ++ new_summaries) d).

(** What [process_channel] can have done when it returns [out] from the
    world [w]: it added at most one summary record, of the channel, and then
    the suggestions it returns, made under that summary; it reset the
    buffer of the channel or left the buffers alone; it touched nothing
    else of the store. *)
Definition channel_outcome `{Unicode} {Env : Type} (channel : str) (w : World Env)
    (out : list (SuggestionRow * GeneratedContent) * World Env) : Prop :=
  exists rows t,
    db out.2 = grown rows (map fst out.1) (db w)
    /\ _suggestion_message_map out.2 = _suggestion_message_map w
    /\ (_buffers out.2 = _buffers w
        \/ _buffers out.2 = reset_buffer channel t (_buffers w))
    /\ (rows = [] /\ out.1 = []
        \/ exists row,
             rows = [row] /\ summary_made channel row
             /\ Forall (suggestion_made (sr_id row)) out.1
             /\ _buffers out.2 = reset_buffer channel t (_buffers w)).

(** What a pass over [channels] can have done when it returns [out] from
    the world [w]. *)
Definition pass_outcome `{Unicode} {Env : Type} (channels : list str) (w : World Env)
    (out : list (SuggestionRow * GeneratedContent) * World Env) : Prop :=
  exists rows,
    db out.2 = grown rows (map fst out.1) (db w)
    /\ _suggestion_message_map out.2 = _suggestion_message_map w
    /\ Forall (fun row => exists c, c ∈ channels /\ summary_made c row) rows
    /\ Forall (fun rc => exists row, row ∈ rows /\ suggestion_made (sr_id row) rc) out.1
    /\ (forall c, is_Some (_buffers out.2 !! c) <-> is_Some (_buffers w !! c))
    /\ (forall c, c ∉ channels -> _buffers out.2 !! c = _buffers w !! c).

(** Every short-form draft in the store is within the limit of 280
    characters. *)
Definition x_drafts_within (d : Database) : Prop :=
  Forall (fun r => (length (sg_x_draft r) <= 280)%nat) (suggestions d).

(** The clock never goes back: whatever is asked of the outside in
    between, a reading of the clock is no earlier than the one before. *)
Definition clock_monotone {Env : Type} `{External Env} : Prop :=
  (forall e, (utcnow e).1 <= (utcnow (utcnow e).2).1)
  /\ (forall request e,
        (utcnow e).1 <= (utcnow (chat_completions_create request e).2).1)
  /\ (forall channel thread message e,
        (utcnow e).1 <= (utcnow (chat_postMessage channel thread message e).2).1)
  /\ (forall e, (utcnow e).1 <= (utcnow (new_id e).2).1).

(** A computation that only appends to the suggestions, rows created no
    earlier than the clock read when it started, and after which the clock
    reads no earlier than before it. *)
Definition stamps {Env : Type} `{External Env} {A : Type} (c : M Env A) : Prop :=
  forall w,
    (utcnow (env w)).1 <= (utcnow (env (c w).2)).1
    /\ exists new,
         suggestions (db (c w).2) = suggestions (db w) ++ new
         /\ Forall (fun r => (utcnow (env w)).1 <= sg_created_at r) new.

(** An outside whose model is unreachable: every call of it raises. *)
Definition offline : External unit :=
  {| utcnow e := (eight_am, e);
     chat_completions_create _ e := (None, e);
     json_loads := scripted_loads;
     chat_postMessage _ _ _ e := (None, e);
     new_id e := (lit "id", e) |}.

(** An outside whose clock ticks: every reading is one second later than
    the one before. The rest is the scripted outside. *)
Record Ticking := {
  reading : datetime;
  script : Script
}.

Definition ticking : External Ticking :=
  {| utcnow e :=
       (reading e, {| reading := reading e + 1000000; script := script e |});
     chat_completions_create request e :=
       let (answer, rest) :=
         @chat_completions_create Script (scripted 0) request (script e) in
       (answer, {| reading := reading e; script := rest |});
     json_loads := scripted_loads;
     chat_postMessage channel thread message e :=
       let (delivery, rest) :=
         @chat_postMessage Script (scripted 0) channel thread message (script e) in
       (delivery, {| reading := reading e; script := rest |});
     new_id e :=
       let (i, rest) := @new_id Script (scripted 0) (script e) in
       (i, {| reading := reading e; script := rest |}) |}.

(** The midnight that ends the day of [eight_am]. *)
Definition midnight : datetime := 20001 * 86400000000.

Definition earlier_today (i : string) : SuggestionRow :=
  {| sg_id := lit i; sg_summary_id := lit "sum-0";
     sg_insight := lit "hire slowly"; sg_linkedin_draft := lit "long post";
     sg_x_draft := lit "short post"; sg_status := PENDING;
     sg_created_at := midnight - minutes 300 |}.

(** Six and a half seconds before midnight: two listening channels with
    eight fresh messages each, two suggestions made earlier that day, and a
    model that finds three ideas in each channel. *)
Definition before_midnight : World Ticking :=
  {| env :=
       {| reading := midnight - 6500000;
          script :=
            {| answers := said ["ideas"; "ideas"; "no"; "no"; "no"; "no"; "no";
                                "post one"; "tweet one";
                                "ideas"; "ideas"; "no"; "no"; "no"; "no"; "no";
                                "post two"; "tweet two"; "post three"; "tweet three";
                                "post four"; "tweet four"];
               deliveries := []; issued := 2 |} |};
     db := {| messages := chat 8 "C1" (midnight - minutes 10)
                          ++ chat 8 "C2" (midnight - minutes 10);
              summaries := [];
              suggestions := [earlier_today "id-0"; earlier_today "id-1"];
              listening_channels :=
                [ {| lc_channel_id := lit "C1"; lc_added_by := lit "U0001";
                     lc_added_at := midnight - minutes 600 |};
                  {| lc_channel_id := lit "C2"; lc_added_by := lit "U0001";
                     lc_added_at := midnight - minutes 600 |} ];
              status_writes := [] |};
     _buffers := ∅; _suggestion_message_map := ∅ |}.

(** [str.lower] on ASCII letters, and a Slack that opens the conversation
    D1 with whoever is asked for. *)
Definition ascii_lower (s : str) : str :=
  map (fun c => if (65 <=? c) && (c <=? 90) then c + 32 else c) s.

Definition one_conversation : Platform Script :=
  {| lower := ascii_lower;
     conversations_open _ e := (Some (lit "D1"), e) |}.

(** The store of [busy_world] behind the unreachable model. *)
Definition cut_off : World unit :=
  {| env := tt; db := db busy_world; _buffers := ∅; _suggestion_message_map := ∅ |}.

(** The summary of a stand-up, and a model that finds ideas in it. *)
Definition standup : ConversationSummary :=
  {| summary := lit "standup notes"; key_ideas := [lit "ship small"];
     opinions := []; decisions := []; interesting_phrases := [] |}.

Definition finds_ideas : World Script :=
  {| env := {| answers := said ["ideas"]; deliveries := []; issued := 0 |};
     db := empty_db; _buffers := ∅; _suggestion_message_map := ∅ |}.

Definition a_draft : GeneratedContent :=
  {| gc_core_insight := lit "ship small"; gc_why_it_works := [];
     linkedin_draft := lit "post one"; x_draft := lit "tweet one" |}.

(** [say] of a handler, as a call of [chat_postMessage] whose result is
    dropped. *)
Definition say_in_channel (txt channel : str) : M Script unit :=
  external (@chat_postMessage Script at_eight (Some channel) None txt) ;; ret tt.

Definition say_back (txt : str) : M Script unit :=
  external (@chat_postMessage Script at_eight None None txt) ;; ret tt.

(** A mention in channel C9 that names two commands. *)
Definition a_mention : MentionEvent :=
  {| mention_text := Some (lit "<@U0002> don't Stop Listening, START listening here");
     mention_channel := lit "C9"; mention_user := lit "U0001" |}.

(* ===================================================================== *)
(** * Facts about strings *)
(* ===================================================================== *)

Lemma lstrip_length (s : str) : (length (lstrip s) <= length s)%nat.
Proof.
  induction s as [|c s IH]; simpl; [lia|].
  destruct (isspace c); simpl; lia.
Qed.

Lemma strip_length (s : str) : (length (strip s) <= length s)%nat.
Proof.
  unfold strip, rstrip. rewrite length_rev.
  etransitivity; [apply lstrip_length|].
  rewrite length_rev. apply lstrip_length.
Qed.

Lemma lstrip_app_dots (s : str) : lstrip (s ++ lit "...") = lstrip s ++ lit "...".
Proof.
  induction s as [|c s IH]; [reflexivity|].
  simpl. destruct (isspace c); [exact IH | reflexivity].
Qed.

Lemma rstrip_app_dots (s : str) : rstrip (s ++ lit "...") = s ++ lit "...".
Proof.
  unfold rstrip. rewrite rev_app_distr.
  change (rev (lit "...") ++ rev s) with (46 :: (46 :: 46 :: rev s)).
  change (lstrip (46 :: (46 :: 46 :: rev s))) with (rev (lit "...") ++ rev s).
  rewrite <- rev_app_distr. apply rev_involutive.
Qed.

Lemma strip_app_dots (s : str) : strip (s ++ lit "...") = lstrip s ++ lit "...".
Proof. unfold strip. rewrite lstrip_app_dots. apply rstrip_app_dots. Qed.

Lemma lstrip_suffix (s : str) : exists p, s = p ++ lstrip s.
Proof.
  induction s as [|c s [p IH]]; [exists []; reflexivity|].
  simpl. destruct (isspace c).
  - exists (c :: p). simpl. congruence.
  - exists []. reflexivity.
Qed.

Lemma strip_infix (s : str) : exists p q, s = p ++ strip s ++ q.
Proof.
  unfold strip, rstrip.
  destruct (lstrip_suffix s) as [p Hp].
  destruct (lstrip_suffix (rev (lstrip s))) as [q Hq].
  exists p, (rev q).
  rewrite <- rev_app_distr, <- Hq, rev_involutive. exact Hp.
Qed.

(** ** Emoji *)

Lemma has_emoji_false (s : str) :
  has_emoji s = false <-> Forall (fun c => is_emoji c = false) s.
Proof.
  unfold has_emoji. induction s as [|c s IH]; simpl.
  - split; [constructor | reflexivity].
  - rewrite orb_false_iff, IH, Forall_cons_iff. reflexivity.
Qed.

Lemma emoji_sub_clean (s : str) : has_emoji (emoji_sub s) = false.
Proof.
  apply has_emoji_false. unfold emoji_sub.
  apply list.Forall_forall. intros c Hc.
  apply list_elem_of_filter in Hc. tauto.
Qed.

Lemma has_emoji_app (a b : str) : has_emoji (a ++ b) = has_emoji a || has_emoji b.
Proof. unfold has_emoji. apply existsb_app. Qed.

Lemma strip_no_emoji (s : str) : has_emoji s = false -> has_emoji (strip s) = false.
Proof.
  destruct (strip_infix s) as (p & q & Hs). intros Hno.
  rewrite Hs, !has_emoji_app, !orb_false_iff in Hno. tauto.
Qed.

Lemma take_no_emoji (n : nat) (s : str) :
  has_emoji s = false -> has_emoji (take n s) = false.
Proof.
  intros Hno. rewrite <- (take_drop n s), has_emoji_app, orb_false_iff in Hno. tauto.
Qed.

Section CleanUp.

Context `{Unicode}.

Lemma sub_hashtag_from_keeps (P : Z -> Prop) (b : bool) (s : str) :
  Forall P s -> Forall P (sub_hashtag_from b s).
Proof.
  intros Hs. revert b. induction Hs as [|c s Hc Hs IH]; intros b; simpl.
  - constructor.
  - destruct (b && is_word c); [apply IH|].
    destruct (hashtag_at c s); [apply IH|]. constructor; [exact Hc | apply IH].
Qed.

Lemma newline_run_all (P : Z -> Prop) (n : nat) : P NEWLINE -> Forall P (newline_run n).
Proof.
  intros Hn. unfold newline_run. destruct (3 <=? n)%nat.
  - repeat constructor; exact Hn.
  - apply List.Forall_forall. intros c Hc. apply repeat_spec in Hc. subst c. exact Hn.
Qed.

Lemma collapse_newlines_from_keeps (P : Z -> Prop) (run : nat) (s : str) :
  P NEWLINE -> Forall P s -> Forall P (collapse_newlines_from run s).
Proof.
  intros Hn Hs. revert run. induction Hs as [|c s Hc Hs IH]; intros run; simpl.
  - apply newline_run_all, Hn.
  - destruct (c =? NEWLINE); [apply IH|].
    apply Forall_app. split; [apply newline_run_all, Hn|].
    constructor; [exact Hc | apply IH].
Qed.

(** The long-form clean-up leaves no character of the emoji class. *)
Lemma clean_linkedin_no_emoji (draft : str) :
  has_emoji (_clean_linkedin_draft draft) = false.
Proof.
  unfold _clean_linkedin_draft. apply strip_no_emoji, has_emoji_false.
  apply collapse_newlines_from_keeps; [reflexivity|].
  apply sub_hashtag_from_keeps, has_emoji_false, emoji_sub_clean.
Qed.

(** The short-form clean-up leaves no character of the emoji class. *)
Lemma clean_x_no_emoji (draft : str) : has_emoji (_clean_x_draft draft) = false.
Proof.
  unfold _clean_x_draft. apply strip_no_emoji.
  destruct (280 <? length (emoji_sub (sub_hashtag_space draft)))%nat.
  - rewrite has_emoji_app, take_no_emoji by apply emoji_sub_clean. reflexivity.
  - apply emoji_sub_clean.
Qed.

(** ** Hashtags *)

Lemma hashtag_at_hd (c : Z) (s : str) : hashtag_at c s = (c =? HASH) && hd_word s.
Proof. destruct s; reflexivity. Qed.

Lemma has_hashtag_app (a b : str) :
  has_hashtag (a ++ b) = false -> has_hashtag a = false /\ has_hashtag b = false.
Proof.
  induction a as [|c a IH]; simpl; [tauto|].
  rewrite !orb_false_iff. intros [Hc Hab]. destruct (IH Hab) as [Ha Hb].
  repeat split; try assumption.
  rewrite hashtag_at_hd in *. destruct (c =? HASH); [|reflexivity].
  destruct a; [reflexivity | exact Hc].
Qed.

Lemma strip_no_hashtag (s : str) : has_hashtag s = false -> has_hashtag (strip s) = false.
Proof.
  destruct (strip_infix s) as (p & q & Hs). intros Hno.
  rewrite Hs in Hno. apply has_hashtag_app in Hno as [_ Hno].
  apply has_hashtag_app in Hno. tauto.
Qed.

Lemma sub_hashtag_from_clean (b : bool) (s : str) :
  has_hashtag (sub_hashtag_from b s) = false
  /\ (b = true \/ hd_word s = false -> hd_word (sub_hashtag_from b s) = false).
Proof.
  revert b. induction s as [|c s IH]; intros b; simpl; [tauto|].
  destruct (b && is_word c) eqn:Hskip; [destruct (IH true); auto|].
  destruct (hashtag_at c s) eqn:Hat; [destruct (IH true); auto|].
  destruct (IH false) as [Hno Hhd]. simpl. split.
  - rewrite Hno, orb_false_r, hashtag_at_hd.
    rewrite hashtag_at_hd in Hat.
    destruct (c =? HASH); [|reflexivity]. simpl in *. auto.
  - intros [-> | Hc]; [exact Hskip | exact Hc].
Qed.

Lemma newline_not_word : is_word NEWLINE = false.
Proof. reflexivity. Qed.

Lemma has_hashtag_newline_run (n : nat) (s : str) :
  has_hashtag (newline_run n ++ s) = has_hashtag s.
Proof.
  unfold newline_run. destruct (3 <=? n)%nat; [reflexivity|].
  induction n as [|n IH]; [reflexivity | exact IH].
Qed.

Lemma collapse_hd_run (run : nat) (s : str) :
  hd_word (collapse_newlines_from (S run) s) = false.
Proof.
  revert run. induction s as [|c s IH]; intros run; simpl.
  - unfold newline_run. destruct (3 <=? S run)%nat; reflexivity.
  - destruct (c =? NEWLINE); [apply IH|].
    unfold newline_run. destruct (3 <=? S run)%nat; reflexivity.
Qed.

Lemma collapse_hd (s : str) : hd_word (collapse_newlines_from 0 s) = hd_word s.
Proof.
  destruct s as [|c s]; [reflexivity|]. simpl.
  destruct (c =? NEWLINE) eqn:Hc; [|reflexivity].
  apply Z.eqb_eq in Hc. subst c. apply collapse_hd_run.
Qed.

Lemma collapse_no_hashtag (run : nat) (s : str) :
  has_hashtag s = false -> has_hashtag (collapse_newlines_from run s) = false.
Proof.
  revert run. induction s as [|c s IH]; intros run; simpl.
  - intros _. rewrite <- (app_nil_r (newline_run run)). apply has_hashtag_newline_run.
  - rewrite orb_false_iff. intros [Hc Hs].
    destruct (c =? NEWLINE); [apply IH, Hs|].
    rewrite has_hashtag_newline_run. simpl.
    rewrite (IH 0%nat Hs), orb_false_r.
    rewrite hashtag_at_hd, collapse_hd, <- hashtag_at_hd. exact Hc.
Qed.

(** The long-form clean-up leaves no hashtag token. *)
Lemma clean_linkedin_no_hashtag (draft : str) :
  has_hashtag (_clean_linkedin_draft draft) = false.
Proof.
  unfold _clean_linkedin_draft.
  apply strip_no_hashtag, collapse_no_hashtag, sub_hashtag_from_clean.
Qed.

End CleanUp.

(* ===================================================================== *)
(** * The shape of a cleaned draft (generator.py) *)
(* ===================================================================== *)

Lemma lstrip_starts_clean (s : str) : starts_clean (lstrip s) = true.
Proof.
  induction s as [|c s IH]; [reflexivity|]. simpl.
  destruct (isspace c) eqn:Hc; [exact IH|]. simpl. rewrite Hc. reflexivity.
Qed.

Lemma lstrip_clean_id (s : str) : starts_clean s = true -> lstrip s = s.
Proof.
  destruct s as [|c s]; [reflexivity|]. simpl.
  destruct (isspace c); [discriminate | reflexivity].
Qed.

Lemma rstrip_prefix (s : str) : exists q, s = rstrip s ++ q.
Proof.
  unfold rstrip. destruct (lstrip_suffix (rev s)) as [p Hp].
  exists (rev p). rewrite <- rev_app_distr, <- Hp, rev_involutive. reflexivity.
Qed.

Lemma strip_stripped (s : str) : stripped (strip s) = true.
Proof.
  unfold stripped. apply andb_true_intro. split.
  - unfold strip. destruct (rstrip_prefix (lstrip s)) as [q Hq].
    pose proof (lstrip_starts_clean s) as Hclean. rewrite Hq in Hclean.
    destruct (rstrip (lstrip s)); [reflexivity | exact Hclean].
  - unfold strip, rstrip. rewrite rev_involutive. apply lstrip_starts_clean.
Qed.

Lemma stripped_strip_id (s : str) : stripped s = true -> strip s = s.
Proof.
  unfold stripped. intros Hs. apply andb_prop in Hs as [Hl Hr].
  unfold strip, rstrip. rewrite (lstrip_clean_id s Hl), (lstrip_clean_id _ Hr).
  apply rev_involutive.
Qed.

Lemma has_blank_run_app (a b : str) :
  has_blank_run (a ++ b) = false ->
  has_blank_run a = false /\ has_blank_run b = false.
Proof.
  induction a as [|x a IH]; [simpl; tauto|].
  rewrite <- app_comm_cons. cbn [has_blank_run].
  rewrite !orb_false_iff. intros [Hx Hab]. destruct (IH Hab) as [Ha Hb].
  repeat split; try assumption.
  destruct a as [|y [|z a]]; try reflexivity. exact Hx.
Qed.

Lemma newline_run_cases (n : nat) :
  newline_run n = [] \/ newline_run n = [NEWLINE]
  \/ newline_run n = [NEWLINE; NEWLINE].
Proof. destruct n as [|[|[|n]]]; cbv; tauto. Qed.

Lemma collapse_no_blank_run (run : nat) (s : str) :
  has_blank_run (collapse_newlines_from run s) = false.
Proof.
  revert run. induction s as [|c s IH]; intros run; simpl.
  - destruct (newline_run_cases run) as [-> | [-> | ->]]; reflexivity.
  - destruct (c =? NEWLINE) eqn:Hc; [apply IH|].
    specialize (IH 0%nat).
    destruct (newline_run_cases run) as [-> | [-> | ->]];
      cbn [app has_blank_run]; rewrite IH, Hc;
      destruct (collapse_newlines_from 0 s) as [|y [|z t]];
      rewrite ?andb_false_r; reflexivity.
Qed.

Lemma strip_no_blank_run (s : str) :
  has_blank_run s = false -> has_blank_run (strip s) = false.
Proof.
  destruct (strip_infix s) as (p & q & Hs). intros Hno.
  rewrite Hs in Hno. apply has_blank_run_app in Hno as [_ Hno].
  apply has_blank_run_app in Hno. tauto.
Qed.

Lemma emoji_sub_id (s : str) : has_emoji s = false -> emoji_sub s = s.
Proof.
  intros Hno. apply has_emoji_false in Hno. unfold emoji_sub.
  induction Hno as [|c s Hc Hs IH]; [reflexivity|].
  rewrite filter_cons_True by exact Hc. congruence.
Qed.

Lemma repeat_newline_short (n : nat) (t : str) :
  has_blank_run (repeat NEWLINE n ++ t) = false -> (n < 3)%nat.
Proof.
  destruct n as [|[|[|n]]]; try lia. simpl. discriminate.
Qed.

Lemma collapse_id_from (run : nat) (s : str) :
  has_blank_run (repeat NEWLINE run ++ s) = false ->
  collapse_newlines_from run s = repeat NEWLINE run ++ s.
Proof.
  revert run. induction s as [|c s IH]; intros run Hno; simpl.
  - pose proof (repeat_newline_short _ _ Hno) as Hrun.
    rewrite app_nil_r. unfold newline_run.
    destruct (Nat.leb_spec 3 run); [lia | reflexivity].
  - destruct (c =? NEWLINE) eqn:Hc.
    + apply Z.eqb_eq in Hc. subst c.
      assert (Hshift : repeat NEWLINE run ++ NEWLINE :: s
                       = repeat NEWLINE (S run) ++ s).
      { change (NEWLINE :: s) with ([NEWLINE] ++ s).
        rewrite app_assoc. f_equal.
        change [NEWLINE] with (repeat NEWLINE 1).
        rewrite <- repeat_app. f_equal. lia. }
      rewrite Hshift in *. apply IH, Hno.
    + pose proof (repeat_newline_short _ _ Hno) as Hrun.
      apply has_blank_run_app in Hno as [_ Hno].
      cbn [has_blank_run] in Hno. apply orb_false_iff in Hno as [_ Hno].
      rewrite (IH 0%nat Hno). unfold newline_run.
      destruct (Nat.leb_spec 3 run); [lia | reflexivity].
Qed.

Section CleanedDrafts.

Context `{Unicode}.

Lemma sub_hashtag_id (s : str) : has_hashtag s = false -> sub_hashtag s = s.
Proof.
  unfold sub_hashtag. induction s as [|c s IH]; [reflexivity|].
  simpl. rewrite orb_false_iff. intros [Hc Hs]. rewrite Hc, (IH Hs). reflexivity.
Qed.

Lemma clean_linkedin_no_blank_run (draft : str) :
  has_blank_run (_clean_linkedin_draft draft) = false.
Proof. unfold _clean_linkedin_draft. apply strip_no_blank_run, collapse_no_blank_run. Qed.

(** What the long-form clean-up returns is a clean long-form draft, and the
    short-form clean-up a clean short-form draft. *)
Lemma clean_linkedin_shape (draft : str) : clean_long_form (_clean_linkedin_draft draft).
Proof.
  repeat split;
    [apply clean_linkedin_no_emoji | apply clean_linkedin_no_hashtag
    | apply clean_linkedin_no_blank_run | apply strip_stripped].
Qed.

Lemma clean_x_shape (draft : str) : clean_short_form (_clean_x_draft draft).
Proof. split; [apply clean_x_no_emoji | apply strip_stripped]. Qed.

(** X1. Cleaning a cleaned long-form draft changes nothing: the clean-up is
    idempotent. *)
Theorem clean_linkedin_idempotent (draft : str) :
  _clean_linkedin_draft (_clean_linkedin_draft draft) = _clean_linkedin_draft draft.
Proof.
  pose proof (clean_linkedin_no_emoji draft) as Hemoji.
  pose proof (clean_linkedin_no_hashtag draft) as Htag.
  pose proof (clean_linkedin_no_blank_run draft) as Hrun.
  pose proof (strip_stripped (collapse_newlines (sub_hashtag (emoji_sub draft)))) as Hstrip.
  change (strip (collapse_newlines (sub_hashtag (emoji_sub draft))))
    with (_clean_linkedin_draft draft) in Hstrip.
  set (clean := _clean_linkedin_draft draft) in *.
  unfold _clean_linkedin_draft.
  rewrite (emoji_sub_id clean Hemoji), (sub_hashtag_id clean Htag).
  unfold collapse_newlines. rewrite (collapse_id_from 0 clean Hrun). simpl.
  apply stripped_strip_id, Hstrip.
Qed.

End CleanedDrafts.

(* ===================================================================== *)
(** * Reasoning about the state monad *)
(* ===================================================================== *)

Section Properties.

Context `{Unicode} `{Pydantic} {Env : Type} `{External Env}.
Variable settings : Settings.

Local Abbreviation reads_only := (@reads_only Env _).

Lemma bind_run {A B : Type} (c : M Env A) (k : A -> M Env B) (w : World Env) :
  bind c k w = k (c w).1 (c w).2.
Proof. unfold bind. destruct (c w). reflexivity. Qed.

Lemma same_store_refl (w : World Env) : same_store w w.
Proof. repeat split. Qed.

Lemma same_store_trans (w1 w2 w3 : World Env) :
  same_store w1 w2 -> same_store w2 w3 -> same_store w1 w3.
Proof. unfold same_store. intros (-> & -> & ->) (-> & -> & ->). repeat split. Qed.

Lemma reads_only_ret {A : Type} (a : A) : reads_only (ret a).
Proof. intros w. apply same_store_refl. Qed.

Lemma reads_only_read {A : Type} (f : World Env -> A) : reads_only (read f).
Proof. intros w. apply same_store_refl. Qed.

Lemma reads_only_external {A : Type} (op : Env -> A * Env) : reads_only (external op).
Proof. intros w. unfold external. destruct (op (env w)). repeat split. Qed.

Lemma reads_only_bind {A B : Type} (c : M Env A) (k : A -> M Env B) :
  reads_only c -> (forall a, reads_only (k a)) -> reads_only (bind c k).
Proof.
  intros Hc Hk w. unfold bind. specialize (Hc w).
  destruct (c w) as [a w1]. eapply same_store_trans; [exact Hc | apply Hk].
Qed.

Lemma reads_only_for_each {A S : Type} (body : S -> A -> M Env S) (items : list A) :
  (forall acc a, reads_only (body acc a)) ->
  forall acc, reads_only (for_each body items acc).
Proof.
  intros Hbody. induction items as [|a items IH]; intros acc; simpl.
  - apply reads_only_ret.
  - apply reads_only_bind; [apply Hbody | exact IH].
Qed.

Create HintDb reads discriminated.

Ltac reads :=
  repeat first
    [ apply reads_only_ret
    | apply reads_only_read
    | apply reads_only_external
    | apply reads_only_bind; [| intros ?]
    | apply reads_only_for_each; intros ? ?
    | progress cbv zeta
    | match goal with
      | |- reads_only (if ?b then _ else _) => destruct b
      | |- reads_only (match ?x with _ => _ end) => destruct x
      end
    | solve [auto with reads] ].

Lemma get_messages_in_window_reads (channel : str) (m : Z) :
  reads_only (get_messages_in_window channel m).
Proof. unfold get_messages_in_window. reads. Qed.
Hint Resolve get_messages_in_window_reads : reads.

Lemma get_buffer_from_db_reads (channel : str) :
  reads_only (get_buffer_from_db settings channel).
Proof. unfold get_buffer_from_db. reads. Qed.
Hint Resolve get_buffer_from_db_reads : reads.

Lemma should_summarize_reads (channel : str) :
  reads_only (should_summarize settings channel).
Proof. unfold should_summarize. reads. Qed.
Hint Resolve should_summarize_reads : reads.

Lemma get_suggestions_today_reads : reads_only get_suggestions_today.
Proof. unfold get_suggestions_today. reads. Qed.
Hint Resolve get_suggestions_today_reads : reads.

Lemma get_messages_for_summary_reads (channel : str) :
  reads_only (get_messages_for_summary settings channel).
Proof. unfold get_messages_for_summary. reads. Qed.
Hint Resolve get_messages_for_summary_reads : reads.

Lemma complete_reads (p : prompt) (t : Q) (n : Z) : reads_only (complete p t n).
Proof. unfold complete. reads. Qed.
Hint Resolve complete_reads : reads.

Lemma complete_json_reads (p : prompt) (t : Q) : reads_only (complete_json p t).
Proof. unfold complete_json. reads. Qed.
Hint Resolve complete_json_reads : reads.

Lemma summarize_conversation_reads (msgs : list SlackMessage) :
  reads_only (summarize_conversation msgs).
Proof. unfold summarize_conversation. reads. Qed.
Hint Resolve summarize_conversation_reads : reads.

Lemma detect_post_worthy_reads (s : ConversationSummary) :
  reads_only (detect_post_worthy s).
Proof. unfold detect_post_worthy. reads. Qed.
Hint Resolve detect_post_worthy_reads : reads.

Lemma check_duplicate_reads (insight : str) (existing : list str) :
  reads_only (check_duplicate insight existing).
Proof. unfold check_duplicate. reads. Qed.
Hint Resolve check_duplicate_reads : reads.

Lemma check_sensitivity_reads (insight summary_text : str) :
  reads_only (check_sensitivity insight summary_text).
Proof. unfold check_sensitivity. reads. Qed.
Hint Resolve check_sensitivity_reads : reads.

Lemma filter_idea_reads (summary_text : str) (acc : list str * list PostIdea)
    (idea : PostIdea) : reads_only (filter_idea summary_text acc idea).
Proof. unfold filter_idea. reads. Qed.
Hint Resolve filter_idea_reads : reads.

Lemma filter_ideas_reads (candidates : list PostIdea) (summary_text : str) :
  reads_only (filter_ideas candidates summary_text).
Proof. unfold filter_ideas, get_saved_suggestions. reads. Qed.
Hint Resolve filter_ideas_reads : reads.

Lemma generate_content_reads (idea : PostIdea) (summary_text : str) :
  reads_only (generate_content idea summary_text).
Proof.
  unfold generate_content, generate_linkedin_post, generate_x_post. reads.
Qed.
Hint Resolve generate_content_reads : reads.

Lemma rewrite_linkedin_reads (original insight summary_text : str) :
  reads_only (rewrite_linkedin original insight summary_text).
Proof. unfold rewrite_linkedin. reads. Qed.
Hint Resolve rewrite_linkedin_reads : reads.

Lemma rewrite_x_reads (original insight : str) :
  reads_only (rewrite_x original insight).
Proof. unfold rewrite_x. reads. Qed.
Hint Resolve rewrite_x_reads : reads.

(* ===================================================================== *)
(** * Readiness of a buffer (buffer.py) *)
(* ===================================================================== *)

Lemma order_by_length {A : Type} (key : A -> Z) (l : list A) :
  length (order_by key l) = length l.
Proof.
  assert (Hins : forall x l', length (insert_by key x l') = S (length l')).
  { intros x l'. induction l' as [|y l' IH]; simpl; [reflexivity|].
    destruct (key x <=? key y); simpl; congruence. }
  unfold order_by. induction l as [|x l IH]; simpl; [reflexivity|].
  rewrite Hins, IH. reflexivity.
Qed.

Lemma get_buffer_from_db_length (channel : str) (w : World Env) :
  length (get_buffer_from_db settings channel w).1 = length (durable_window settings channel w).
Proof.
  unfold get_buffer_from_db, get_messages_in_window, durable_window,
    bind, external, read, ret.
  destruct (utcnow (env w)) as [now e]. simpl.
  rewrite length_map, order_by_length. reflexivity.
Qed.

(** C6. With a non-empty in-process buffer, [should_summarize] answers true
    exactly when the buffer holds the minimum count of messages, or the
    window has been open for the configured time and the buffer holds at
    least 3 messages. In particular a buffer of 2 messages is not ready,
    however long the window has been open (65 minutes included), whenever
    the minimum count is above 2. *)
Theorem should_summarize_buffered (channel : str) (w : World Env)
    (buffer : MessageBuffer) :
  _buffers w !! channel = Some buffer ->
  buf_messages buffer <> [] ->
  let count := Z.of_nat (length (buf_messages buffer)) in
  let window_elapsed := (utcnow (env w)).1 - started_at buffer in
  ((should_summarize settings channel w).1 = true <->
     min_messages_for_summary settings <= count
     \/ (minutes (buffer_window_minutes settings) <= window_elapsed /\ 3 <= count))
  /\ (count = 2 -> 2 < min_messages_for_summary settings ->
      (should_summarize settings channel w).1 = false).
Proof.
  intros Hbuf Hne count window_elapsed.
  assert (Hiff : (should_summarize settings channel w).1 = true <->
     min_messages_for_summary settings <= count
     \/ (minutes (buffer_window_minutes settings) <= window_elapsed /\ 3 <= count)).
  { unfold should_summarize, bind, read, ret, external. rewrite Hbuf.
    destruct (buf_messages buffer) as [|m ms] eqn:Hms; [congruence|].
    fold count.
    destruct (Z.leb_spec (min_messages_for_summary settings) count) as [Hc|Hc]; simpl.
    { split; [left; exact Hc | reflexivity]. }
    subst window_elapsed.
    destruct (utcnow (env w)) as [now e]. simpl.
    destruct (Z.leb_spec (minutes (buffer_window_minutes settings))
                (now - started_at buffer)) as [Ht|Ht];
      [destruct (Z.leb_spec 3 count) as [H3|H3]|]; simpl;
      split; try reflexivity; try discriminate; try lia; intros _; right; lia. }
  split; [exact Hiff|].
  intros H2 Hmin. apply not_true_is_false. rewrite Hiff. lia.
Qed.

(** C7. With an empty in-process cache (no buffer for the channel, or one
    without messages) [should_summarize] answers true exactly when the
    durable query of the current window returns the minimum count of
    messages; nothing else is looked at, the elapsed time included. *)
Theorem should_summarize_empty_cache (channel : str) (w : World Env) :
  (_buffers w !! channel = None
   \/ exists buffer, _buffers w !! channel = Some buffer /\ buf_messages buffer = []) ->
  (should_summarize settings channel w).1 = true <->
  min_messages_for_summary settings <= Z.of_nat (length (durable_window settings channel w)).
Proof.
  intros Hcache. rewrite <- get_buffer_from_db_length.
  assert (Hdb : (should_summarize settings channel w).1 =
                (min_messages_for_summary settings
                   <=? Z.of_nat (length (get_buffer_from_db settings channel w).1))).
  { unfold should_summarize at 1. unfold bind at 1. unfold read at 1.
    destruct Hcache as [-> | (buffer & -> & ->)]; unfold bind;
      destruct (get_buffer_from_db settings channel w) as [ms w1]; simpl;
      destruct (_ <=? _); reflexivity. }
  rewrite Hdb. apply Z.leb_le.
Qed.

(* ===================================================================== *)
(** * Skipped channels (pipeline.py) *)
(* ===================================================================== *)

(** A skipped channel gives no result and only talks to the outside. *)
Lemma skipped_channel (channel : str) (w : World Env) :
  let w1 := (get_buffer_from_db settings channel w).2 in
  let ready := (should_summarize settings channel w1).1 in
  let w2 := (should_summarize settings channel w1).2 in
  let suggestions_today := (get_suggestions_today w2).1 in
  ready = false
  \/ max_suggestions_per_day settings <= Z.of_nat (length suggestions_today) ->
  (process_channel settings channel w).1 = []
  /\ same_store w (process_channel settings channel w).2.
Proof.
  intros w1 ready w2 suggestions_today Hskip.
  assert (H12 : same_store w w2).
  { eapply same_store_trans;
      [apply (get_buffer_from_db_reads channel w) | apply (should_summarize_reads channel w1)]. }
  assert (H23 : same_store w (get_suggestions_today w2).2).
  { eapply same_store_trans; [exact H12 | apply get_suggestions_today_reads]. }
  unfold process_channel. rewrite bind_run. fold w1.
  rewrite bind_run. fold ready w2.
  destruct ready eqn:Hready; simpl; [| exact (conj eq_refl H12)].
  destruct Hskip as [Hno | Hquota]; [discriminate|].
  rewrite bind_run. fold suggestions_today.
  apply Z.leb_le in Hquota. rewrite Hquota. simpl. exact (conj eq_refl H23).
Qed.

(** C10. A channel that is skipped, because it is not ready or because the
    suggestions persisted today already reach the daily quota, yields no
    result and changes nothing: the tables of the store (no summary, no
    suggestion), the in-process buffers (messages and window start) and the
    message map are as before, so the messages stay available to a later
    pass. Readiness and the count of today are the ones the pass itself
    computes. *)
Theorem skipped_channel_changes_nothing (channel : str) (w : World Env) :
  let w1 := (get_buffer_from_db settings channel w).2 in
  let ready := (should_summarize settings channel w1).1 in
  let w2 := (should_summarize settings channel w1).2 in
  let suggestions_today := (get_suggestions_today w2).1 in
  ready = false
  \/ max_suggestions_per_day settings <= Z.of_nat (length suggestions_today) ->
  (process_channel settings channel w).1 = []
  /\ db (process_channel settings channel w).2 = db w
  /\ _buffers (process_channel settings channel w).2 = _buffers w
  /\ _suggestion_message_map (process_channel settings channel w).2
     = _suggestion_message_map w.
Proof.
  intros w1 ready w2 suggestions_today Hskip.
  destruct (skipped_channel channel w Hskip) as (Hnone & Hdb & Hbuf & Hmap).
  repeat split; assumption.
Qed.

(* ===================================================================== *)
(** * Filtering ideas (detector.py) *)
(* ===================================================================== *)

Lemma for_each_cons {A S : Type} (body : S -> A -> M Env S) (a : A)
    (rest : list A) (acc : S) (w : World Env) :
  for_each body (a :: rest) acc w
  = for_each body rest (body acc a w).1 (body acc a w).2.
Proof. simpl. apply bind_run. Qed.

Lemma for_each_app {A S : Type} (body : S -> A -> M Env S) (pre post : list A)
    (acc : S) (w : World Env) :
  for_each body (pre ++ post) acc w
  = for_each body post (for_each body pre acc w).1 (for_each body pre acc w).2.
Proof.
  revert acc w. induction pre as [|a pre IH]; intros acc w; [reflexivity|].
  rewrite <- app_comm_cons, !for_each_cons. apply IH.
Qed.

Lemma filter_ideas_run (candidates : list PostIdea) (summary_text : str)
    (w : World Env) :
  (filter_ideas candidates summary_text w).1
  = (for_each (filter_idea summary_text) candidates
       (map sg_insight (get_saved_suggestions 20 w).1, []) w).1.2.
Proof. unfold filter_ideas. rewrite !bind_run. reflexivity. Qed.

(** A turn of the loop leaves the two lists alone or appends the idea to
    both. *)
Lemma filter_idea_cases (summary_text : str) (acc : list str * list PostIdea)
    (idea : PostIdea) (w : World Env) :
  (filter_idea summary_text acc idea w).1 = acc
  \/ (filter_idea summary_text acc idea w).1
     = (acc.1 ++ [core_insight idea], acc.2 ++ [idea]).
Proof.
  unfold filter_idea. cbv zeta. rewrite bind_run.
  destruct (truthy _); [left; reflexivity|].
  rewrite bind_run. destruct (truthy _); [left | right]; reflexivity.
Qed.

(** What the loop returns was in [filtered] or is one of the ideas. *)
Lemma filter_loop_from (summary_text : str) (todo : list PostIdea)
    (acc : list str * list PostIdea) (w : World Env) (x : PostIdea) :
  x ∈ (for_each (filter_idea summary_text) todo acc w).1.2 -> x ∈ acc.2 \/ x ∈ todo.
Proof.
  revert acc w. induction todo as [|idea todo IH]; intros acc w; [left; assumption|].
  rewrite for_each_cons. intros Hx. apply IH in Hx as [Hx | Hx].
  - destruct (filter_idea_cases summary_text acc idea w) as [Hc | Hc];
      rewrite Hc in Hx; simpl in Hx.
    + left; exact Hx.
    + apply elem_of_app in Hx as [Hx | Hx]; [left; exact Hx|].
      apply list_elem_of_singleton in Hx. subst x. right. left.
  - right. right. exact Hx.
Qed.

(** The loop never takes an idea back. *)
Lemma filter_loop_keeps (summary_text : str) (todo : list PostIdea)
    (acc : list str * list PostIdea) (w : World Env) (x : PostIdea) :
  x ∈ acc.2 -> x ∈ (for_each (filter_idea summary_text) todo acc w).1.2.
Proof.
  revert acc w. induction todo as [|idea todo IH]; intros acc w Hx; [exact Hx|].
  rewrite for_each_cons. apply IH.
  destruct (filter_idea_cases summary_text acc idea w) as [Hc | Hc];
    rewrite Hc; simpl; [exact Hx | apply elem_of_app; left; exact Hx].
Qed.

Lemma check_sensitivity_failure (insight summary_text : str) (w : World Env) :
  (complete_json (SENSITIVITY_PROMPT insight summary_text) (2 # 10) w).1 = None ->
  (check_sensitivity insight summary_text w).1 = JBool true.
Proof. intros Hfail. unfold check_sensitivity. rewrite bind_run, Hfail. reflexivity. Qed.

Lemma check_duplicate_failure (insight : str) (existing : list str) (w : World Env) :
  (complete_json (DEDUPLICATION_PROMPT (bullet_list existing) insight) (2 # 10) w).1 = None ->
  (check_duplicate insight existing w).1 = JBool false.
Proof.
  intros Hfail. unfold check_duplicate. destruct existing; [reflexivity|].
  rewrite bind_run, Hfail. reflexivity.
Qed.

(** C5. Take the loop of [filter_ideas] when it reaches an idea: [before]
    is the state of the loop after the ideas in front of it. If the model
    call of the sensitivity check of that idea fails, [check_sensitivity]
    returns [True], the turn leaves both lists of the loop as they were, and
    the idea (when the candidates hold it once) is not in what
    [filter_ideas] returns. *)
Theorem sensitivity_failure_excludes (summary_text : str)
    (pre post : list PostIdea) (idea : PostIdea) (w : World Env) :
  let existing := map sg_insight (get_saved_suggestions 20 w).1 in
  let before := for_each (filter_idea summary_text) pre (existing, []) w in
  let w_dup := (check_duplicate (core_insight idea) before.1.1 before.2).2 in
  (complete_json (SENSITIVITY_PROMPT (core_insight idea) summary_text) (2 # 10) w_dup).1
    = None ->
  (check_sensitivity (core_insight idea) summary_text w_dup).1 = JBool true
  /\ (filter_idea summary_text before.1 idea before.2).1 = before.1
  /\ (idea ∉ pre -> idea ∉ post ->
      idea ∉ (filter_ideas (pre ++ idea :: post) summary_text w).1).
Proof.
  intros existing before w_dup Hfail.
  pose proof (check_sensitivity_failure _ _ _ Hfail) as Hsens.
  assert (Hturn : (filter_idea summary_text before.1 idea before.2).1 = before.1).
  { unfold filter_idea. cbv zeta. rewrite bind_run.
    destruct (truthy _); [reflexivity|].
    rewrite bind_run. fold w_dup. rewrite Hsens. reflexivity. }
  repeat split; [exact Hsens | exact Hturn |].
  intros Hpre Hpost Hin.
  rewrite filter_ideas_run, for_each_app, for_each_cons in Hin.
  fold existing before in Hin.
  apply filter_loop_from in Hin as [Hin | Hin]; [| exact (Hpost Hin)].
  rewrite Hturn in Hin. apply filter_loop_from in Hin as [Hin | Hin].
  - simpl in Hin. inversion Hin.
  - exact (Hpre Hin).
Qed.

(** C8. [check_duplicate] with no existing insight returns [False] and
    leaves the world as it was (no model call); when its model call fails it
    returns [False]. So in the loop of [filter_ideas], an idea whose
    duplicate check fails goes on to the sensitivity check, and is in what
    [filter_ideas] returns as soon as that check does not call it
    sensitive. *)
Theorem duplicate_check_fails_open (summary_text : str)
    (pre post : list PostIdea) (idea : PostIdea) (w : World Env) :
  (forall insight w', check_duplicate insight [] w' = (JBool false, w'))
  /\ (forall insight existing w',
        (complete_json (DEDUPLICATION_PROMPT (bullet_list existing) insight)
           (2 # 10) w').1 = None ->
        (check_duplicate insight existing w').1 = JBool false)
  /\ (let existing := map sg_insight (get_saved_suggestions 20 w).1 in
      let before := for_each (filter_idea summary_text) pre (existing, []) w in
      let w_dup := (check_duplicate (core_insight idea) before.1.1 before.2).2 in
      (complete_json (DEDUPLICATION_PROMPT (bullet_list before.1.1) (core_insight idea))
         (2 # 10) before.2).1 = None ->
      truthy (check_sensitivity (core_insight idea) summary_text w_dup).1 = false ->
      idea ∈ (filter_ideas (pre ++ idea :: post) summary_text w).1).
Proof.
  split; [reflexivity|]. split; [intros; apply check_duplicate_failure; assumption|].
  intros existing before w_dup Hfail Hsens.
  rewrite filter_ideas_run, for_each_app, for_each_cons.
  fold existing before. apply filter_loop_keeps.
  unfold filter_idea. cbv zeta. rewrite bind_run.
  rewrite (check_duplicate_failure _ _ _ Hfail). simpl.
  rewrite bind_run. fold w_dup. rewrite Hsens. simpl.
  apply elem_of_app. right. left.
Qed.

(* ===================================================================== *)
(** * Hashtags in a short-form draft (generator.py) *)
(* ===================================================================== *)

(** C3, where the code departs from it. The clean-up of a short-form draft
    can return a hashtag token: its pattern [#\w+\s*] also takes the white
    space after a tag, which joins a [#] standing before the tag to the word
    after it. From ["##a b"] it returns ["#b"]. The long-form clean-up,
    whose pattern is [#\w+], returns no hashtag, on this draft or any other
    ([clean_linkedin_no_hashtag]). *)
Theorem clean_x_draft_keeps_a_hashtag :
  _clean_x_draft (lit "##a b") = lit "#b"
  /\ has_hashtag (_clean_x_draft (lit "##a b")) = true
  /\ has_hashtag (_clean_linkedin_draft (lit "##a b")) = false.
Proof. repeat split. Qed.

(* ===================================================================== *)
(** * The length of a short-form draft (generator.py) *)
(* ===================================================================== *)

Lemma clean_x_length (raw : str) : (length (_clean_x_draft raw) <= 280)%nat.
Proof.
  unfold _clean_x_draft. etransitivity; [apply strip_length|].
  destruct (280 <? length (emoji_sub (sub_hashtag_space raw)))%nat eqn:Hlong.
  - apply Nat.ltb_lt in Hlong. rewrite length_app, length_take.
    change (length (lit "...")) with 3%nat. lia.
  - apply Nat.ltb_ge in Hlong. exact Hlong.
Qed.

Lemma generate_x_post_length (idea : PostIdea) (w : World Env) :
  (length (generate_x_post idea w).1 <= 280)%nat.
Proof.
  unfold generate_x_post. rewrite bind_run.
  destruct (complete _ _ _ w).1; simpl; [apply clean_x_length | lia].
Qed.

(* ===================================================================== *)
(** * Small facts about the pipeline and the clock *)
(* ===================================================================== *)

Lemma today_start_le (t : datetime) : today_start_of t <= t.
Proof.
  unfold today_start_of.
  pose proof (Z.mod_pos_bound t 86400000000 ltac:(lia)). lia.
Qed.

Lemma slice_to_take {A : Type} (n : Z) (l : list A) :
  0 <= n -> slice_to n l = take (Z.to_nat n) l.
Proof. intros Hn. unfold slice_to. apply Z.leb_le in Hn. rewrite Hn. reflexivity. Qed.

Lemma clear_buffer_db (channel : str) (w : World Env) :
  db (clear_buffer channel w).2 = db w.
Proof.
  unfold clear_buffer. rewrite bind_run. simpl.
  destruct (_buffers w !! channel); [|reflexivity].
  rewrite bind_run. unfold external. simpl. destruct (utcnow (env w)). reflexivity.
Qed.

Lemma save_summary_suggestions (channel summary_text : str)
    (metadata : SummaryMetadata) (w : World Env) :
  suggestions (db (save_summary channel summary_text metadata w).2)
  = suggestions (db w).
Proof.
  unfold save_summary, bind, external, write_db, ret. simpl.
  destruct (new_id (env w)) as [i e1]. simpl.
  destruct (utcnow e1) as [now e2]. reflexivity.
Qed.

Lemma reads_only_db {A : Type} (c : M Env A) (w : World Env) :
  reads_only c -> db (c w).2 = db w.
Proof. intros Hc. apply (Hc w). Qed.

(* ===================================================================== *)
(** * Feedback on suggestions (slack_handler.py) *)
(* ===================================================================== *)

Arguments is_one_of : simpl never.
Arguments is_empty : simpl never.
Arguments lit : simpl never.

Lemma set_status_id (suggestion_id : str) (status : SuggestionStatus)
    (row : SuggestionRow) :
  sg_id (set_status suggestion_id status row) = sg_id row.
Proof. unfold set_status. destruct (bool_decide _); reflexivity. Qed.

Lemma set_status_twice (suggestion_id : str) (status : SuggestionStatus)
    (rows : list SuggestionRow) :
  map (set_status suggestion_id status) (map (set_status suggestion_id status) rows)
  = map (set_status suggestion_id status) rows.
Proof.
  rewrite map_map. apply map_ext. intros row.
  unfold set_status at 1. rewrite set_status_id.
  unfold set_status. destruct (bool_decide _); reflexivity.
Qed.

(** A row of another id, or of an id no row has, is not touched. *)
Lemma set_status_unknown (suggestion_id : str) (status : SuggestionStatus)
    (rows : list SuggestionRow) :
  Forall (fun r => sg_id r <> suggestion_id) rows ->
  map (set_status suggestion_id status) rows = rows.
Proof.
  induction 1 as [|row rows Hrow Hrows IH]; simpl; [reflexivity|].
  rewrite IH. unfold set_status. rewrite bool_decide_eq_false_2 by exact Hrow.
  reflexivity.
Qed.

Lemma one_name (r : str) (names : list string) :
  is_one_of r names = true -> exists n, In n names /\ r = lit n.
Proof.
  unfold is_one_of. rewrite existsb_exists. intros (n & Hn & Hr).
  exists n. split; [exact Hn | exact (bool_decide_eq_true_1 _ Hr)].
Qed.

Lemma update_suggestion_status_db (suggestion_id : str) (status : SuggestionStatus)
    (w : World Env) :
  (update_suggestion_status suggestion_id status w).2
  = set_db (with_status_writes (status_writes (db w) ++ [(suggestion_id, status)])
              (with_suggestions
                 (map (set_status suggestion_id status) (suggestions (db w))) (db w))) w.
Proof. reflexivity. Qed.

(** The world after a save or ignore reaction on a message that is mapped
    to a suggestion: one status update, and nothing else but the outside. *)
Lemma status_reaction (event : ReactionEvent) (w : World Env)
    (message_ts suggestion_id : str) (status : SuggestionStatus) :
  item_ts event = Some message_ts ->
  _suggestion_message_map w !! message_ts = Some suggestion_id ->
  suggestion_id <> [] ->
  status = SAVED /\ is_one_of (reaction event) ["+1"; "thumbsup"]%string = true
  \/ status = IGNORED
     /\ is_one_of (reaction event) ["x"; "negative_squared_cross_mark"]%string = true ->
  let w' := (_handle_reaction event w).2 in
  status_writes (db w') = status_writes (db w) ++ [(suggestion_id, status)]
  /\ suggestions (db w')
     = map (set_status suggestion_id status) (suggestions (db w))
  /\ _suggestion_message_map w' = _suggestion_message_map w.
Proof.
  intros Hts Hmap Hid Hreaction.
  unfold _handle_reaction. rewrite bind_run. unfold read at 1 2. simpl.
  rewrite Hts. simpl. rewrite Hmap.
  destruct suggestion_id as [|c sid]; [congruence|]. simpl.
  destruct Hreaction as [[-> Hr] | [-> Hr]].
  - rewrite Hr. rewrite !bind_run, update_suggestion_status_db. simpl.
    unfold external. simpl. destruct (chat_postMessage _ _ _ _). repeat split.
  - apply one_name in Hr as (n & Hn & Hr). rewrite Hr.
    destruct Hn as [<- | [<- | []]]; repeat split.
Qed.

(** C1, as the code has it. A reaction on a message that is mapped to no
    suggestion is a no-op: the world stays as it was, nothing is written or
    raised. A save or ignore reaction on a mapped message sends one status
    update to the store whatever the status of the suggestion is, terminal
    or not, and whether or not a row has that id (then no row changes);
    nothing raises. So a save applied twice sends two updates of [saved];
    the second leaves the rows as the first left them. *)
Theorem feedback_status_writes (event : ReactionEvent) (w : World Env) :
  ((item_ts event ≫= fun ts => _suggestion_message_map w !! ts) = None ->
   _handle_reaction event w = (tt, w))
  /\ forall (message_ts suggestion_id : str) (status : SuggestionStatus),
       item_ts event = Some message_ts ->
       _suggestion_message_map w !! message_ts = Some suggestion_id ->
       suggestion_id <> [] ->
       status = SAVED /\ is_one_of (reaction event) ["+1"; "thumbsup"]%string = true
       \/ status = IGNORED
          /\ is_one_of (reaction event) ["x"; "negative_squared_cross_mark"]%string
             = true ->
       let once := (_handle_reaction event w).2 in
       let twice := (_handle_reaction event once).2 in
       status_writes (db once) = status_writes (db w) ++ [(suggestion_id, status)]
       /\ suggestions (db once)
          = map (set_status suggestion_id status) (suggestions (db w))
       /\ (Forall (fun r => sg_id r <> suggestion_id) (suggestions (db w)) ->
           suggestions (db once) = suggestions (db w))
       /\ status_writes (db twice)
          = status_writes (db w) ++ [(suggestion_id, status); (suggestion_id, status)]
       /\ suggestions (db twice) = suggestions (db once).
Proof.
  split.
  { intros Hnone. unfold _handle_reaction. rewrite bind_run. unfold read. simpl.
    rewrite Hnone. destruct (item_ts event); reflexivity. }
  intros message_ts suggestion_id status Hts Hmap Hid Hreaction once twice.
  destruct (status_reaction event w _ _ _ Hts Hmap Hid Hreaction)
    as (Hlog & Hrows & Hkeep).
  fold once in Hlog, Hrows, Hkeep.
  rewrite <- Hkeep in Hmap.
  destruct (status_reaction event once _ _ _ Hts Hmap Hid Hreaction)
    as (Hlog2 & Hrows2 & _).
  fold twice in Hlog2, Hrows2.
  split; [exact Hlog|]. split; [exact Hrows|].
  split; [intros Hnone; rewrite Hrows; apply set_status_unknown, Hnone|].
  split.
  - rewrite Hlog2, Hlog, <- app_assoc. reflexivity.
  - rewrite Hrows2, Hrows. apply set_status_twice.
Qed.

Lemma send_suggestion_store (channel : option str)
    (insight why linkedin x suggestion_id : str) (w : World Env) :
  let w' := (send_suggestion channel insight why linkedin x suggestion_id w).2 in
  db w' = db w /\ _buffers w' = _buffers w
  /\ (_suggestion_message_map w' = _suggestion_message_map w
      \/ exists new_ts,
           _suggestion_message_map w'
           = <[new_ts := suggestion_id]> (_suggestion_message_map w)).
Proof.
  unfold send_suggestion. cbv zeta. rewrite bind_run. unfold external. simpl.
  destruct (chat_postMessage _ _ _ _) as [[[ts|]|] e]; simpl;
    try (repeat split; left; reflexivity).
  destruct (is_empty ts); simpl; repeat split; [left | right; exists ts]; reflexivity.
Qed.

Lemma send_suggestion_outcome (channel : option str)
    (insight why linkedin x suggestion_id : str) (w : World Env) :
  let delivery :=
    chat_postMessage channel None
      (_format_suggestion_message insight why linkedin x) (env w) in
  let sent := (send_suggestion channel insight why linkedin x suggestion_id w).2 in
  db sent = db w
  /\ _buffers sent = _buffers w
  /\ env sent = delivery.2
  /\ (forall new_ts, delivery.1 = Some (Some new_ts) -> new_ts <> [] ->
        _suggestion_message_map sent
        = <[new_ts := suggestion_id]> (_suggestion_message_map w))
  /\ ((forall new_ts, delivery.1 = Some (Some new_ts) -> new_ts = []) ->
      _suggestion_message_map sent = _suggestion_message_map w).
Proof.
  unfold send_suggestion. cbv zeta. rewrite bind_run. unfold external. simpl.
  destruct (chat_postMessage _ _ _ _) as [[[ts|]|] e]; simpl;
    try (repeat (split; [reflexivity|]); split; [intros ts'; discriminate | reflexivity]).
  destruct ts as [|c ts]; simpl.
  - repeat (split; [reflexivity|]). split; [|reflexivity].
    intros ts' [= <-] Hne. congruence.
  - repeat (split; [reflexivity|]). split; [intros ts' [= <-] _; reflexivity|].
    intros Hnone. specialize (Hnone (c :: ts) eq_refl). discriminate.
Qed.

(** What [_rewrite_suggestion] does: nothing when no row has the id;
    otherwise it asks the model for both drafts, posts the message made of
    them, and maps the posted message to the suggestion. *)
Lemma rewrite_suggestion_outcome (suggestion_id : str) (channel : option str)
    (message_ts : str) (w : World Env) :
  let w' := (_rewrite_suggestion suggestion_id channel message_ts w).2 in
  ((get_suggestion suggestion_id w).1 = None -> w' = w)
  /\ forall suggestion,
       (get_suggestion suggestion_id w).1 = Some suggestion ->
       let long := rewrite_linkedin (sg_linkedin_draft suggestion)
                     (sg_insight suggestion) [] w in
       let short := rewrite_x (sg_x_draft suggestion) (sg_insight suggestion) long.2 in
       let message :=
         _format_suggestion_message (sg_insight suggestion)
           (lit "Fresh angle on your earlier insight") long.1 short.1 in
       let delivery := chat_postMessage channel None message (env short.2) in
       db w' = db w
       /\ _buffers w' = _buffers w
       /\ env w' = delivery.2
       /\ (forall new_ts, delivery.1 = Some (Some new_ts) -> new_ts <> [] ->
             _suggestion_message_map w'
             = <[new_ts := suggestion_id]> (_suggestion_message_map w))
       /\ ((forall new_ts, delivery.1 = Some (Some new_ts) -> new_ts = []) ->
           _suggestion_message_map w' = _suggestion_message_map w).
Proof.
  cbv zeta. unfold _rewrite_suggestion. rewrite bind_run.
  assert (Hread : (get_suggestion suggestion_id w).2 = w) by reflexivity.
  rewrite Hread.
  destruct (get_suggestion suggestion_id w).1 as [found|];
    [|split; [reflexivity | discriminate]].
  split; [discriminate|].
  intros suggestion [= <-].
  rewrite !bind_run.
  pose proof (rewrite_linkedin_reads (sg_linkedin_draft found)
                (sg_insight found) [] w) as (Hd1 & Hb1 & Hm1).
  set (long := rewrite_linkedin (sg_linkedin_draft found) (sg_insight found) [] w) in *.
  pose proof (rewrite_x_reads (sg_x_draft found) (sg_insight found) long.2)
    as (Hd2 & Hb2 & Hm2).
  set (short := rewrite_x (sg_x_draft found) (sg_insight found) long.2) in *.
  destruct (send_suggestion_outcome channel (sg_insight found)
              (lit "Fresh angle on your earlier insight") long.1 short.1
              suggestion_id short.2) as (Hd3 & Hb3 & He3 & Hok & Hfail).
  split; [congruence|]. split; [congruence|]. split; [exact He3|].
  split.
  - intros new_ts Hsent Hne. rewrite (Hok new_ts Hsent Hne). congruence.
  - intros Hnone. rewrite (Hfail Hnone). congruence.
Qed.

(** A rewrite reaction on a mapped message is a call of
    [_rewrite_suggestion]. *)
Lemma rewrite_reaction (event : ReactionEvent) (w : World Env)
    (message_ts suggestion_id : str) :
  item_ts event = Some message_ts ->
  _suggestion_message_map w !! message_ts = Some suggestion_id ->
  suggestion_id <> [] ->
  is_one_of (reaction event) ["arrows_counterclockwise"; "repeat"]%string = true ->
  _handle_reaction event w
  = _rewrite_suggestion suggestion_id (item_channel event) message_ts w.
Proof.
  intros Hts Hmap Hid Hrewrite.
  assert (Hsave : is_one_of (reaction event) ["+1"; "thumbsup"]%string = false).
  { apply not_true_is_false. intros Hsave.
    apply one_name in Hsave as (n & Hn & Hr).
    pose proof Hrewrite as Hrw. apply one_name in Hrw as (n' & Hn' & Hr').
    rewrite Hr in Hr'.
    destruct Hn as [<- | [<- | []]]; destruct Hn' as [<- | [<- | []]];
      vm_compute in Hr'; discriminate. }
  unfold _handle_reaction. rewrite bind_run. unfold read at 1 2. simpl.
  rewrite Hts. simpl. rewrite Hmap.
  destruct suggestion_id as [|c sid]; [congruence|].
  change (is_empty (c :: sid)) with false. cbv iota.
  rewrite Hsave, Hrewrite. reflexivity.
Qed.

(** C2, as the code has it. A rewrite reaction writes nothing to the store:
    no suggestion is added and no status changes, the original's included.
    On a message that is mapped to a suggestion it is not rejected either:
    when no row has the id nothing happens at all; when a row has it, the
    model is asked for a fresh long-form and a fresh short-form draft (each
    the cleaned answer, or the stored draft when the call fails), the
    message made of the two is posted to the channel of the reaction, and
    when Slack answers with a time stamp the new message is mapped to the
    id of the original suggestion. *)
Theorem rewrite_writes_nothing (event : ReactionEvent) (w : World Env) :
  is_one_of (reaction event) ["arrows_counterclockwise"; "repeat"]%string = true ->
  let w' := (_handle_reaction event w).2 in
  db w' = db w
  /\ _buffers w' = _buffers w
  /\ (_suggestion_message_map w' = _suggestion_message_map w
      \/ exists message_ts new_ts suggestion_id,
           item_ts event = Some message_ts
           /\ _suggestion_message_map w !! message_ts = Some suggestion_id
           /\ _suggestion_message_map w'
              = <[new_ts := suggestion_id]> (_suggestion_message_map w))
  /\ forall message_ts suggestion_id,
       item_ts event = Some message_ts ->
       _suggestion_message_map w !! message_ts = Some suggestion_id ->
       suggestion_id <> [] ->
       ((get_suggestion suggestion_id w).1 = None -> _handle_reaction event w = (tt, w))
       /\ forall suggestion,
            (get_suggestion suggestion_id w).1 = Some suggestion ->
            let ask_long :=
              complete (REWRITE_LINKEDIN_PROMPT (sg_linkedin_draft suggestion)
                          (sg_insight suggestion) []) (8 # 10) 1000 w in
            let long := rewrite_linkedin (sg_linkedin_draft suggestion)
                          (sg_insight suggestion) [] w in
            let ask_short :=
              complete (REWRITE_X_PROMPT (sg_x_draft suggestion)
                          (sg_insight suggestion)) (9 # 10) 100 long.2 in
            let short := rewrite_x (sg_x_draft suggestion)
                           (sg_insight suggestion) long.2 in
            let message :=
              _format_suggestion_message (sg_insight suggestion)
                (lit "Fresh angle on your earlier insight") long.1 short.1 in
            let delivery :=
              chat_postMessage (item_channel event) None message (env short.2) in
            (forall answer, ask_long.1 = Some answer ->
               long.1 = _clean_linkedin_draft answer)
            /\ (ask_long.1 = None -> long.1 = sg_linkedin_draft suggestion)
            /\ (forall answer, ask_short.1 = Some answer ->
                  short.1 = _clean_x_draft answer)
            /\ (ask_short.1 = None -> short.1 = sg_x_draft suggestion)
            /\ env long.2 = env ask_long.2
            /\ env short.2 = env ask_short.2
            /\ env w' = delivery.2
            /\ (forall new_ts, delivery.1 = Some (Some new_ts) -> new_ts <> [] ->
                  _suggestion_message_map w'
                  = <[new_ts := suggestion_id]> (_suggestion_message_map w))
            /\ ((forall new_ts, delivery.1 = Some (Some new_ts) -> new_ts = []) ->
                _suggestion_message_map w' = _suggestion_message_map w).
Proof.
  intros Hrewrite w'.
  assert (Hstore : db w' = db w /\ _buffers w' = _buffers w
            /\ (_suggestion_message_map w' = _suggestion_message_map w
                \/ exists message_ts new_ts suggestion_id,
                     item_ts event = Some message_ts
                     /\ _suggestion_message_map w !! message_ts = Some suggestion_id
                     /\ _suggestion_message_map w'
                        = <[new_ts := suggestion_id]> (_suggestion_message_map w))).
  { subst w'.
    assert (Hidle : forall w0 : World Env, w0 = w ->
              db w0 = db w /\ _buffers w0 = _buffers w
              /\ (_suggestion_message_map w0 = _suggestion_message_map w
                  \/ exists message_ts new_ts suggestion_id,
                       item_ts event = Some message_ts
                       /\ _suggestion_message_map w !! message_ts = Some suggestion_id
                       /\ _suggestion_message_map w0
                          = <[new_ts := suggestion_id]> (_suggestion_message_map w))).
    { intros w0 ->. repeat split. left. reflexivity. }
    destruct (item_ts event) as [message_ts|] eqn:Hts.
    2:{ apply Hidle. unfold _handle_reaction. rewrite bind_run. unfold read. simpl.
        rewrite Hts. reflexivity. }
    destruct (_suggestion_message_map w !! message_ts) as [suggestion_id|] eqn:Hmap.
    2:{ apply Hidle. unfold _handle_reaction. rewrite bind_run. unfold read. simpl.
        rewrite Hts. simpl. rewrite Hmap. reflexivity. }
    destruct suggestion_id as [|c sid] eqn:Hid.
    { apply Hidle. unfold _handle_reaction. rewrite bind_run. unfold read. simpl.
      rewrite Hts. simpl. rewrite Hmap. reflexivity. }
    rewrite <- Hid in Hmap.
    assert (Hne : suggestion_id <> []) by (rewrite Hid; discriminate).
    rewrite (rewrite_reaction event w _ _ Hts Hmap Hne Hrewrite).
    destruct (rewrite_suggestion_outcome suggestion_id (item_channel event)
                message_ts w) as (Hnone & Hsome).
    destruct (get_suggestion suggestion_id w).1 as [suggestion|] eqn:Hfound;
      [|apply Hidle, Hnone; reflexivity].
    destruct (Hsome suggestion eq_refl) as (Hd & Hb & _ & Hok & Hfail).
    split; [exact Hd|]. split; [exact Hb|].
    match type of Hok with
    | forall new_ts, ?d = Some (Some new_ts) -> _ =>
        destruct d as [[[|c' ts]|]|] eqn:Hdelivery
    end.
    - left. apply Hfail. intros new_ts [= <-]. reflexivity.
    - right. exists message_ts, (c' :: ts), suggestion_id.
      split; [reflexivity|]. split; [exact Hmap|].
      apply Hok; [reflexivity | discriminate].
    - left. apply Hfail. intros new_ts. discriminate.
    - left. apply Hfail. intros new_ts. discriminate. }
  destruct Hstore as (Hdb & Hbuf & Hmapped).
  split; [exact Hdb|]. split; [exact Hbuf|]. split; [exact Hmapped|].
  intros message_ts suggestion_id Hts Hmap Hne.
  assert (Hcall : _handle_reaction event w
                  = _rewrite_suggestion suggestion_id (item_channel event) message_ts w)
    by (apply rewrite_reaction; assumption).
  destruct (rewrite_suggestion_outcome suggestion_id (item_channel event)
              message_ts w) as (Hnone & Hsome).
  split.
  { intros Hgone. rewrite Hcall.
    specialize (Hnone Hgone).
    destruct (_rewrite_suggestion suggestion_id (item_channel event) message_ts w)
      as [[] w0]. simpl in Hnone. rewrite Hnone. reflexivity. }
  intros suggestion Hfound ask_long long ask_short short message delivery.
  destruct (Hsome suggestion Hfound) as (_ & _ & Henv & Hok & Hfail).
  fold long short message delivery in Henv, Hok, Hfail.
  assert (Hw' : w' = (_rewrite_suggestion suggestion_id (item_channel event)
                        message_ts w).2) by (subst w'; rewrite Hcall; reflexivity).
  rewrite <- Hw' in Henv, Hok, Hfail.
  assert (Hlong : long = (from_option _clean_linkedin_draft
                            (sg_linkedin_draft suggestion) ask_long.1, ask_long.2)).
  { subst long ask_long. unfold rewrite_linkedin. cbv zeta. rewrite bind_run.
    reflexivity. }
  assert (Hshort : short = (from_option _clean_x_draft
                              (sg_x_draft suggestion) ask_short.1, ask_short.2)).
  { subst short ask_short. unfold rewrite_x. cbv zeta. rewrite bind_run.
    reflexivity. }
  split; [intros answer Hanswer; rewrite Hlong, Hanswer; reflexivity|].
  split; [intros Hfailed; rewrite Hlong, Hfailed; reflexivity|].
  split; [intros answer Hanswer; rewrite Hshort, Hanswer; reflexivity|].
  split; [intros Hfailed; rewrite Hshort, Hfailed; reflexivity|].
  split; [rewrite Hlong; reflexivity|].
  split; [rewrite Hshort; reflexivity|].
  split; [exact Henv|]. split; [exact Hok | exact Hfail].
Qed.

(* ===================================================================== *)
(** * Generated drafts (generator.py) *)
(* ===================================================================== *)

Lemma empty_is_clean : clean_long_form [] /\ clean_short_form [].
Proof. repeat split. Qed.

Lemma generate_linkedin_post_clean (idea : PostIdea) (summary_text : str)
    (w : World Env) :
  clean_long_form (generate_linkedin_post idea summary_text w).1.
Proof.
  unfold generate_linkedin_post. rewrite bind_run.
  destruct (complete _ _ _ w).1; simpl;
    [apply clean_linkedin_shape | apply empty_is_clean].
Qed.

Lemma generate_x_post_clean (idea : PostIdea) (w : World Env) :
  clean_short_form (generate_x_post idea w).1.
Proof.
  unfold generate_x_post. rewrite bind_run.
  destruct (complete _ _ _ w).1; simpl;
    [apply clean_x_shape | apply empty_is_clean].
Qed.

(** X2. Every long-form draft is clean: [generate_linkedin_post] returns a
    cleaned draft or, when the model call fails, the empty string;
    [rewrite_linkedin] returns a cleaned draft or, when the model call
    fails, the original draft as it is. *)
Theorem linkedin_drafts_are_clean (idea : PostIdea)
    (original insight summary_text : str) (w : World Env) :
  clean_long_form (generate_linkedin_post idea summary_text w).1
  /\ ((complete (REWRITE_LINKEDIN_PROMPT original insight summary_text)
         (8 # 10) 1000 w).1 = None ->
      (rewrite_linkedin original insight summary_text w).1 = original)
  /\ ((complete (REWRITE_LINKEDIN_PROMPT original insight summary_text)
         (8 # 10) 1000 w).1 <> None ->
      clean_long_form (rewrite_linkedin original insight summary_text w).1)
  /\ (clean_long_form original ->
      clean_long_form (rewrite_linkedin original insight summary_text w).1).
Proof.
  split; [apply generate_linkedin_post_clean|].
  unfold rewrite_linkedin. rewrite !bind_run.
  destruct (complete _ _ _ w).1; simpl.
  - split; [discriminate|]. split; intros _; apply clean_linkedin_shape.
  - split; [reflexivity|]. split; [congruence | auto].
Qed.

(** X3. Every short-form draft is free of emoji-class characters and of white
    space at its ends, in the same three cases. *)
Theorem x_drafts_are_clean (idea : PostIdea) (original insight : str)
    (w : World Env) :
  clean_short_form (generate_x_post idea w).1
  /\ ((complete (REWRITE_X_PROMPT original insight) (9 # 10) 100 w).1 = None ->
      (rewrite_x original insight w).1 = original)
  /\ ((complete (REWRITE_X_PROMPT original insight) (9 # 10) 100 w).1 <> None ->
      clean_short_form (rewrite_x original insight w).1)
  /\ (clean_short_form original ->
      clean_short_form (rewrite_x original insight w).1).
Proof.
  split; [apply generate_x_post_clean|].
  unfold rewrite_x. rewrite !bind_run.
  destruct (complete _ _ _ w).1; simpl.
  - split; [discriminate|]. split; intros _; apply clean_x_shape.
  - split; [reflexivity|]. split; [congruence | auto].
Qed.

(* ===================================================================== *)
(** * What a pass leaves in the store (pipeline.py) *)
(* ===================================================================== *)

Lemma grown_nothing (d : Database) : grown [] [] d = d.
Proof. destruct d. unfold grown, with_suggestions, with_summaries. simpl.
  rewrite !app_nil_r. reflexivity. Qed.

Lemma grown_grown (r1 r2 : list SummaryRow) (g1 g2 : list SuggestionRow)
    (d : Database) :
  grown r2 g2 (grown r1 g1 d) = grown (r1 ++ r2) (g1 ++ g2) d.
Proof.
  unfold grown, with_suggestions, with_summaries. simpl.
  rewrite !app_assoc. reflexivity.
Qed.

Lemma clear_buffer_outcome (channel : str) (w : World Env) :
  db (clear_buffer channel w).2 = db w
  /\ _suggestion_message_map (clear_buffer channel w).2 = _suggestion_message_map w
  /\ _buffers (clear_buffer channel w).2
     = reset_buffer channel (utcnow (env w)).1 (_buffers w).
Proof.
  unfold clear_buffer, reset_buffer. rewrite bind_run. simpl.
  destruct (_buffers w !! channel); [|repeat split].
  rewrite bind_run. unfold external. simpl. destruct (utcnow (env w)). repeat split.
Qed.

Lemma save_summary_outcome (channel summary_text : str)
    (metadata : SummaryMetadata) (w : World Env) :
  let out := save_summary channel summary_text metadata w in
  db out.2 = grown [out.1] [] (db w)
  /\ _buffers out.2 = _buffers w
  /\ _suggestion_message_map out.2 = _suggestion_message_map w
  /\ sr_channel_id out.1 = channel
  /\ sr_summary out.1 = summary_text
  /\ sr_metadata out.1 = metadata.
Proof.
  unfold save_summary, bind, external, write_db, ret. simpl.
  destruct (new_id (env w)) as [i e1]. simpl.
  destruct (utcnow e1) as [now e2]. simpl.
  unfold grown, with_suggestions, with_summaries. simpl. rewrite app_nil_r.
  repeat split.
Qed.

Lemma save_suggestion_outcome (content : GeneratedContent) (summary_id : str)
    (w : World Env) :
  let out := save_suggestion content summary_id w in
  db out.2 = grown [] [out.1] (db w)
  /\ _buffers out.2 = _buffers w
  /\ _suggestion_message_map out.2 = _suggestion_message_map w
  /\ sg_status out.1 = PENDING
  /\ sg_summary_id out.1 = summary_id
  /\ sg_insight out.1 = gc_core_insight content
  /\ sg_linkedin_draft out.1 = linkedin_draft content
  /\ sg_x_draft out.1 = x_draft content.
Proof.
  unfold save_suggestion, db_save_suggestion, bind, external, write_db, ret. simpl.
  destruct (new_id (env w)) as [i e1]. simpl.
  destruct (utcnow e1) as [now e2]. simpl.
  unfold grown, with_suggestions, with_summaries. simpl. rewrite app_nil_r.
  repeat split.
Qed.

Lemma generate_content_clean (idea : PostIdea) (summary_text : str) (w : World Env) :
  let content := (generate_content idea summary_text w).1 in
  clean_long_form (linkedin_draft content)
  /\ clean_short_form (x_draft content)
  /\ (length (x_draft content) <= 280)%nat.
Proof.
  unfold generate_content. rewrite !bind_run. simpl.
  split; [apply generate_linkedin_post_clean|].
  split; [apply generate_x_post_clean | apply generate_x_post_length].
Qed.

Lemma is_empty_false (s : str) : is_empty s = false -> s <> [].
Proof. destruct s; [discriminate | discriminate]. Qed.

(** A turn of the generation loop adds nothing, or one suggestion made
    under the summary. *)
Lemma generate_idea_outcome (summary_text summary_id : str)
    (results : list (SuggestionRow * GeneratedContent)) (idea : PostIdea)
    (w : World Env) :
  let out := generate_idea summary_text summary_id results idea w in
  (out.1 = results /\ same_store w out.2)
  \/ (exists rc, suggestion_made summary_id rc
                 /\ gc_core_insight rc.2 = core_insight idea
                 /\ out.1 = results ++ [rc]
                 /\ db out.2 = grown [] [rc.1] (db w)
                 /\ _buffers out.2 = _buffers w
                 /\ _suggestion_message_map out.2 = _suggestion_message_map w).
Proof.
  unfold generate_idea. rewrite bind_run.
  pose proof (generate_content_clean idea summary_text w) as (Hlong & Hshort & Hlen).
  pose proof (generate_content_reads idea summary_text w) as (Hdb & Hbuf & Hmap).
  assert (Hins : gc_core_insight (generate_content idea summary_text w).1
                 = core_insight idea).
  { unfold generate_content. rewrite !bind_run. reflexivity. }
  set (content := (generate_content idea summary_text w).1) in *.
  set (w1 := (generate_content idea summary_text w).2) in *.
  destruct (is_empty (linkedin_draft content)) eqn:Hl;
    [left; simpl; repeat split; assumption|].
  destruct (is_empty (x_draft content)) eqn:Hx;
    [left; simpl; repeat split; assumption|].
  right. simpl. rewrite bind_run.
  pose proof (save_suggestion_outcome content summary_id w1)
    as (Hdb' & Hbuf' & Hmap' & Hst & Hsid & Hi & Hld & Hxd).
  exists ((save_suggestion content summary_id w1).1, content). simpl.
  split.
  { unfold suggestion_made. simpl.
    repeat split; try assumption; try apply Hlong; try apply Hshort;
      apply is_empty_false; assumption. }
  split; [exact Hins|]. split; [reflexivity|].
  split; [rewrite Hdb', Hdb; reflexivity|].
  split; congruence.
Qed.

Lemma generate_loop_outcome (summary_text summary_id : str) (todo : list PostIdea)
    (results : list (SuggestionRow * GeneratedContent)) (w : World Env) :
  let out := for_each (generate_idea summary_text summary_id) todo results w in
  exists new,
    out.1 = results ++ new
    /\ Forall (suggestion_made summary_id) new
    /\ db out.2 = grown [] (map fst new) (db w)
    /\ _buffers out.2 = _buffers w
    /\ _suggestion_message_map out.2 = _suggestion_message_map w.
Proof.
  revert results w. induction todo as [|idea todo IH]; intros results w; simpl.
  - exists []. rewrite app_nil_r, grown_nothing. repeat split. constructor.
  - rewrite bind_run.
    destruct (generate_idea_outcome summary_text summary_id results idea w)
      as [[Hres (Hdb & Hbuf & Hmap)] | (rc & Hmade & _ & Hres & Hdb & Hbuf & Hmap)];
      destruct (IH (generate_idea summary_text summary_id results idea w).1
                   (generate_idea summary_text summary_id results idea w).2)
        as (new & Hout & Hall & Hdb' & Hbuf' & Hmap').
    + exists new. split; [rewrite Hout, Hres; reflexivity|].
      split; [exact Hall|]. split; [rewrite Hdb', Hdb; reflexivity|].
      split; congruence.
    + exists (rc :: new). split; [rewrite Hout, Hres, <- app_assoc; reflexivity|].
      split; [constructor; assumption|].
      split; [rewrite Hdb', Hdb, grown_grown; reflexivity|].
      split; congruence.
Qed.

Lemma reset_buffer_twice (channel : str) (t1 t2 : datetime)
    (buffers : gmap str MessageBuffer) :
  reset_buffer channel t2 (reset_buffer channel t1 buffers)
  = reset_buffer channel t2 buffers.
Proof.
  unfold reset_buffer. destruct (buffers !! channel) eqn:Hb.
  - rewrite lookup_insert_eq. apply insert_insert_eq.
  - rewrite Hb. reflexivity.
Qed.

(** What one call of [process_channel] does to the world. *)
Lemma process_channel_outcome (channel : str) (w : World Env) :
  channel_outcome channel w (process_channel settings channel w).
Proof.
  assert (Hnone : forall w' : World Env, same_store w w' ->
            channel_outcome channel w ([], w')).
  { intros w' (Hdb & Hbuf & Hmap). exists [], 0. simpl.
    rewrite grown_nothing. repeat split; try assumption; [left; exact Hbuf | left; split; reflexivity]. }
  assert (Hcleared : forall w' : World Env, same_store w w' ->
            channel_outcome channel w ([], (clear_buffer channel w').2)).
  { intros w' (Hdb & Hbuf & Hmap).
    destruct (clear_buffer_outcome channel w') as (Hdb' & Hmap' & Hbuf').
    exists [], (utcnow (env w')).1. simpl. rewrite grown_nothing.
    repeat split; [congruence | congruence | right; congruence | left; split; reflexivity]. }
  unfold process_channel.
  rewrite bind_run.
  pose proof (get_buffer_from_db_reads channel w) as E1.
  set (w1 := (get_buffer_from_db settings channel w).2) in *.
  rewrite bind_run.
  pose proof (same_store_trans _ _ _ E1 (should_summarize_reads channel w1)) as E2.
  set (w2 := (should_summarize settings channel w1).2) in *.
  destruct (negb (should_summarize settings channel w1).1); [apply Hnone, E2|].
  rewrite bind_run.
  pose proof (same_store_trans _ _ _ E2 (get_suggestions_today_reads w2)) as E3.
  set (w3 := (get_suggestions_today w2).2) in *.
  destruct (_ <=? _); [apply Hnone, E3|].
  rewrite bind_run.
  pose proof (same_store_trans _ _ _ E3 (get_messages_for_summary_reads channel w3)) as E4.
  set (w4 := (get_messages_for_summary settings channel w3).2) in *.
  destruct (get_messages_for_summary settings channel w3).1 as [|first msgs];
    [apply Hnone, E4|].
  rewrite bind_run.
  pose proof (same_store_trans _ _ _ E4
                (summarize_conversation_reads (first :: msgs) w4)) as E5.
  set (w5 := (summarize_conversation (first :: msgs) w4).2) in *.
  destruct (summarize_conversation (first :: msgs) w4).1 as [s|];
    [|rewrite bind_run; apply Hcleared, E5].
  destruct (is_empty (summary s)) eqn:Hempty; [rewrite bind_run; apply Hcleared, E5|].
  rewrite bind_run.
  match goal with |- context [save_summary ?c ?t ?m w5] =>
    pose proof (save_summary_outcome c t m w5) as (Hdb6 & Hbuf6 & Hmap6 & Hch & Hsum & Hmeta);
    set (saved := save_summary c t m w5) in *
  end.
  rewrite bind_run.
  destruct (clear_buffer_outcome channel saved.2) as (Hdb7 & Hmap7 & Hbuf7).
  set (w7 := (clear_buffer channel saved.2).2) in *.
  rewrite bind_run.
  pose proof (detect_post_worthy_reads s w7) as (Hdb8 & Hbuf8 & Hmap8).
  set (w8 := (detect_post_worthy s w7).2) in *.
  destruct E5 as (Hdb5 & Hbuf5 & Hmap5).
  assert (Hrow : summary_made channel saved.1).
  { unfold summary_made. rewrite Hch, Hsum, Hmeta.
    split; [reflexivity|]. split; [apply is_empty_false, Hempty|].
    cbn [message_count length]. lia. }
  assert (Hfinal : forall (new : list (SuggestionRow * GeneratedContent))
                          (w' : World Env),
            Forall (suggestion_made (sr_id saved.1)) new ->
            db w' = grown [] (map fst new) (db w8) ->
            _buffers w' = _buffers w8 ->
            _suggestion_message_map w' = _suggestion_message_map w8 ->
            channel_outcome channel w (new, w')).
  { intros new w' Hall Hdb' Hbuf' Hmap'.
    exists [saved.1], (utcnow (env saved.2)).1. simpl.
    assert (Hb : _buffers w' = reset_buffer channel (utcnow (env saved.2)).1 (_buffers w))
      by congruence.
    split; [rewrite Hdb', Hdb8, Hdb7, Hdb6, Hdb5, grown_grown; reflexivity|].
    split; [congruence|]. split; [right; exact Hb|].
    right. exists saved.1. repeat split; try assumption; apply Hrow. }
  destruct (negb (is_post_worthy (detect_post_worthy s w7).1)
            || match ideas (detect_post_worthy s w7).1 with [] => true | _ => false end).
  { apply Hfinal; [constructor | symmetry; apply grown_nothing | reflexivity | reflexivity]. }
  rewrite bind_run.
  pose proof (filter_ideas_reads (ideas (detect_post_worthy s w7).1) (summary s) w8)
    as (Hdb9 & Hbuf9 & Hmap9).
  set (found := filter_ideas (ideas (detect_post_worthy s w7).1) (summary s) w8) in *.
  destruct found.1 as [|idea filtered].
  { apply Hfinal; [constructor | rewrite grown_nothing; exact Hdb9 | exact Hbuf9 | exact Hmap9]. }
  match goal with |- channel_outcome _ _ (for_each ?body ?todo ?acc ?w') =>
    destruct (generate_loop_outcome (summary s) (sr_id saved.1) todo acc w')
      as (new & Hout & Hall & Hdb' & Hbuf' & Hmap')
  end.
  simpl in Hout.
  match goal with |- channel_outcome _ _ ?out =>
    replace out with (out.1, out.2) by (destruct out; reflexivity)
  end.
  rewrite Hout. apply Hfinal; [exact Hall | congruence | congruence | congruence].
Qed.

Lemma reset_buffer_is_some (channel : str) (t : datetime)
    (buffers : gmap str MessageBuffer) (c : str) :
  is_Some (reset_buffer channel t buffers !! c) <-> is_Some (buffers !! c).
Proof.
  unfold reset_buffer. destruct (buffers !! channel) eqn:Hb; [|reflexivity].
  destruct (decide (channel = c)) as [<- | Hne].
  - rewrite lookup_insert_eq, Hb. split; eauto.
  - rewrite lookup_insert_ne by exact Hne. reflexivity.
Qed.

Lemma reset_buffer_other (channel : str) (t : datetime)
    (buffers : gmap str MessageBuffer) (c : str) :
  c <> channel -> reset_buffer channel t buffers !! c = buffers !! c.
Proof.
  intros Hne. unfold reset_buffer. destruct (buffers !! channel); [|reflexivity].
  apply lookup_insert_ne. congruence.
Qed.

(** [process_channel] touches no buffer but the one of its channel, and
    creates or drops none. *)
Lemma process_channel_buffers (channel : str) (w : World Env) :
  let out := process_channel settings channel w in
  (forall c, is_Some (_buffers out.2 !! c) <-> is_Some (_buffers w !! c))
  /\ (forall c, c <> channel -> _buffers out.2 !! c = _buffers w !! c).
Proof.
  cbv zeta.
  destruct (process_channel_outcome channel w) as (rows & t & _ & _ & Hbuf & _).
  destruct Hbuf as [-> | ->].
  - split; intros; reflexivity.
  - split; intros; [apply reset_buffer_is_some | apply reset_buffer_other; assumption].
Qed.

Lemma process_channels_outcome (channels : list str)
    (all_results : list (SuggestionRow * GeneratedContent)) (w : World Env) :
  let out := for_each (fun all_results channel =>
                         results <- process_channel settings channel ;;
                         ret (all_results ++ results))
                      channels all_results w in
  exists new, out.1 = all_results ++ new /\ pass_outcome channels w (new, out.2).
Proof.
  revert all_results w. induction channels as [|channel channels IH];
    intros all_results w; simpl.
  - exists []. rewrite app_nil_r. split; [reflexivity|]. exists []. simpl.
    rewrite grown_nothing. repeat split; auto; constructor.
  - rewrite !bind_run. simpl.
    destruct (process_channel_outcome channel w)
      as (rows1 & t & Hdb1 & Hmap1 & _ & Hmade1).
    destruct (process_channel_buffers channel w) as (Hsome1 & Hother1).
    set (first := process_channel settings channel w) in *.
    destruct (IH (all_results ++ first.1) first.2)
      as (new & Hout & rows2 & Hdb2 & Hmap2 & Hrows2 & Hnew2 & Hsome2 & Hother2).
    simpl in *.
    exists (first.1 ++ new). split; [rewrite Hout, app_assoc; reflexivity|].
    exists (rows1 ++ rows2). simpl.
    split; [rewrite Hdb2, Hdb1, grown_grown, map_app; reflexivity|].
    split; [congruence|].
    assert (Hrows1 : Forall (fun row => exists c, c ∈ channel :: channels
                                                  /\ summary_made c row) rows1
                     /\ Forall (fun rc => exists row, row ∈ rows1 ++ rows2
                                           /\ suggestion_made (sr_id row) rc) first.1).
    { destruct Hmade1 as [[-> ->] | (row & -> & Hrow & Hall & _)].
      - split; constructor.
      - split.
        + constructor; [|constructor]. exists channel. split; [left | exact Hrow].
        + eapply Forall_impl; [exact Hall|]. intros rc Hrc. exists row.
          split; [left | exact Hrc]. }
    destruct Hrows1 as [Hrows1 Hnew1].
    split.
    { apply Forall_app. split; [exact Hrows1|].
      eapply Forall_impl; [exact Hrows2|]. intros row (c & Hc & Hrow).
      exists c. split; [right; exact Hc | exact Hrow]. }
    split.
    { apply Forall_app. split; [exact Hnew1|].
      eapply Forall_impl; [exact Hnew2|]. intros rc (row & Hin & Hrc).
      exists row. split; [apply elem_of_app; right; exact Hin | exact Hrc]. }
    split.
    { intros c. rewrite Hsome2. apply Hsome1. }
    intros c Hc. rewrite Hother2, Hother1; [reflexivity | |];
      intros Heq; apply Hc; [subst c; left | right; exact Heq].
Qed.

Lemma process_all_channels_outcome (w : World Env) :
  pass_outcome (get_listening_channels w).1 w (process_all_channels settings w).
Proof.
  unfold process_all_channels. rewrite bind_run.
  destruct (process_channels_outcome (get_listening_channels w).1 [] w)
    as (new & Hout & Hpass).
  simpl in *.
  match goal with |- pass_outcome _ _ ?out =>
    replace out with (out.1, out.2) by (destruct out; reflexivity)
  end.
  rewrite Hout. exact Hpass.
Qed.

(** X4. Every suggestion a pass returns is well formed and in the store: it is
    pending, its record holds the insight and the two drafts of the content
    it is returned with, both drafts are non-empty and clean, and the short
    one has at most 280 characters. *)
Theorem pass_results_are_well_formed (w : World Env) :
  let pass := process_all_channels settings w in
  Forall (fun rc => rc.1 ∈ suggestions (db pass.2)
                    /\ suggestion_made (sg_summary_id rc.1) rc) pass.1.
Proof.
  intros pass.
  destruct (process_all_channels_outcome w) as (rows & Hdb & _ & _ & Hnew & _).
  fold pass in Hdb, Hnew. apply list.Forall_forall. intros rc Hin.
  split.
  - rewrite Hdb. simpl. apply elem_of_app. right.
    apply list_elem_of_fmap. exists rc. split; [reflexivity | exact Hin].
  - rewrite list.Forall_forall in Hnew. destruct (Hnew rc Hin) as (row & _ & Hrc).
    assert (Hsid : sg_summary_id rc.1 = sr_id row) by apply Hrc.
    rewrite Hsid. exact Hrc.
Qed.

(** X5. Every suggestion a pass returns refers to a summary record that the
    same pass wrote: the record is in the store, it belongs to a listening
    channel, its narrative is not empty and it counts at least one message.
    A pass that writes no summary returns no suggestion. *)
Theorem pass_suggestions_have_their_summary (w : World Env) :
  let pass := process_all_channels settings w in
  Forall (fun rc =>
            exists row c,
              row ∈ summaries (db pass.2)
              /\ sr_id row = sg_summary_id rc.1
              /\ c ∈ (get_listening_channels w).1
              /\ summary_made c row) pass.1
  /\ (summaries (db pass.2) = summaries (db w) -> pass.1 = []).
Proof.
  intros pass.
  destruct (process_all_channels_outcome w) as (rows & Hdb & _ & Hrows & Hnew & _).
  fold pass in Hdb, Hnew.
  rewrite list.Forall_forall in Hrows. rewrite list.Forall_forall in Hnew.
  split.
  - apply list.Forall_forall. intros rc Hin.
    destruct (Hnew rc Hin) as (row & Hrow & Hrc).
    destruct (Hrows row Hrow) as (c & Hc & Hmade).
    exists row, c. split; [rewrite Hdb; simpl; apply elem_of_app; right; exact Hrow|].
    split; [symmetry; apply Hrc|]. split; assumption.
  - rewrite Hdb. simpl. intros Hsame.
    assert (Hnil : rows = []).
    { apply (app_inv_head (summaries (db w))). rewrite app_nil_r. exact Hsame. }
    destruct pass.1 as [|rc rest]; [reflexivity|].
    destruct (Hnew rc ltac:(left)) as (row & Hrow & _).
    rewrite Hnil in Hrow. inversion Hrow.
Qed.

(** X6. A pass only adds summaries and suggestions: messages, listening
    channels, the log of status updates and the message map are as before,
    and the summaries and suggestions that were there are still there, in
    place, followed by the new rows. The suggestions the pass returns are
    among the new rows, in the order of the results (the statement leaves
    room for rows that a channel persisted before it failed and that the
    pass therefore does not return). The pass creates or drops no buffer,
    and leaves alone the buffer of a channel that is not listened to. *)
Theorem pass_only_adds (w : World Env) :
  let pass := process_all_channels settings w in
  messages (db pass.2) = messages (db w)
  /\ listening_channels (db pass.2) = listening_channels (db w)
  /\ status_writes (db pass.2) = status_writes (db w)
  /\ _suggestion_message_map pass.2 = _suggestion_message_map w
  /\ (exists rows, summaries (db pass.2) = summaries (db w) ++ rows)
  /\ (exists new, suggestions (db pass.2) = suggestions (db w) ++ new
                  /\ sublist (map fst pass.1) new)
  /\ (forall c, is_Some (_buffers pass.2 !! c) <-> is_Some (_buffers w !! c))
  /\ (forall c, c ∉ (get_listening_channels w).1 ->
                _buffers pass.2 !! c = _buffers w !! c).
Proof.
  intros pass.
  destruct (process_all_channels_outcome w)
    as (rows & Hdb & Hmap & _ & _ & Hsome & Hother).
  fold pass in Hdb, Hmap, Hsome, Hother. rewrite Hdb. simpl.
  split; [reflexivity|]. split; [reflexivity|]. split; [reflexivity|].
  split; [exact Hmap|]. split; [exists rows; reflexivity|].
  split; [exists (map fst pass.1); split; reflexivity|].
  split; [exact Hsome | exact Hother].
Qed.

(* ===================================================================== *)
(** * Failures of the model (generator.py, detector.py, pipeline.py) *)
(* ===================================================================== *)

(** X7. An idea for which either draft comes back empty is not persisted: the
    turn of the generation loop returns the results as they were and leaves
    the store alone. A draft is empty when its model call fails. *)
Theorem failed_generation_is_not_persisted (summary_text summary_id : str)
    (results : list (SuggestionRow * GeneratedContent)) (idea : PostIdea)
    (w : World Env) :
  let long := generate_linkedin_post idea summary_text w in
  let short := generate_x_post idea long.2 in
  ((complete (LINKEDIN_PROMPT (core_insight idea) (why_it_works idea) summary_text)
      (7 # 10) 1000 w).1 = None -> long.1 = [])
  /\ ((complete (X_POST_PROMPT (core_insight idea)) (8 # 10) 100 long.2).1 = None ->
      short.1 = [])
  /\ (long.1 = [] \/ short.1 = [] ->
      (generate_idea summary_text summary_id results idea w).1 = results
      /\ same_store w (generate_idea summary_text summary_id results idea w).2).
Proof.
  intros long short.
  split.
  { intros Hfail. subst long. unfold generate_linkedin_post.
    rewrite bind_run, Hfail. reflexivity. }
  split.
  { intros Hfail. subst short. unfold generate_x_post.
    rewrite bind_run, Hfail. reflexivity. }
  intros Hempty.
  pose proof (generate_content_reads idea summary_text w) as Hstore.
  unfold generate_idea. rewrite bind_run.
  assert (Hdrafts : linkedin_draft (generate_content idea summary_text w).1 = long.1
                    /\ x_draft (generate_content idea summary_text w).1 = short.1).
  { unfold generate_content. rewrite !bind_run. split; reflexivity. }
  destruct Hdrafts as [Hl Hx]. rewrite Hl, Hx.
  destruct Hempty as [-> | ->].
  - split; [reflexivity | exact Hstore].
  - rewrite orb_true_r. split; [reflexivity | exact Hstore].
Qed.

Lemma filter_loop_sublist (summary_text : str) (todo : list PostIdea)
    (acc : list str * list PostIdea) (w : World Env) :
  let out := for_each (filter_idea summary_text) todo acc w in
  exists kept,
    sublist kept todo
    /\ out.1.2 = acc.2 ++ kept
    /\ out.1.1 = acc.1 ++ map core_insight kept.
Proof.
  revert acc w. induction todo as [|idea todo IH]; intros acc w; cbv zeta.
  - exists []. simpl. rewrite !app_nil_r. repeat split. constructor.
  - rewrite for_each_cons.
    destruct (IH (filter_idea summary_text acc idea w).1
                 (filter_idea summary_text acc idea w).2)
      as (kept & Hsub & Hkept & Hseen).
    rewrite Hkept, Hseen.
    destruct (filter_idea_cases summary_text acc idea w) as [-> | ->]; simpl.
    + exists kept. repeat split. apply sublist_cons, Hsub.
    + exists (idea :: kept). simpl. rewrite <- !app_assoc.
      repeat split. apply sublist_skip, Hsub.
Qed.

(** X8. [filter_ideas] returns some of the candidates, in the order they came
    in, and nothing else; while it runs, the list an idea is compared with
    is the saved insights followed by the insights of the ideas kept so
    far. *)
Theorem filter_ideas_keeps_order (candidates : list PostIdea) (summary_text : str)
    (w : World Env) :
  sublist (filter_ideas candidates summary_text w).1 candidates
  /\ forall pre post : list PostIdea,
       candidates = pre ++ post ->
       let existing := map sg_insight (get_saved_suggestions 20 w).1 in
       let before := for_each (filter_idea summary_text) pre (existing, []) w in
       before.1.1 = existing ++ map core_insight before.1.2
       /\ sublist before.1.2 (filter_ideas candidates summary_text w).1.
Proof.
  split.
  - rewrite filter_ideas_run.
    destruct (filter_loop_sublist summary_text candidates
                (map sg_insight (get_saved_suggestions 20 w).1, []) w)
      as (kept & Hsub & Hkept & _).
    rewrite Hkept. exact Hsub.
  - intros pre post -> existing before.
    destruct (filter_loop_sublist summary_text pre (existing, []) w)
      as (kept & _ & Hkept & Hseen).
    fold before in Hkept, Hseen. simpl in Hkept, Hseen.
    split; [rewrite Hseen, Hkept; reflexivity|].
    rewrite filter_ideas_run, for_each_app. fold existing before.
    destruct (filter_loop_sublist summary_text post before.1 before.2)
      as (kept' & _ & Hkept' & _).
    rewrite Hkept'. apply sublist_inserts_r. reflexivity.
Qed.

(** X9. [detect_post_worthy] fails closed: its answer is "nothing to post" with
    no idea, or it is what the model's JSON object says; and it says
    post-worthy only when that object has the key [is_post_worthy]
    (with pydantic reading the default [False] as false). *)
Theorem detect_post_worthy_fails_closed (s : ConversationSummary) (w : World Env) :
  validate_bool (JBool false) <> Some true ->
  let p := POST_WORTHINESS_PROMPT (summary s) (bullet_list (key_ideas s))
             (bullet_list (interesting_phrases s)) in
  let answer := (complete_json p (4 # 10) w).1 in
  let result := (detect_post_worthy s w).1 in
  (answer = None -> result = {| is_post_worthy := false; ideas := [] |})
  /\ (result = {| is_post_worthy := false; ideas := [] |}
      \/ exists items, answer = Some (JObj items)
                       /\ parse_detection (JObj items) = Some result)
  /\ (is_post_worthy result = true ->
      exists items flag,
        answer = Some (JObj items)
        /\ assoc (lit "is_post_worthy") items = Some flag
        /\ validate_bool flag = Some true).
Proof.
  intros Hdefault p answer result.
  assert (Hresult : result = from_option id {| is_post_worthy := false; ideas := [] |}
                               (answer ≫= parse_detection)).
  { subst result answer p. unfold detect_post_worthy. rewrite bind_run. reflexivity. }
  clearbody result answer. subst result.
  split; [intros ->; reflexivity|].
  destruct answer as [r|]; simpl; [|split; [left; reflexivity | discriminate]].
  destruct (parse_detection r) as [d|] eqn:Hparse; simpl;
    [|split; [left; reflexivity | discriminate]].
  assert (Hobj : exists items, r = JObj items).
  { destruct r; try discriminate Hparse. eauto. }
  destruct Hobj as [items ->].
  split; [right; exists items; split; [reflexivity | exact Hparse]|].
  intros Hworthy. unfold parse_detection in Hparse. simpl in Hparse.
  destruct (iterate _) as [found|]; simpl in Hparse; [|discriminate].
  destruct (mapM parse_idea found) as [parsed|]; simpl in Hparse; [|discriminate].
  destruct (assoc (lit "is_post_worthy") items) as [flag|] eqn:Hflag; simpl in Hparse.
  - destruct (validate_bool flag) as [b|] eqn:Hb; simpl in Hparse; [|discriminate].
    injection Hparse as <-. simpl in Hworthy. subst b.
    exists items, flag. split; [reflexivity|]. split; [exact Hflag | exact Hb].
  - destruct (validate_bool (JBool false)) as [b|] eqn:Hb; simpl in Hparse;
      [|discriminate].
    injection Hparse as <-. simpl in Hworthy. subst b. contradiction.
Qed.

Section Offline.

(** Every call of the model raises. *)
Hypothesis model_down :
  forall (request : ChatRequest) (e : Env), (chat_completions_create request e).1 = None.

Lemma complete_json_down (p : prompt) (t : Q) (w : World Env) :
  (complete_json p t w).1 = None.
Proof.
  unfold complete_json. rewrite bind_run. unfold external. simpl.
  pose proof (model_down {| req_prompt := p; temperature := t; max_tokens := None;
                            json_object := true |} (env w)) as Hdown.
  destruct (chat_completions_create _ (env w)). simpl in *. subst. reflexivity.
Qed.

Lemma complete_down (p : prompt) (t : Q) (n : Z) (w : World Env) :
  (complete p t n w).1 = None.
Proof.
  unfold complete. rewrite bind_run. unfold external. simpl.
  pose proof (model_down {| req_prompt := p; temperature := t; max_tokens := Some n;
                            json_object := false |} (env w)) as Hdown.
  destruct (chat_completions_create _ (env w)). simpl in *. subst. reflexivity.
Qed.

Lemma summarize_conversation_down (msgs : list SlackMessage) (w : World Env) :
  (summarize_conversation msgs w).1 = None.
Proof.
  unfold summarize_conversation. destruct msgs; [reflexivity|].
  rewrite bind_run, complete_json_down. reflexivity.
Qed.

Lemma filter_loop_down (summary_text : str) (todo : list PostIdea)
    (acc : list str * list PostIdea) (w : World Env) :
  (for_each (filter_idea summary_text) todo acc w).1 = acc.
Proof.
  revert w. induction todo as [|idea todo IH]; intros w; [reflexivity|].
  rewrite for_each_cons.
  assert (Hturn : (filter_idea summary_text acc idea w).1 = acc).
  { unfold filter_idea. cbv zeta. rewrite bind_run.
    destruct (truthy _); [reflexivity|].
    rewrite bind_run, (check_sensitivity_failure _ _ _ (complete_json_down _ _ _)).
    reflexivity. }
  rewrite Hturn. apply IH.
Qed.

Lemma process_channel_down (channel : str) (w : World Env) :
  (process_channel settings channel w).1 = []
  /\ db (process_channel settings channel w).2 = db w.
Proof.
  unfold process_channel. rewrite bind_run.
  pose proof (get_buffer_from_db_reads channel w) as E1.
  set (w1 := (get_buffer_from_db settings channel w).2) in *.
  rewrite bind_run.
  pose proof (same_store_trans _ _ _ E1 (should_summarize_reads channel w1)) as E2.
  set (w2 := (should_summarize settings channel w1).2) in *.
  destruct (negb _); [split; [reflexivity | apply E2]|].
  rewrite bind_run.
  pose proof (same_store_trans _ _ _ E2 (get_suggestions_today_reads w2)) as E3.
  set (w3 := (get_suggestions_today w2).2) in *.
  destruct (_ <=? _); [split; [reflexivity | apply E3]|].
  rewrite bind_run.
  pose proof (same_store_trans _ _ _ E3 (get_messages_for_summary_reads channel w3)) as E4.
  set (w4 := (get_messages_for_summary settings channel w3).2) in *.
  destruct (get_messages_for_summary settings channel w3).1 as [|first msgs];
    [split; [reflexivity | apply E4]|].
  rewrite bind_run.
  pose proof (same_store_trans _ _ _ E4
                (summarize_conversation_reads (first :: msgs) w4)) as E5.
  rewrite summarize_conversation_down, bind_run.
  split; [reflexivity|]. simpl. rewrite clear_buffer_db. apply E5.
Qed.

Lemma process_channels_down (channels : list str)
    (acc : list (SuggestionRow * GeneratedContent)) (w : World Env) :
  let out := for_each (fun all_results channel =>
                         results <- process_channel settings channel ;;
                         ret (all_results ++ results)) channels acc w in
  out.1 = acc /\ db out.2 = db w.
Proof.
  revert acc w. induction channels as [|c channels IH]; intros acc w; cbv zeta;
    [split; reflexivity|].
  rewrite for_each_cons, bind_run.
  destruct (process_channel_down c w) as [Hnone Hdb].
  rewrite Hnone, app_nil_r. simpl.
  destruct (IH acc (process_channel settings c w).2) as [Hacc Hdb'].
  split; [exact Hacc | rewrite Hdb'; exact Hdb].
Qed.

(** X10. While the model is unreachable, nothing is lost and nothing is made up:
    no summary succeeds, the filter lets no idea through, a pass over the
    listening channels returns no suggestion and leaves every table of the
    store as it was. *)
Theorem model_down_pass_persists_nothing (w : World Env) :
  (forall msgs, (summarize_conversation msgs w).1 = None)
  /\ (forall candidates summary_text,
        (filter_ideas candidates summary_text w).1 = [])
  /\ (process_all_channels settings w).1 = []
  /\ db (process_all_channels settings w).2 = db w.
Proof.
  split; [intros msgs; apply summarize_conversation_down|].
  split.
  { intros candidates summary_text. rewrite filter_ideas_run, filter_loop_down.
    reflexivity. }
  unfold process_all_channels. rewrite bind_run.
  apply (process_channels_down _ [] w).
Qed.

End Offline.

(* ===================================================================== *)
(** * The queries of the store (database.py) *)
(* ===================================================================== *)

Lemma insert_by_perm {A : Type} (key : A -> Z) (x : A) (l : list A) :
  insert_by key x l ≡ₚ x :: l.
Proof.
  induction l as [|y l IH]; simpl; [reflexivity|].
  destruct (key x <=? key y); [reflexivity|].
  rewrite IH. apply perm_swap.
Qed.

Lemma order_by_perm {A : Type} (key : A -> Z) (l : list A) : order_by key l ≡ₚ l.
Proof.
  unfold order_by. induction l as [|x l IH]; simpl; [reflexivity|].
  rewrite insert_by_perm, IH. reflexivity.
Qed.

Lemma insert_by_sorted {A : Type} (key : A -> Z) (x : A) (l : list A) :
  StronglySorted (fun a b => key a <= key b) l ->
  StronglySorted (fun a b => key a <= key b) (insert_by key x l).
Proof.
  induction 1 as [|y l Hs IH Hall]; simpl.
  - repeat constructor.
  - destruct (Z.leb_spec (key x) (key y)) as [Hle | Hgt].
    + constructor; [constructor; assumption|].
      constructor; [exact Hle|].
      eapply Forall_impl; [exact Hall|]. simpl. intros z Hz. lia.
    + constructor; [exact IH|].
      apply list.Forall_forall. intros z Hz. rewrite insert_by_perm in Hz.
      apply elem_of_cons in Hz as [-> | Hz]; [lia|].
      rewrite list.Forall_forall in Hall. apply Hall, Hz.
Qed.

Lemma order_by_sorted {A : Type} (key : A -> Z) (l : list A) :
  StronglySorted (fun a b => key a <= key b) (order_by key l).
Proof.
  unfold order_by. induction l as [|x l IH]; simpl; [constructor|].
  apply insert_by_sorted, IH.
Qed.

Lemma sorted_impl {A : Type} (R R' : A -> A -> Prop) (l : list A) :
  (forall a b, R a b -> R' a b) -> StronglySorted R l -> StronglySorted R' l.
Proof.
  intros Himpl. induction 1 as [|x l Hs IH Hall]; constructor; [exact IH|].
  eapply Forall_impl; [exact Hall|]. apply Himpl.
Qed.

Lemma order_by_desc_sorted {A : Type} (key : A -> Z) (l : list A) :
  StronglySorted (fun a b => key b <= key a) (order_by_desc key l).
Proof.
  unfold order_by_desc.
  eapply sorted_impl; [|apply (order_by_sorted (fun x => - key x))].
  simpl. intros a b Hab. lia.
Qed.

Lemma sorted_map {A B : Type} (f : A -> B) (R : B -> B -> Prop) (l : list A) :
  StronglySorted (fun a b => R (f a) (f b)) l -> StronglySorted R (map f l).
Proof.
  induction 1 as [|x l Hs IH Hall]; simpl; constructor; [exact IH|].
  apply List.Forall_map. exact Hall.
Qed.

(** X11. [get_messages_in_window] answers with the messages of the channel that
    are no older than the window, each of them once, oldest first. *)
Theorem messages_in_window_oldest_first (channel : str) (window_minutes : Z)
    (w : World Env) :
  let cutoff := (utcnow (env w)).1 - minutes window_minutes in
  let msgs := (get_messages_in_window channel window_minutes w).1 in
  StronglySorted (fun a b => timestamp a <= timestamp b) msgs
  /\ msgs ≡ₚ map message_of_row
               (filter (fun r => mr_channel_id r = channel /\ cutoff <= mr_created_at r)
                       (messages (db w)))
  /\ (forall m, m ∈ msgs -> channel_id m = channel /\ cutoff <= timestamp m).
Proof.
  intros cutoff msgs. subst cutoff msgs.
  unfold get_messages_in_window, bind, external, read, ret.
  destruct (utcnow (env w)) as [now e]. simpl.
  split; [apply sorted_map, (order_by_sorted mr_created_at)|].
  split; [rewrite order_by_perm; reflexivity|].
  intros m Hm. apply list_elem_of_In, in_map_iff in Hm as (r & <- & Hr).
  apply list_elem_of_In in Hr. rewrite order_by_perm in Hr.
  apply list_elem_of_filter in Hr as [Hr _]. exact Hr.
Qed.

(** X12. [get_saved_suggestions] answers with saved suggestions of the table, at
    most [limit] of them, newest first; a saved suggestion that is left out
    is no newer than any that is returned, and the limit is then reached. *)
Theorem saved_suggestions_newest_first (limit : nat) (w : World Env) :
  let rows := (get_saved_suggestions limit w).1 in
  (length rows <= limit)%nat
  /\ StronglySorted (fun a b => sg_created_at b <= sg_created_at a) rows
  /\ (forall r, r ∈ rows -> r ∈ suggestions (db w) /\ sg_status r = SAVED)
  /\ (forall r, r ∈ suggestions (db w) -> sg_status r = SAVED ->
        r ∈ rows
        \/ (length rows = limit
            /\ Forall (fun r' => sg_created_at r <= sg_created_at r') rows)).
Proof.
  intros rows. subst rows. unfold get_saved_suggestions, read. simpl.
  set (saved := filter (fun r => sg_status r = SAVED) (suggestions (db w))).
  set (sorted := order_by_desc sg_created_at saved).
  assert (Hsorted : StronglySorted (fun a b => sg_created_at b <= sg_created_at a)
                      (take limit sorted ++ drop limit sorted)).
  { rewrite take_drop. apply order_by_desc_sorted. }
  assert (Hperm : sorted ≡ₚ saved) by apply order_by_perm.
  split; [apply firstn_le_length|].
  split; [exact (StronglySorted_app_1_l _ _ _ Hsorted)|].
  split.
  { intros r Hr.
    assert (Hin : r ∈ sorted).
    { rewrite <- (take_drop limit sorted). apply elem_of_app. left. exact Hr. }
    rewrite Hperm in Hin. apply list_elem_of_filter in Hin as [Hs Hin].
    split; assumption. }
  intros r Hr Hs.
  assert (Hin : r ∈ sorted).
  { rewrite Hperm. apply list_elem_of_filter. split; assumption. }
  rewrite <- (take_drop limit sorted) in Hin.
  apply elem_of_app in Hin as [Hin | Hin]; [left; exact Hin | right].
  split.
  { rewrite length_take.
    assert (Hlen : (0 < length (drop limit sorted))%nat).
    { destruct (drop limit sorted); [inversion Hin | simpl; lia]. }
    rewrite length_drop in Hlen. lia. }
  apply list.Forall_forall. intros r' Hr'.
  exact (StronglySorted_app_1_elem_of _ _ _ _ _ Hsorted Hr' Hin).
Qed.

Lemma find_after_set_status (i : str) (status : SuggestionStatus)
    (rows : list SuggestionRow) :
  head (filter (fun r => sg_id r = i) (map (set_status i status) rows))
  = set_status i status <$> head (filter (fun r => sg_id r = i) rows).
Proof.
  induction rows as [|r rows IH]; [reflexivity|].
  cbn [map]. rewrite !filter_cons, set_status_id.
  destruct (decide (sg_id r = i)); [reflexivity | exact IH].
Qed.

Lemma find_other_after_set_status (i other : str) (status : SuggestionStatus)
    (rows : list SuggestionRow) :
  other <> i ->
  head (filter (fun r => sg_id r = other) (map (set_status i status) rows))
  = head (filter (fun r => sg_id r = other) rows).
Proof.
  intros Hne. induction rows as [|r rows IH]; [reflexivity|].
  cbn [map]. rewrite !filter_cons, set_status_id.
  destruct (decide (sg_id r = other)) as [Ho|]; [|exact IH].
  simpl. f_equal. unfold set_status.
  rewrite bool_decide_eq_false_2; [reflexivity | congruence].
Qed.

Lemma found_has_id (i : str) (rows : list SuggestionRow) (r : SuggestionRow) :
  head (filter (fun r => sg_id r = i) rows) = Some r -> sg_id r = i /\ r ∈ rows.
Proof.
  intros Hhead.
  assert (Hin : r ∈ filter (fun r => sg_id r = i) rows).
  { destruct (filter _ rows) as [|r' rest]; [discriminate|].
    injection Hhead as ->. left. }
  apply list_elem_of_filter in Hin. exact Hin.
Qed.

(** X13. A status update and the look-up of a suggestion fit together: after
    [update_suggestion_status] the suggestion of that id, if there is one,
    is found with the new status and is otherwise as it was; the update
    returns the same row; the suggestions of other ids are found as
    before; no row is added or dropped. *)
Theorem status_update_round_trip (suggestion_id : str) (status : SuggestionStatus)
    (w : World Env) :
  let updated := update_suggestion_status suggestion_id status w in
  (get_suggestion suggestion_id updated.2).1
  = set_status suggestion_id status <$> (get_suggestion suggestion_id w).1
  /\ updated.1 = (get_suggestion suggestion_id updated.2).1
  /\ (forall found, (get_suggestion suggestion_id updated.2).1 = Some found ->
        sg_status found = status)
  /\ (forall other, other <> suggestion_id ->
        (get_suggestion other updated.2).1 = (get_suggestion other w).1)
  /\ map sg_id (suggestions (db updated.2)) = map sg_id (suggestions (db w)).
Proof.
  intros updated. subst updated.
  assert (Hfound : (get_suggestion suggestion_id
                      (update_suggestion_status suggestion_id status w).2).1
                   = set_status suggestion_id status
                       <$> (get_suggestion suggestion_id w).1).
  { rewrite update_suggestion_status_db. unfold get_suggestion, read. simpl.
    apply find_after_set_status. }
  split; [exact Hfound|].
  split; [reflexivity|].
  split.
  { intros found. rewrite Hfound. unfold get_suggestion, read. simpl.
    destruct (head _) as [r|] eqn:Hr; [|discriminate].
    apply found_has_id in Hr as [Hid _]. simpl. intros [= <-].
    unfold set_status. rewrite bool_decide_eq_true_2 by exact Hid. reflexivity. }
  split.
  { intros other Hne. rewrite update_suggestion_status_db.
    unfold get_suggestion, read. simpl.
    apply find_other_after_set_status, Hne. }
  rewrite update_suggestion_status_db. simpl. rewrite map_map.
  apply map_ext. intros r. apply set_status_id.
Qed.

(** X14. A suggestion that was just saved is found under the id the store gave
    it, when no older row has that id; and every suggestion that could be
    found before is still found. *)
Theorem saved_suggestion_can_be_fetched (content : GeneratedContent)
    (summary_id : str) (w : World Env) :
  let saved := save_suggestion content summary_id w in
  Forall (fun r => sg_id r <> sg_id saved.1) (suggestions (db w)) ->
  (get_suggestion (sg_id saved.1) saved.2).1 = Some saved.1
  /\ forall other r,
       (get_suggestion other w).1 = Some r ->
       (get_suggestion other saved.2).1 = Some r.
Proof.
  intros saved Hfresh.
  destruct (save_suggestion_outcome content summary_id w) as (Hdb & _).
  fold saved in Hdb.
  assert (Hrows : suggestions (db saved.2) = suggestions (db w) ++ [saved.1]).
  { rewrite Hdb. reflexivity. }
  unfold get_suggestion, read. simpl. rewrite Hrows.
  split.
  - rewrite filter_app, head_app.
    assert (Hnone : filter (fun r => sg_id r = sg_id saved.1) (suggestions (db w)) = []).
    { clear Hrows Hdb. induction Hfresh as [|r rows Hr Hrows IH]; [reflexivity|].
      rewrite filter_cons_False by exact Hr. exact IH. }
    rewrite Hnone. simpl. rewrite filter_cons_True by reflexivity. reflexivity.
  - intros other r Hr. rewrite filter_app, head_app, Hr. reflexivity.
Qed.

(* ===================================================================== *)
(** * The channels the bot listens to (database.py, slack_handler.py) *)
(* ===================================================================== *)

Lemma is_listening_spec (channel : str) (w : World Env) :
  (is_listening channel w).1 = true <-> channel ∈ (get_listening_channels w).1.
Proof.
  unfold is_listening, get_listening_channels, read. simpl.
  induction (listening_channels (db w)) as [|r rows IH]; simpl.
  - split; [discriminate | intros Hin; inversion Hin].
  - rewrite filter_cons, elem_of_cons.
    destruct (decide (lc_channel_id r = channel)) as [Heq | Hne]; simpl.
    + split; [intros _; left; congruence | reflexivity].
    + rewrite IH. split; [intros Hin; right; exact Hin|].
      intros [Heq | Hin]; [congruence | exact Hin].
Qed.

Lemma upsert_channel_ids (row : ChannelRow) (rows : list ChannelRow) :
  map lc_channel_id (upsert_channel row rows)
  = if existsb (fun r => bool_decide (lc_channel_id r = lc_channel_id row)) rows
    then map lc_channel_id rows
    else map lc_channel_id rows ++ [lc_channel_id row].
Proof.
  unfold upsert_channel. destruct (existsb _ rows).
  - rewrite map_map. apply map_ext. intros r.
    destruct (bool_decide (lc_channel_id r = lc_channel_id row)) eqn:Hr;
      [|reflexivity].
    apply bool_decide_eq_true_1 in Hr. congruence.
  - rewrite map_app. reflexivity.
Qed.

Lemma listed_channel (channel : str) (rows : list ChannelRow) :
  existsb (fun r => bool_decide (lc_channel_id r = channel)) rows = true
  <-> channel ∈ map lc_channel_id rows.
Proof.
  rewrite existsb_exists. split.
  - intros (r & Hr & Hc). apply bool_decide_eq_true_1 in Hc. subst channel.
    apply list_elem_of_In, in_map, Hr.
  - intros Hin. apply list_elem_of_In, in_map_iff in Hin as (r & <- & Hr).
    exists r. split; [exact Hr | apply bool_decide_eq_true_2; reflexivity].
Qed.

Lemma add_listening_channel_outcome (channel user : str) (w : World Env) :
  let w' := (add_listening_channel channel user w).2 in
  (is_listening channel w').1 = true
  /\ (forall other, other <> channel ->
        (is_listening other w').1 = (is_listening other w).1)
  /\ (get_listening_channels w').1
     = (if (is_listening channel w).1 then (get_listening_channels w).1
        else (get_listening_channels w).1 ++ [channel])
  /\ (NoDup (get_listening_channels w).1 -> NoDup (get_listening_channels w').1)
  /\ messages (db w') = messages (db w)
  /\ summaries (db w') = summaries (db w)
  /\ suggestions (db w') = suggestions (db w)
  /\ status_writes (db w') = status_writes (db w).
Proof.
  intros w'.
  assert (Hids : (get_listening_channels w').1
                 = if (is_listening channel w).1 then (get_listening_channels w).1
                   else (get_listening_channels w).1 ++ [channel]).
  { pose proof (is_listening_spec channel w) as Hspec.
    subst w'. destruct (is_listening channel w).1;
      unfold add_listening_channel, bind, external, write_db, ret;
      destruct (utcnow (env w)) as [now e]; simpl;
      rewrite upsert_channel_ids; simpl;
      destruct (existsb _ _) eqn:Hex; try reflexivity.
    - apply not_true_iff_false in Hex. exfalso.
      apply Hex, listed_channel, Hspec. reflexivity.
    - apply listed_channel, Hspec in Hex. discriminate. }
  assert (Hlisted : forall c, c ∈ (get_listening_channels w').1
                              <-> c = channel \/ c ∈ (get_listening_channels w).1).
  { intros c. rewrite Hids. destruct (is_listening channel w).1 eqn:Hl.
    - apply is_listening_spec in Hl. split; [intros Hc; right; exact Hc|].
      intros [-> | Hc]; assumption.
    - rewrite elem_of_app, list_elem_of_singleton. tauto. }
  split; [apply is_listening_spec, Hlisted; left; reflexivity|].
  split.
  { intros other Hne. apply Bool.eq_iff_eq_true.
    rewrite !is_listening_spec, Hlisted. split; [|intros Hc; right; exact Hc].
    intros [Heq | Hc]; [congruence | exact Hc]. }
  split; [exact Hids|].
  split.
  { intros Hnodup. rewrite Hids. destruct (is_listening channel w).1 eqn:Hl;
      [exact Hnodup|].
    apply NoDup_app. split; [exact Hnodup|]. split; [|apply NoDup_singleton].
    intros c Hc Hc'. apply list_elem_of_singleton in Hc'. subst c.
    apply is_listening_spec in Hc. congruence. }
  subst w'. unfold add_listening_channel, bind, external, write_db, ret.
  destruct (utcnow (env w)) as [now e]. simpl. repeat split.
Qed.

Lemma remove_listening_channel_outcome (channel : str) (w : World Env) :
  let w' := (remove_listening_channel channel w).2 in
  (is_listening channel w').1 = false
  /\ (forall other, other <> channel ->
        (is_listening other w').1 = (is_listening other w).1)
  /\ (get_listening_channels w').1
     = filter (fun c => c <> channel) (get_listening_channels w).1
  /\ messages (db w') = messages (db w)
  /\ summaries (db w') = summaries (db w)
  /\ suggestions (db w') = suggestions (db w)
  /\ status_writes (db w') = status_writes (db w).
Proof.
  intros w'.
  assert (Hids : (get_listening_channels w').1
                 = filter (fun c => c <> channel) (get_listening_channels w).1).
  { subst w'. unfold remove_listening_channel, get_listening_channels, bind,
      write_db, read, ret. simpl.
    induction (listening_channels (db w)) as [|r rows IH]; [reflexivity|].
    cbn [map]. rewrite !filter_cons.
    destruct (decide (lc_channel_id r <> channel)); simpl; rewrite IH; reflexivity. }
  split.
  { apply not_true_is_false. rewrite is_listening_spec, Hids.
    intros Hin. apply list_elem_of_filter in Hin as [Hne _]. congruence. }
  split.
  { intros other Hne. apply Bool.eq_iff_eq_true.
    rewrite !is_listening_spec, Hids, list_elem_of_filter. tauto. }
  split; [exact Hids|].
  subst w'. repeat split.
Qed.

(* ===================================================================== *)
(** * The buffer of a channel (buffer.py, slack_handler.py) *)
(* ===================================================================== *)

Lemma reset_buffer_empty (channel : str) (t : datetime)
    (buffers : gmap str MessageBuffer) :
  from_option buf_messages [] (reset_buffer channel t buffers !! channel) = [].
Proof.
  unfold reset_buffer. destruct (buffers !! channel) eqn:Hb.
  - rewrite lookup_insert_eq. reflexivity.
  - rewrite Hb. reflexivity.
Qed.

(** What [add_message] does to the world. *)
Lemma add_message_outcome (m : SlackMessage) (w : World Env) :
  let w' := (add_message m w).2 in
  exists row b,
    db w' = with_messages (messages (db w) ++ [row]) (db w)
    /\ mr_channel_id row = channel_id m
    /\ mr_user_id row = user_id m
    /\ mr_text row = text m
    /\ mr_created_at row = timestamp m
    /\ _buffers w' = <[channel_id m := b]> (_buffers w)
    /\ buf_messages b
       = from_option buf_messages [] (_buffers w !! channel_id m) ++ [m]
    /\ (forall old, _buffers w !! channel_id m = Some old ->
          started_at b = started_at old)
    /\ _suggestion_message_map w' = _suggestion_message_map w.
Proof.
  unfold add_message, save_message. cbv zeta.
  unfold bind, external, write_db, read, ret. simpl.
  destruct (new_id (env w)) as [i e1]. simpl.
  destruct (_buffers w !! channel_id m) as [old|] eqn:Hold; simpl.
  - eexists _, _. split; [reflexivity|]. repeat (split; [reflexivity|]).
    split; [|reflexivity]. intros old' [= <-]. reflexivity.
  - destruct (utcnow e1) as [now e2]. simpl.
    eexists _, _. split; [reflexivity|]. repeat (split; [reflexivity|]).
    split; [|reflexivity]. intros old' [=].
Qed.

(** X15. A message that was added is among the messages the next summary is made
    from, with its channel, author, text and time, as long as its time lies
    in the window when they are collected. *)
Theorem added_message_reaches_the_summary (m : SlackMessage) (w : World Env) :
  let w' := (add_message m w).2 in
  (utcnow (env w')).1 - minutes (buffer_window_minutes settings) <= timestamp m ->
  exists m',
    m' ∈ (get_messages_for_summary settings (channel_id m) w').1
    /\ channel_id m' = channel_id m
    /\ user_id m' = user_id m
    /\ text m' = text m
    /\ timestamp m' = timestamp m.
Proof.
  intros w' Hfresh.
  destruct (add_message_outcome m w) as (row & b & Hdb & Hc & Hu & Ht & Hts & _).
  fold w' in Hdb.
  exists (message_of_row row). split; [|repeat split; assumption].
  assert (Hin : message_of_row row ∈ (get_buffer_from_db settings (channel_id m) w').1).
  { unfold get_buffer_from_db, get_messages_in_window, bind, external, read, ret.
    destruct (utcnow (env w')) as [now e] eqn:Hnow. simpl in Hfresh. simpl.
    apply list_elem_of_In, in_map, list_elem_of_In. rewrite order_by_perm.
    apply list_elem_of_filter.
    split; [split; [exact Hc | rewrite Hts; exact Hfresh]|].
    rewrite Hdb. simpl. apply elem_of_app. right. left. }
  unfold get_messages_for_summary. rewrite bind_run.
  destruct (get_buffer_from_db settings (channel_id m) w').1 eqn:Hlist;
    [inversion Hin | exact Hin].
Qed.

(** X16. Once the process holds a message of a channel in its buffer, the
    messages of the store no longer count: right after [add_message] has
    brought the buffer to one or two messages the channel is not ready,
    however many messages the store holds for it, when the minimum count
    is above what the buffer holds. *)
Theorem first_messages_hide_the_store (m : SlackMessage) (w : World Env) :
  let held := from_option buf_messages [] (_buffers w !! channel_id m) in
  (length held < 2)%nat ->
  Z.of_nat (length held) + 1 < min_messages_for_summary settings ->
  (should_summarize settings (channel_id m) (add_message m w).2).1 = false.
Proof.
  intros held Hfew Hmin.
  destruct (add_message_outcome m w)
    as (row & b & _ & _ & _ & _ & _ & Hbuf & Hmsgs & _).
  fold held in Hmsgs.
  set (w' := (add_message m w).2) in *.
  assert (Hlook : _buffers w' !! channel_id m = Some b).
  { rewrite Hbuf. apply lookup_insert_eq. }
  assert (Hcount : Z.of_nat (length (buf_messages b)) = Z.of_nat (length held) + 1).
  { rewrite Hmsgs, length_app. simpl. lia. }
  unfold should_summarize, bind, read, ret, external. rewrite Hlook.
  destruct (buf_messages b) as [|m0 ms] eqn:Hb; [destruct held; discriminate|].
  rewrite Hcount.
  destruct (Z.leb_spec (min_messages_for_summary settings)
              (Z.of_nat (length held) + 1)) as [Hle | _]; [lia|].
  destruct (utcnow (env w')) as [now e]. simpl.
  destruct (_ <=? _); [|reflexivity].
  destruct (Z.leb_spec 3 (Z.of_nat (length held) + 1)) as [Hle | _]; [lia|].
  reflexivity.
Qed.

(** With no message in the buffer of the process, readiness is the count of
    the store's window against the minimum. *)
Lemma should_summarize_from_store (channel : str) (w : World Env) :
  from_option buf_messages [] (_buffers w !! channel) = [] ->
  (should_summarize settings channel w).1
  = (min_messages_for_summary settings
       <=? Z.of_nat (length (durable_window settings channel w))).
Proof.
  intros Hnone. rewrite <- get_buffer_from_db_length.
  unfold should_summarize at 1. unfold bind at 1. unfold read at 1.
  destruct (_buffers w !! channel) as [b|]; simpl in Hnone;
    [rewrite Hnone|]; unfold bind;
    destruct (get_buffer_from_db settings channel w) as [ms w1]; simpl;
    destruct (_ <=? _); reflexivity.
Qed.

(** X17. [clear_buffer] empties the buffer of the channel and creates none; it
    forgets nothing that is stored. So readiness after it is decided by the
    messages of the store that are still in the window. *)
Theorem cleared_buffer_is_judged_by_the_store (channel : str) (w : World Env) :
  let w' := (clear_buffer channel w).2 in
  db w' = db w
  /\ (forall c, is_Some (_buffers w' !! c) <-> is_Some (_buffers w !! c))
  /\ (forall c, c <> channel -> _buffers w' !! c = _buffers w !! c)
  /\ from_option buf_messages [] (_buffers w' !! channel) = []
  /\ (should_summarize settings channel w').1
     = (min_messages_for_summary settings
          <=? Z.of_nat (length (durable_window settings channel w'))).
Proof.
  intros w'.
  destruct (clear_buffer_outcome channel w) as (Hdb & _ & Hbuf).
  fold w' in Hdb, Hbuf.
  assert (Hempty : from_option buf_messages [] (_buffers w' !! channel) = []).
  { rewrite Hbuf. apply reset_buffer_empty. }
  split; [exact Hdb|].
  split; [intros c; rewrite Hbuf; apply reset_buffer_is_some|].
  split; [intros c Hne; rewrite Hbuf; apply reset_buffer_other, Hne|].
  split; [exact Hempty|].
  apply should_summarize_from_store, Hempty.
Qed.

(** X18. A pass does not consume the messages it summarises. When
    [process_channel] has written a summary, the messages of the store are
    all still there and the buffer of the channel is empty, so whether the
    channel is ready again is decided by the same stored messages, as far as
    they are still in the window. *)
Theorem summarized_messages_are_not_consumed (channel : str) (w : World Env) :
  let out := process_channel settings channel w in
  summaries (db out.2) <> summaries (db w) ->
  messages (db out.2) = messages (db w)
  /\ from_option buf_messages [] (_buffers out.2 !! channel) = []
  /\ (should_summarize settings channel out.2).1
     = (min_messages_for_summary settings
          <=? Z.of_nat (length (durable_window settings channel out.2))).
Proof.
  intros out Hnew.
  destruct (process_channel_outcome channel w) as (rows & t & Hdb & _ & _ & Hmade).
  fold out in Hdb, Hmade.
  assert (Hempty : from_option buf_messages [] (_buffers out.2 !! channel) = []).
  { destruct Hmade as [[-> _] | (row & _ & _ & _ & ->)].
    - exfalso. apply Hnew. rewrite Hdb. simpl. apply app_nil_r.
    - apply reset_buffer_empty. }
  split; [rewrite Hdb; reflexivity|].
  split; [exact Hempty|].
  apply should_summarize_from_store, Hempty.
Qed.

(** X19. [_handle_channel_message] ignores a thread reply and a message of a
    channel the bot does not listen to: the world stays as it was. Any other
    message is recorded once: one row with its channel, author and text and
    the time of the clock is added to the messages of the store, the
    message is appended to the buffer of its channel, and nothing else of
    the store changes. *)
Theorem channel_message_is_recorded_when_listening (event : MessageEvent)
    (w : World Env) :
  let w' := (_handle_channel_message event w).2 in
  (present (ev_thread_ts event) = true
   \/ (is_listening (ev_channel event) w).1 = false -> w' = w)
  /\ (present (ev_thread_ts event) = false ->
      (is_listening (ev_channel event) w).1 = true ->
      exists row b m,
        db w' = with_messages (messages (db w) ++ [row]) (db w)
        /\ mr_channel_id row = ev_channel event
        /\ mr_user_id row = from_option id [] (ev_user event)
        /\ mr_text row = from_option id [] (ev_text event)
        /\ mr_created_at row = (utcnow (env w)).1
        /\ _buffers w' !! ev_channel event = Some b
        /\ buf_messages b
           = from_option buf_messages [] (_buffers w !! ev_channel event) ++ [m]
        /\ text m = mr_text row
        /\ timestamp m = mr_created_at row
        /\ (forall c, c <> ev_channel event -> _buffers w' !! c = _buffers w !! c)
        /\ _suggestion_message_map w' = _suggestion_message_map w).
Proof.
  intros w'. subst w'. unfold _handle_channel_message.
  destruct (present (ev_thread_ts event)) eqn:Hthread.
  { split; [reflexivity | discriminate]. }
  rewrite bind_run.
  assert (Hread : (is_listening (ev_channel event) w).2 = w) by reflexivity.
  rewrite Hread.
  destruct (is_listening (ev_channel event) w).1 eqn:Hlistening; simpl.
  2:{ split; [reflexivity | discriminate]. }
  split; [intros [Hno | Hno]; discriminate|].
  intros _ _. rewrite bind_run.
  set (now := (external utcnow w).1).
  set (w1 := (external utcnow w).2).
  assert (Hnow : now = (utcnow (env w)).1).
  { subst now. unfold external. destruct (utcnow (env w)). reflexivity. }
  assert (Hw1 : same_store w w1) by apply reads_only_external.
  destruct Hw1 as (Hdb1 & Hbuf1 & Hmap1).
  set (m := {| message_id := from_option id [] (ev_ts event);
               channel_id := ev_channel event;
               user_id := from_option id [] (ev_user event);
               text := from_option id [] (ev_text event); timestamp := now |}).
  destruct (add_message_outcome m w1)
    as (row & b & Hdb & Hc & Hu & Ht & Hts & Hbuf & Hmsgs & _ & Hmap).
  exists row, b, m.
  split; [rewrite Hdb, Hdb1; reflexivity|].
  split; [exact Hc|]. split; [exact Hu|]. split; [exact Ht|].
  split; [rewrite Hts; exact Hnow|].
  split; [rewrite Hbuf; apply lookup_insert_eq|].
  split; [rewrite Hmsgs, Hbuf1; reflexivity|].
  split; [rewrite Ht; reflexivity|].
  split; [rewrite Hts; reflexivity|].
  split; [|rewrite Hmap; exact Hmap1].
  intros c Hne. rewrite Hbuf, lookup_insert_ne, Hbuf1; [reflexivity|].
  simpl. congruence.
Qed.

Lemma stop_loop_outcome (channels : list str) (w : World Env) :
  let w' := (for_each (fun (_ : unit) channel =>
                         remove_listening_channel channel ;; ret tt)
                      channels tt w).2 in
  (forall r, r ∈ listening_channels (db w')
             <-> r ∈ listening_channels (db w) /\ lc_channel_id r ∉ channels)
  /\ messages (db w') = messages (db w)
  /\ summaries (db w') = summaries (db w)
  /\ suggestions (db w') = suggestions (db w)
  /\ status_writes (db w') = status_writes (db w)
  /\ _buffers w' = _buffers w
  /\ _suggestion_message_map w' = _suggestion_message_map w.
Proof.
  revert w. induction channels as [|c channels IH]; intros w; cbv zeta.
  - simpl. split; [|repeat split].
    intros r. split; [intros Hr; split; [exact Hr | apply not_elem_of_nil]|].
    intros [Hr _]. exact Hr.
  - rewrite for_each_cons.
    change ((remove_listening_channel c ;; ret tt) w).1 with tt.
    set (w1 := ((remove_listening_channel c ;; ret tt) w).2).
    destruct (IH w1) as (Hrows & Hm & Hs & Hg & Hl & Hb & Hmap).
    assert (Hw1 : w1 = set_db (with_listening_channels
                      (filter (fun r => lc_channel_id r <> c)
                              (listening_channels (db w))) (db w)) w)
      by reflexivity.
    split.
    { intros r. rewrite Hrows, Hw1. simpl. rewrite list_elem_of_filter, not_elem_of_cons.
      tauto. }
    rewrite Hm, Hs, Hg, Hl, Hb, Hmap, Hw1. repeat split.
Qed.

(** X20. After [_handle_stop_listening] the bot listens to no channel at all,
    whatever it listened to before; the other tables, the buffers and the
    message map are as before. [say] is taken to post its text and to touch
    nothing of the store. *)
Theorem stop_listening_forgets_every_channel (say : str -> M Env unit)
    (w : World Env) :
  (forall txt, reads_only (say txt)) ->
  let w' := (_handle_stop_listening say w).2 in
  (get_listening_channels w').1 = []
  /\ (forall c, (is_listening c w').1 = false)
  /\ messages (db w') = messages (db w)
  /\ summaries (db w') = summaries (db w)
  /\ suggestions (db w') = suggestions (db w)
  /\ status_writes (db w') = status_writes (db w)
  /\ _buffers w' = _buffers w
  /\ _suggestion_message_map w' = _suggestion_message_map w.
Proof.
  intros Hsay w'.
  assert (Hnone : listening_channels (db w') = []
                  /\ messages (db w') = messages (db w)
                  /\ summaries (db w') = summaries (db w)
                  /\ suggestions (db w') = suggestions (db w)
                  /\ status_writes (db w') = status_writes (db w)
                  /\ _buffers w' = _buffers w
                  /\ _suggestion_message_map w' = _suggestion_message_map w).
  { subst w'. unfold _handle_stop_listening. rewrite bind_run.
    assert (Hread : (get_listening_channels w).2 = w) by reflexivity.
    rewrite Hread.
    destruct (get_listening_channels w).1 as [|c channels] eqn:Hchannels.
    - destruct (Hsay (lit "I'm not currently listening to any channels.") w)
        as (-> & -> & ->).
      split; [|repeat split].
      unfold get_listening_channels, read in Hchannels. simpl in Hchannels.
      destruct (listening_channels (db w)); [reflexivity | discriminate].
    - rewrite bind_run.
      destruct (stop_loop_outcome (c :: channels) w)
        as (Hrows & Hm & Hs & Hg & Hl & Hb & Hmap).
      set (w1 := (for_each _ (c :: channels) tt w).2) in *.
      destruct (Hsay (lit "Stopped listening to "
                        ++ str_of_nat (length (c :: channels))
                        ++ lit " channel(s).") w1) as (-> & -> & ->).
      split; [|repeat split; assumption].
      destruct (listening_channels (db w1)) as [|r rows] eqn:Hleft; [reflexivity|].
      exfalso. assert (Hr : r ∈ r :: rows) by left.
      apply Hrows in Hr as [Hr Hout]. apply Hout. rewrite <- Hchannels.
      apply list_elem_of_In, in_map, list_elem_of_In, Hr. }
  destruct Hnone as (Hrows & Hrest).
  split; [unfold get_listening_channels, read; simpl; rewrite Hrows; reflexivity|].
  split; [|exact Hrest].
  intros c. apply not_true_is_false. rewrite is_listening_spec.
  unfold get_listening_channels, read. simpl. rewrite Hrows. apply not_elem_of_nil.
Qed.

(** X21. After [add_listening_channel] the bot listens to the channel. The
    channel is listed once more only when it was not listed before (a
    channel is never listed twice because of the call), every other channel
    is listened to or not as before, and the other tables are untouched.
    Adding the channel again, by whomever, leaves the list as it is. *)
Theorem add_listening_channel_listens (channel user again : str) (w : World Env) :
  let w' := (add_listening_channel channel user w).2 in
  (is_listening channel w').1 = true
  /\ (forall other, other <> channel ->
        (is_listening other w').1 = (is_listening other w).1)
  /\ (get_listening_channels w').1
     = (if (is_listening channel w).1 then (get_listening_channels w).1
        else (get_listening_channels w).1 ++ [channel])
  /\ (NoDup (get_listening_channels w).1 -> NoDup (get_listening_channels w').1)
  /\ messages (db w') = messages (db w)
  /\ summaries (db w') = summaries (db w)
  /\ suggestions (db w') = suggestions (db w)
  /\ status_writes (db w') = status_writes (db w)
  /\ (get_listening_channels (add_listening_channel channel again w').2).1
     = (get_listening_channels w').1.
Proof.
  intros w'.
  destruct (add_listening_channel_outcome channel user w)
    as (Hon & Hothers & Hids & Hnodup & Hm & Hs & Hg & Hl).
  fold w' in Hon, Hothers, Hids, Hnodup, Hm, Hs, Hg, Hl.
  destruct (add_listening_channel_outcome channel again w') as (_ & _ & Hagain & _).
  rewrite Hon in Hagain.
  split; [exact Hon|]. split; [exact Hothers|]. split; [exact Hids|].
  split; [exact Hnodup|]. split; [exact Hm|]. split; [exact Hs|].
  split; [exact Hg|]. split; [exact Hl | exact Hagain].
Qed.

(** X22. After [remove_listening_channel] the bot does not listen to the
    channel, also when the channel was added just before; the other
    channels are listed as before, in the same order, and the other tables
    are untouched. Removing the channel again leaves the list as it is. *)
Theorem remove_listening_channel_forgets (channel user : str) (w : World Env) :
  let w' := (remove_listening_channel channel w).2 in
  (is_listening channel w').1 = false
  /\ (forall other, other <> channel ->
        (is_listening other w').1 = (is_listening other w).1)
  /\ (get_listening_channels w').1
     = filter (fun c => c <> channel) (get_listening_channels w).1
  /\ messages (db w') = messages (db w)
  /\ summaries (db w') = summaries (db w)
  /\ suggestions (db w') = suggestions (db w)
  /\ status_writes (db w') = status_writes (db w)
  /\ (is_listening channel
        (remove_listening_channel channel
           (add_listening_channel channel user w).2).2).1 = false
  /\ (get_listening_channels (remove_listening_channel channel w').2).1
     = (get_listening_channels w').1.
Proof.
  intros w'.
  destruct (remove_listening_channel_outcome channel w)
    as (Hoff & Hothers & Hids & Hm & Hs & Hg & Hl).
  fold w' in Hoff, Hothers, Hids, Hm, Hs, Hg, Hl.
  destruct (remove_listening_channel_outcome channel
              (add_listening_channel channel user w).2) as (Hgone & _).
  destruct (remove_listening_channel_outcome channel w') as (_ & _ & Hagain & _).
  split; [exact Hoff|]. split; [exact Hothers|]. split; [exact Hids|].
  split; [exact Hm|]. split; [exact Hs|]. split; [exact Hg|]. split; [exact Hl|].
  split; [exact Hgone|].
  rewrite Hagain, Hids. apply list_filter_filter_l. intros c Hc. exact Hc.
Qed.

(* ===================================================================== *)
(** * Delivery and feedback (slack_handler.py) *)
(* ===================================================================== *)

(** X23. Delivery and feedback fit together. [send_suggestion] writes nothing to
    the store. When Slack accepts the message and answers with its time
    stamp, that time stamp is mapped to the suggestion, and a save or ignore
    reaction on that message then sends exactly one status update, for that
    suggestion. When the delivery fails or has no time stamp, the map is as
    before. *)
Theorem delivered_suggestion_can_be_judged (channel : option str)
    (insight why linkedin x suggestion_id : str) (event : ReactionEvent)
    (w : World Env) :
  let delivery :=
    (chat_postMessage channel None
       (_format_suggestion_message insight why linkedin x) (env w)).1 in
  let sent := (send_suggestion channel insight why linkedin x suggestion_id w).2 in
  db sent = db w
  /\ (forall ts, delivery = Some (Some ts) -> ts <> [] ->
        _suggestion_message_map sent
        = <[ts := suggestion_id]> (_suggestion_message_map w)
        /\ (suggestion_id <> [] -> item_ts event = Some ts ->
            forall status,
              status = SAVED
              /\ is_one_of (reaction event) ["+1"; "thumbsup"]%string = true
              \/ status = IGNORED
                 /\ is_one_of (reaction event)
                      ["x"; "negative_squared_cross_mark"]%string = true ->
              status_writes (db (_handle_reaction event sent).2)
              = status_writes (db w) ++ [(suggestion_id, status)]
              /\ suggestions (db (_handle_reaction event sent).2)
                 = map (set_status suggestion_id status) (suggestions (db w))))
  /\ ((forall ts, delivery = Some (Some ts) -> ts = []) ->
      _suggestion_message_map sent = _suggestion_message_map w).
Proof.
  intros delivery sent.
  assert (Hsent : db sent = db w
            /\ (forall ts, delivery = Some (Some ts) -> ts <> [] ->
                  _suggestion_message_map sent
                  = <[ts := suggestion_id]> (_suggestion_message_map w))
            /\ ((forall ts, delivery = Some (Some ts) -> ts = []) ->
                _suggestion_message_map sent = _suggestion_message_map w)).
  { subst sent delivery. unfold send_suggestion. cbv zeta. rewrite bind_run.
    unfold external. simpl.
    destruct (chat_postMessage _ _ _ _) as [[[ts|]|] e]; simpl;
      try (split; [reflexivity|]; split; [intros ts'; discriminate | reflexivity]).
    destruct ts as [|c ts]; simpl.
    - split; [reflexivity|]. split; [|reflexivity].
      intros ts' [= <-] Hne. congruence.
    - split; [reflexivity|]. split; [intros ts' [= <-] _; reflexivity|].
      intros Hnone. specialize (Hnone (c :: ts) eq_refl). discriminate. }
  destruct Hsent as (Hdb & Hmapped & Hfailed).
  split; [exact Hdb|]. split; [|exact Hfailed].
  intros ts Hdelivered Hts. split; [apply Hmapped; assumption|].
  intros Hid Hitem status Hreaction.
  assert (Hlook : _suggestion_message_map sent !! ts = Some suggestion_id).
  { rewrite (Hmapped ts Hdelivered Hts). apply lookup_insert_eq. }
  destruct (status_reaction event sent ts suggestion_id status Hitem Hlook Hid Hreaction)
    as (Hlog & Hrows & _).
  rewrite Hlog, Hrows, Hdb. split; reflexivity.
Qed.

Lemma is_one_of_app (r : str) (names names' : list string) :
  is_one_of r (names ++ names') = is_one_of r names || is_one_of r names'.
Proof. unfold is_one_of. apply existsb_app. Qed.

(** X24. Reactions that do nothing at all, not even a call of the model or of
    Slack: a reaction of another name than the six the bot knows, and a
    rewrite reaction on a message whose suggestion is not in the store. *)
Theorem reactions_that_do_nothing (event : ReactionEvent) (w : World Env) :
  (is_one_of (reaction event)
     ["+1"; "thumbsup"; "arrows_counterclockwise"; "repeat"; "x";
      "negative_squared_cross_mark"]%string = false ->
   _handle_reaction event w = (tt, w))
  /\ (forall ts suggestion_id,
        item_ts event = Some ts ->
        _suggestion_message_map w !! ts = Some suggestion_id ->
        is_one_of (reaction event) ["arrows_counterclockwise"; "repeat"]%string = true ->
        (get_suggestion suggestion_id w).1 = None ->
        _handle_reaction event w = (tt, w)).
Proof.
  split.
  - intros Hother.
    change ["+1"; "thumbsup"; "arrows_counterclockwise"; "repeat"; "x";
            "negative_squared_cross_mark"]%string
      with (["+1"; "thumbsup"]%string
            ++ ["arrows_counterclockwise"; "repeat"]%string
            ++ ["x"; "negative_squared_cross_mark"]%string) in Hother.
    rewrite !is_one_of_app in Hother.
    apply orb_false_iff in Hother as [Hsave Hother].
    apply orb_false_iff in Hother as [Hrewrite Hignore].
    unfold _handle_reaction. rewrite bind_run. unfold read. simpl.
    destruct (item_ts event) as [ts|]; simpl; [|reflexivity].
    destruct (_suggestion_message_map w !! ts) as [sid|]; [|reflexivity].
    destruct (is_empty sid); [reflexivity|].
    rewrite Hsave, Hrewrite, Hignore. reflexivity.
  - intros ts sid Hts Hmap Hrewrite Hgone.
    assert (Hsave : is_one_of (reaction event) ["+1"; "thumbsup"]%string = false).
    { apply not_true_is_false. intros Hsave.
      apply one_name in Hsave as (n & Hn & Hr).
      apply one_name in Hrewrite as (n' & Hn' & Hr').
      rewrite Hr in Hr'.
      destruct Hn as [<- | [<- | []]]; destruct Hn' as [<- | [<- | []]];
        vm_compute in Hr'; discriminate. }
    unfold _handle_reaction. rewrite bind_run. unfold read at 1 2. simpl.
    rewrite Hts. simpl. rewrite Hmap.
    destruct (is_empty sid); [reflexivity|].
    rewrite Hsave, Hrewrite.
    unfold _rewrite_suggestion. rewrite bind_run.
    assert (Hread : (get_suggestion sid w).2 = w) by reflexivity.
    rewrite Hread, Hgone. reflexivity.
Qed.

(* ===================================================================== *)
(** * The summarizer on its own (summarizer.py) *)
(* ===================================================================== *)

Lemma summarizer_process_channel_outcome (channel : str) (w : World Env) :
  let out := summarizer_process_channel settings channel w in
  (out.1 = None -> db out.2 = db w)
  /\ (forall row, out.1 = Some row ->
        db out.2 = grown [row] [] (db w)
        /\ summary_made channel row
        /\ from_option buf_messages [] (_buffers out.2 !! channel) = [])
  /\ (forall c, c <> channel -> _buffers out.2 !! c = _buffers w !! c)
  /\ _suggestion_message_map out.2 = _suggestion_message_map w.
Proof.
  cbv zeta.
  set (P := fun out : option SummaryRow * World Env =>
    (out.1 = None -> db out.2 = db w)
    /\ (forall row, out.1 = Some row ->
          db out.2 = grown [row] [] (db w)
          /\ summary_made channel row
          /\ from_option buf_messages [] (_buffers out.2 !! channel) = [])
    /\ (forall c, c <> channel -> _buffers out.2 !! c = _buffers w !! c)
    /\ _suggestion_message_map out.2 = _suggestion_message_map w).
  change (P (summarizer_process_channel settings channel w)).
  assert (Hnone : forall w' : World Env, same_store w w' -> P (None, w')).
  { intros w' (Hdb & Hbuf & Hmap). subst P. simpl.
    split; [intros _; exact Hdb|]. split; [intros row [=]|].
    split; [intros c _; rewrite Hbuf; reflexivity | exact Hmap]. }
  assert (Hcleared : forall w' : World Env, same_store w w' ->
            P (None, (clear_buffer channel w').2)).
  { intros w' (Hdb & Hbuf & Hmap).
    destruct (clear_buffer_outcome channel w') as (Hdb' & Hmap' & Hbuf').
    subst P. simpl. split; [intros _; congruence|]. split; [intros row [=]|].
    split; [|congruence].
    intros c Hne. rewrite Hbuf', Hbuf. apply reset_buffer_other, Hne. }
  unfold summarizer_process_channel. rewrite bind_run.
  pose proof (should_summarize_reads channel w) as E2.
  set (w2 := (should_summarize settings channel w).2) in *.
  destruct (negb (should_summarize settings channel w).1); [apply Hnone, E2|].
  rewrite bind_run.
  pose proof (same_store_trans _ _ _ E2 (get_messages_for_summary_reads channel w2)) as E4.
  set (w4 := (get_messages_for_summary settings channel w2).2) in *.
  destruct (get_messages_for_summary settings channel w2).1 as [|first msgs];
    [apply Hnone, E4|].
  rewrite bind_run.
  pose proof (same_store_trans _ _ _ E4
                (summarize_conversation_reads (first :: msgs) w4)) as E5.
  set (w5 := (summarize_conversation (first :: msgs) w4).2) in *.
  destruct (summarize_conversation (first :: msgs) w4).1 as [s|];
    [|rewrite bind_run; apply Hcleared, E5].
  destruct (is_empty (summary s)) eqn:Hempty; [rewrite bind_run; apply Hcleared, E5|].
  rewrite bind_run.
  match goal with |- context [save_summary ?c ?t ?m w5] =>
    pose proof (save_summary_outcome c t m w5) as (Hdb6 & Hbuf6 & Hmap6 & Hch & Hsum & Hmeta);
    set (saved := save_summary c t m w5) in *
  end.
  rewrite bind_run.
  destruct (clear_buffer_outcome channel saved.2) as (Hdb7 & Hmap7 & Hbuf7).
  destruct E5 as (Hdb5 & Hbuf5 & Hmap5).
  subst P. simpl.
  split; [discriminate|].
  split.
  { intros row [= <-].
    split; [rewrite Hdb7, Hdb6, Hdb5; reflexivity|].
    split; [|rewrite Hbuf7; apply reset_buffer_empty].
    unfold summary_made. rewrite Hch, Hsum, Hmeta.
    split; [reflexivity|]. split; [apply is_empty_false, Hempty|].
    cbn [message_count length]. lia. }
  split; [|congruence].
  intros c Hne. rewrite Hbuf7, Hbuf6, Hbuf5. apply reset_buffer_other, Hne.
Qed.

(** X25. [SummarizerService.process_channel] returns a record exactly when it
    has written it: with [None] the tables are as before; with a record,
    that record was appended to the summaries, it is of the channel, its
    text is not empty and it counts at least one message, and the buffer of
    the channel is empty. In both cases the messages and the suggestions of
    the store are as before and the summaries that were there are still
    there; the buffers of the other channels and the message map are left
    alone. *)
Theorem summarizer_saves_what_it_returns (channel : str) (w : World Env) :
  let out := summarizer_process_channel settings channel w in
  (out.1 = None -> db out.2 = db w)
  /\ (forall row, out.1 = Some row ->
        db out.2 = grown [row] [] (db w)
        /\ summary_made channel row
        /\ from_option buf_messages [] (_buffers out.2 !! channel) = [])
  /\ (forall c, c <> channel -> _buffers out.2 !! c = _buffers w !! c)
  /\ _suggestion_message_map out.2 = _suggestion_message_map w
  /\ messages (db out.2) = messages (db w)
  /\ suggestions (db out.2) = suggestions (db w)
  /\ (exists rows, summaries (db out.2) = summaries (db w) ++ rows).
Proof.
  intros out.
  destruct (summarizer_process_channel_outcome channel w)
    as (Hnone & Hsome & Hbuf & Hmap).
  fold out in Hnone, Hsome, Hbuf, Hmap.
  split; [exact Hnone|]. split; [exact Hsome|]. split; [exact Hbuf|].
  split; [exact Hmap|].
  destruct out.1 as [row|].
  - destruct (Hsome row eq_refl) as (Hdb & _). rewrite Hdb. simpl.
    rewrite app_nil_r. split; [reflexivity|]. split; [reflexivity|].
    exists [row]. reflexivity.
  - rewrite (Hnone eq_refl). split; [reflexivity|]. split; [reflexivity|].
    exists []. rewrite app_nil_r. reflexivity.
Qed.

Lemma summarizer_loop_outcome (channels : list str) (acc : list SummaryRow)
    (w : World Env) :
  let out := for_each (fun results channel =>
                         result <- summarizer_process_channel settings channel ;;
                         match result with
                         | Some row => ret (results ++ [row])
                         | None => ret results
                         end) channels acc w in
  exists new,
    out.1 = acc ++ new
    /\ db out.2 = grown new [] (db w)
    /\ Forall (fun row => exists c, c ∈ channels /\ summary_made c row) new
    /\ _suggestion_message_map out.2 = _suggestion_message_map w.
Proof.
  revert acc w. induction channels as [|c channels IH]; intros acc w; cbv zeta.
  - exists []. simpl. rewrite app_nil_r, grown_nothing. repeat split. constructor.
  - rewrite for_each_cons, bind_run.
    destruct (summarizer_process_channel_outcome c w) as (Hnone & Hsome & _ & Hmap).
    destruct (summarizer_process_channel settings c w).1 as [row|]; simpl.
    + destruct (Hsome row eq_refl) as (Hdb & Hmade & _).
      destruct (IH (acc ++ [row]) (summarizer_process_channel settings c w).2)
        as (new & Hout & Hdb' & Hall & Hmap').
      exists (row :: new).
      split; [rewrite Hout, <- app_assoc; reflexivity|].
      split; [rewrite Hdb', Hdb, grown_grown; reflexivity|].
      split; [|congruence].
      constructor; [exists c; split; [left | exact Hmade]|].
      eapply Forall_impl; [exact Hall|]. simpl.
      intros r (c' & Hc' & Hr). exists c'. split; [right; exact Hc' | exact Hr].
    + destruct (IH acc (summarizer_process_channel settings c w).2)
        as (new & Hout & Hdb' & Hall & Hmap').
      exists new. split; [exact Hout|].
      split; [rewrite Hdb', (Hnone eq_refl); reflexivity|].
      split; [|congruence].
      eapply Forall_impl; [exact Hall|]. simpl.
      intros r (c' & Hc' & Hr). exists c'. split; [right; exact Hc' | exact Hr].
Qed.

(** X26. [SummarizerService.process_all_channels] returns exactly the records it
    has appended to the summaries, in the order it wrote them; each is a
    summary of a channel the bot listens to, with a text and at least one
    message; the rest of the store and the message map are untouched. *)
Theorem summarizer_pass_returns_what_it_saved (w : World Env) :
  let out := summarizer_process_all_channels settings w in
  db out.2 = grown out.1 [] (db w)
  /\ Forall (fun row => exists c, c ∈ (get_listening_channels w).1
                                  /\ summary_made c row) out.1
  /\ _suggestion_message_map out.2 = _suggestion_message_map w.
Proof.
  intros out. subst out. unfold summarizer_process_all_channels. rewrite bind_run.
  destruct (summarizer_loop_outcome (get_listening_channels w).1 [] w)
    as (new & Hout & Hdb & Hall & Hmap).
  assert (Hread : (get_listening_channels w).2 = w) by reflexivity.
  rewrite Hread, Hout. split; [exact Hdb|]. split; [exact Hall | exact Hmap].
Qed.

(* ===================================================================== *)
(** * More queries of the store (database.py) *)
(* ===================================================================== *)

Lemma head_take {A : Type} (n : nat) (l : list A) :
  (0 < n)%nat -> head (take n l) = head l.
Proof. destruct n; [lia|]. destruct l; reflexivity. Qed.

(** X27. [get_latest_summary] answers with the first record of
    [get_recent_summaries] (whatever its positive limit is): a summary of
    the channel than which no summary of the channel is newer; it answers
    with nothing exactly when the channel has no summary. The recent
    summaries are at most [limit], newest first. *)
Theorem latest_summary_is_the_newest (channel : str) (limit : nat) (w : World Env) :
  let latest := (get_latest_summary channel w).1 in
  let recent := (get_recent_summaries channel limit w).1 in
  ((0 < limit)%nat -> latest = head recent)
  /\ (length recent <= limit)%nat
  /\ StronglySorted (fun a b => sr_created_at b <= sr_created_at a) recent
  /\ (forall row, latest = Some row ->
        row ∈ summaries (db w) /\ sr_channel_id row = channel
        /\ forall other, other ∈ summaries (db w) -> sr_channel_id other = channel ->
             sr_created_at other <= sr_created_at row)
  /\ (latest = None <->
      forall row, row ∈ summaries (db w) -> sr_channel_id row <> channel).
Proof.
  intros latest recent. subst latest recent.
  unfold get_latest_summary, get_recent_summaries, read. simpl.
  set (mine := filter (fun r => sr_channel_id r = channel) (summaries (db w))).
  set (sorted := order_by_desc sr_created_at mine).
  assert (Hperm : sorted ≡ₚ mine) by apply order_by_perm.
  assert (Hsorted : StronglySorted (fun a b => sr_created_at b <= sr_created_at a) sorted)
    by apply order_by_desc_sorted.
  assert (Hhead : head (take 1 sorted) = head sorted) by (apply head_take; lia).
  rewrite Hhead.
  split; [intros Hlimit; symmetry; apply head_take, Hlimit|].
  split; [apply firstn_le_length|].
  split.
  { rewrite <- (take_drop limit sorted) in Hsorted.
    exact (StronglySorted_app_1_l _ _ _ Hsorted). }
  split.
  - intros row Hrow. destruct sorted as [|first rest] eqn:Hs; [discriminate|].
    injection Hrow as ->.
    assert (Hin : row ∈ mine) by (rewrite <- Hperm; left).
    apply list_elem_of_filter in Hin as [Hc Hin].
    split; [exact Hin|]. split; [exact Hc|].
    intros other Hother Hoc.
    assert (Hin' : other ∈ row :: rest).
    { rewrite Hperm. apply list_elem_of_filter. split; assumption. }
    apply elem_of_cons in Hin' as [-> | Hin']; [lia|].
    inversion Hsorted as [|x l Hrest Hall]; subst.
    rewrite list.Forall_forall in Hall. apply Hall, Hin'.
  - split.
    + intros Hnone row Hin Hc.
      assert (Hin' : row ∈ sorted).
      { rewrite Hperm. apply list_elem_of_filter. split; assumption. }
      destruct sorted; [inversion Hin' | discriminate].
    + intros Hnone. destruct sorted as [|first rest] eqn:Hs; [reflexivity|].
      exfalso. assert (Hin : first ∈ mine) by (rewrite <- Hperm; left).
      apply list_elem_of_filter in Hin as [Hc Hin]. exact (Hnone first Hin Hc).
Qed.

Lemma filter_channel_since (channel : str) (t : datetime) (rows : list MessageRow) :
  filter (fun r => mr_channel_id r = channel /\ t <= mr_created_at r) rows
  = filter (fun r => t <= mr_created_at r)
      (filter (fun r => mr_channel_id r = channel) rows).
Proof.
  induction rows as [|r rows IH]; [reflexivity|].
  rewrite (filter_cons (fun r => mr_channel_id r = channel)).
  destruct (decide (mr_channel_id r = channel)) as [Hc | Hc].
  - rewrite !filter_cons, IH.
    destruct (decide (t <= mr_created_at r)) as [Ht | Ht];
      destruct (decide (mr_channel_id r = channel /\ t <= mr_created_at r))
        as [Hboth | Hboth]; try reflexivity; tauto.
  - rewrite filter_cons, IH.
    destruct (decide (mr_channel_id r = channel /\ t <= mr_created_at r))
      as [Hboth | Hboth]; [tauto | reflexivity].
Qed.

(** X28. The two queries over the messages agree: the window of
    [get_messages_in_window] is what [get_unprocessed_messages] returns
    since the cutoff of the window. With a [since] the latter returns,
    oldest first, messages of the channel that are no older than it, all of
    which it also returns without a [since]. *)
Theorem window_is_unprocessed_since_cutoff (channel : str) (window_minutes : Z)
    (w : World Env) :
  (get_messages_in_window channel window_minutes w).1
  = (get_unprocessed_messages channel
       (Some ((utcnow (env w)).1 - minutes window_minutes)) w).1
  /\ (forall since,
        StronglySorted (fun a b => timestamp a <= timestamp b)
          (get_unprocessed_messages channel since w).1)
  /\ (forall since m,
        m ∈ (get_unprocessed_messages channel (Some since) w).1 ->
        m ∈ (get_unprocessed_messages channel None w).1
        /\ channel_id m = channel /\ since <= timestamp m).
Proof.
  split.
  { unfold get_messages_in_window, get_unprocessed_messages, bind, external, read, ret.
    destruct (utcnow (env w)) as [now e]. simpl.
    rewrite filter_channel_since. reflexivity. }
  split.
  { intros since. unfold get_unprocessed_messages, bind, read, ret. simpl.
    apply sorted_map, (order_by_sorted mr_created_at). }
  intros since m. unfold get_unprocessed_messages, bind, read, ret. simpl.
  intros Hm. apply list_elem_of_In, in_map_iff in Hm as (r & <- & Hr).
  apply list_elem_of_In in Hr. rewrite order_by_perm in Hr.
  apply list_elem_of_filter in Hr as [Ht Hr].
  split.
  - apply list_elem_of_In, in_map, list_elem_of_In. rewrite order_by_perm. exact Hr.
  - apply list_elem_of_filter in Hr as [Hc _]. split; [exact Hc | exact Ht].
Qed.

(* ===================================================================== *)
(** * The length of a short-form draft, generated, stored and rewritten *)
(* ===================================================================== *)

Lemma set_status_x_draft (suggestion_id : str) (status : SuggestionStatus)
    (row : SuggestionRow) :
  sg_x_draft (set_status suggestion_id status row) = sg_x_draft row.
Proof. unfold set_status. destruct (bool_decide _); reflexivity. Qed.

Lemma update_keeps_x_drafts (suggestion_id : str) (status : SuggestionStatus)
    (w : World Env) :
  x_drafts_within (db w) ->
  x_drafts_within (db (update_suggestion_status suggestion_id status w).2).
Proof.
  unfold x_drafts_within. rewrite update_suggestion_status_db. simpl.
  intros Hall. apply List.Forall_map. eapply Forall_impl; [exact Hall|].
  simpl. intros r Hr. rewrite set_status_x_draft. exact Hr.
Qed.

(** No reaction changes a stored draft. *)
Lemma handle_reaction_keeps_x_drafts (event : ReactionEvent) (w : World Env) :
  x_drafts_within (db w) -> x_drafts_within (db (_handle_reaction event w).2).
Proof.
  intros Hall. unfold _handle_reaction. rewrite bind_run. unfold read at 1 2. simpl.
  destruct (item_ts event) as [message_ts|]; simpl; [|exact Hall].
  destruct (_suggestion_message_map w !! message_ts) as [suggestion_id|];
    [|exact Hall].
  destruct (is_empty suggestion_id); [exact Hall|].
  destruct (is_one_of (reaction event) ["+1"; "thumbsup"]%string).
  { rewrite !bind_run. simpl.
    rewrite (reads_only_db _ _ (reads_only_external _)).
    apply update_keeps_x_drafts, Hall. }
  destruct (is_one_of (reaction event) ["arrows_counterclockwise"; "repeat"]%string).
  { destruct (rewrite_suggestion_outcome suggestion_id (item_channel event)
                message_ts w) as (Hnone & Hsome).
    destruct (get_suggestion suggestion_id w).1 as [suggestion|].
    - destruct (Hsome suggestion eq_refl) as (Hdb & _). rewrite Hdb. exact Hall.
    - rewrite (Hnone eq_refl). exact Hall. }
  destruct (is_one_of (reaction event) ["x"; "negative_squared_cross_mark"]%string);
    [|exact Hall].
  rewrite !bind_run. simpl. apply update_keeps_x_drafts, Hall.
Qed.

(** Every draft a pass stores is within the limit. *)
Lemma pass_keeps_x_drafts (w : World Env) :
  x_drafts_within (db w) ->
  x_drafts_within (db (process_all_channels settings w).2).
Proof.
  intros Hall.
  destruct (process_all_channels_outcome w) as (rows & Hdb & _ & _ & Hmade & _).
  unfold x_drafts_within. rewrite Hdb. simpl.
  apply Forall_app. split; [exact Hall|].
  apply List.Forall_map. eapply Forall_impl; [exact Hmade|]. simpl.
  intros rc (row & _ & _ & _ & _ & _ & Hx & _ & _ & _ & _ & Hlen).
  rewrite Hx. exact Hlen.
Qed.

(** C9, as the code has it. The clean-up returns at most 280 characters:
    when what is left of the model's answer after removing hashtags and
    emoji is longer, it returns the first 277 of those characters followed
    by the marker [...] (leading white space apart), and otherwise what is
    left, stripped. [generate_x_post] returns that clean-up of the model's
    answer, or the empty string when the call fails, so always at most 280
    characters. [rewrite_x] returns the same clean-up when the call
    succeeds, but the original draft, untouched, when it fails: its result
    is within 280 characters exactly when the call succeeded or the
    original was. The originals of the program are stored drafts: a pass
    stores only drafts within the limit and no reaction changes a stored
    draft, so in a store whose drafts are within the limit every rewrite of
    a stored draft is. *)
Theorem x_draft_length_bound (raw original insight : str) (idea : PostIdea)
    (w : World Env) :
  let cleaned := emoji_sub (sub_hashtag_space raw) in
  let ask := complete (X_POST_PROMPT (core_insight idea)) (8 # 10) 100 w in
  let ask_again := complete (REWRITE_X_PROMPT original insight) (9 # 10) 100 w in
  (length (_clean_x_draft raw) <= 280)%nat
  /\ ((280 < length cleaned)%nat ->
      _clean_x_draft raw = lstrip (take 277 cleaned) ++ lit "...")
  /\ ((length cleaned <= 280)%nat -> _clean_x_draft raw = strip cleaned)
  /\ (length (generate_x_post idea w).1 <= 280)%nat
  /\ (ask.1 = Some raw -> (generate_x_post idea w).1 = _clean_x_draft raw)
  /\ (ask.1 = None -> (generate_x_post idea w).1 = [])
  /\ (ask_again.1 = Some raw ->
      (rewrite_x original insight w).1 = _clean_x_draft raw)
  /\ (ask_again.1 = None -> (rewrite_x original insight w).1 = original)
  /\ ((length (rewrite_x original insight w).1 <= 280)%nat <->
      ask_again.1 <> None \/ (length original <= 280)%nat)
  /\ (x_drafts_within (db w) ->
      x_drafts_within (db (process_all_channels settings w).2)
      /\ (forall event, x_drafts_within (db (_handle_reaction event w).2))
      /\ (forall suggestion_id suggestion (w' : World Env),
            (get_suggestion suggestion_id w).1 = Some suggestion ->
            (length (rewrite_x (sg_x_draft suggestion)
                       (sg_insight suggestion) w').1 <= 280)%nat)).
Proof.
  intros cleaned ask ask_again.
  assert (Hrewrite : forall (o i : str) (w0 : World Env),
            (rewrite_x o i w0).1
            = from_option _clean_x_draft o
                (complete (REWRITE_X_PROMPT o i) (9 # 10) 100 w0).1).
  { intros o i w0. unfold rewrite_x. cbv zeta. rewrite bind_run. reflexivity. }
  assert (Hgenerate : (generate_x_post idea w).1 = from_option _clean_x_draft [] ask.1).
  { subst ask. unfold generate_x_post. cbv zeta. rewrite bind_run. reflexivity. }
  split; [apply clean_x_length|].
  split.
  { intros Hlong. unfold _clean_x_draft. fold cleaned.
    apply Nat.ltb_lt in Hlong. rewrite Hlong. apply strip_app_dots. }
  split.
  { intros Hshort. unfold _clean_x_draft. fold cleaned.
    apply Nat.ltb_ge in Hshort. rewrite Hshort. reflexivity. }
  split; [apply generate_x_post_length|].
  split; [intros Hanswer; rewrite Hgenerate, Hanswer; reflexivity|].
  split; [intros Hfailed; rewrite Hgenerate, Hfailed; reflexivity|].
  split; [intros Hanswer; rewrite Hrewrite; fold ask_again; rewrite Hanswer;
          reflexivity|].
  split; [intros Hfailed; rewrite Hrewrite; fold ask_again; rewrite Hfailed;
          reflexivity|].
  split.
  { rewrite Hrewrite. fold ask_again. destruct ask_again.1 as [answer|]; simpl.
    - split; [intros _; left; discriminate | intros _; apply clean_x_length].
    - split; [intros Hlen; right; exact Hlen|].
      intros [Hcontra | Hlen]; [congruence | exact Hlen]. }
  intros Hall.
  split; [apply pass_keeps_x_drafts, Hall|].
  split; [intros event; apply handle_reaction_keeps_x_drafts, Hall|].
  intros suggestion_id suggestion w' Hfound.
  apply found_has_id in Hfound as [_ Hin].
  unfold x_drafts_within in Hall. rewrite list.Forall_forall in Hall.
  specialize (Hall suggestion Hin). simpl in Hall.
  rewrite Hrewrite.
  destruct (complete _ _ _ w').1; simpl; [apply clean_x_length | exact Hall].
Qed.

(* ===================================================================== *)
(** * The daily quota (pipeline.py) *)
(* ===================================================================== *)

(** ** The slots of one channel *)

Lemma sublist_map {A B : Type} (f : A -> B) (l1 l2 : list A) :
  sublist l1 l2 -> sublist (map f l1) (map f l2).
Proof. induction 1; simpl; constructor; assumption. Qed.

(** The generation loop makes its results from some of the ideas, in their
    order, and adds to the table exactly the rows of those results. *)
Lemma generate_loop_taken (summary_text summary_id : str) (todo : list PostIdea)
    (results : list (SuggestionRow * GeneratedContent)) (w : World Env) :
  let out := for_each (generate_idea summary_text summary_id) todo results w in
  exists taken new,
    sublist taken todo
    /\ map (fun rc => gc_core_insight rc.2) new = map core_insight taken
    /\ out.1 = results ++ new
    /\ suggestions (db out.2) = suggestions (db w) ++ map fst new.
Proof.
  revert results w. induction todo as [|idea todo IH]; intros results w; cbv zeta.
  - exists [], []. simpl. rewrite !app_nil_r.
    split; [constructor|]. split; [reflexivity|]. split; reflexivity.
  - rewrite for_each_cons.
    destruct (generate_idea_outcome summary_text summary_id results idea w)
      as [[Hres (Hdb & _)] | (rc & _ & Hinsight & Hres & Hdb & _)];
      destruct (IH (generate_idea summary_text summary_id results idea w).1
                   (generate_idea summary_text summary_id results idea w).2)
        as (taken & new & Hsub & Hfrom & Hout & Hrows).
    + exists taken, new. split; [apply sublist_cons; exact Hsub|].
      split; [exact Hfrom|]. split; [rewrite Hout, Hres; reflexivity|].
      rewrite Hrows, Hdb. reflexivity.
    + exists (idea :: taken), (rc :: new).
      split; [apply sublist_skip; exact Hsub|].
      split; [simpl; rewrite Hinsight, Hfrom; reflexivity|].
      split; [rewrite Hout, Hres, <- app_assoc; reflexivity|].
      rewrite Hrows, Hdb. simpl. rewrite <- app_assoc. reflexivity.
Qed.

(** One channel, whatever the clock does. The count is the one the channel
    itself reads, after its two looks at the buffer: the rows it adds are
    the rows of its results, and its results are made, in order, from ideas
    among the first [quota - count] that [filter_ideas] returned. *)
Lemma process_channel_slots (channel : str) (w : World Env) :
  let counted :=
    (should_summarize settings channel (get_buffer_from_db settings channel w).2).2 in
  let remaining_slots :=
    max_suggestions_per_day settings
    - Z.of_nat (length (get_suggestions_today counted).1) in
  let out := process_channel settings channel w in
  suggestions (db out.2) = suggestions (db w) ++ map fst out.1
  /\ (out.1 = []
      \/ 0 < remaining_slots
         /\ exists candidates summary_text w',
              sublist (map (fun rc => gc_core_insight rc.2) out.1)
                (map core_insight
                   (take (Z.to_nat remaining_slots)
                      (filter_ideas candidates summary_text w').1))).
Proof.
  cbv zeta. unfold process_channel.
  rewrite bind_run.
  pose proof (reads_only_db _ w (get_buffer_from_db_reads channel)) as E1.
  set (w1 := (get_buffer_from_db settings channel w).2) in *.
  rewrite bind_run.
  pose proof (reads_only_db _ w1 (should_summarize_reads channel)) as E2.
  set (w2 := (should_summarize settings channel w1).2) in *.
  set (remaining_slots :=
         max_suggestions_per_day settings
         - Z.of_nat (length (get_suggestions_today w2).1)).
  assert (Hnone : forall w' : World Env,
            suggestions (db w') = suggestions (db w) ->
            suggestions (db w')
            = suggestions (db w) ++ map fst (@nil (SuggestionRow * GeneratedContent))
            /\ (@nil (SuggestionRow * GeneratedContent) = []
                \/ 0 < remaining_slots
                   /\ exists candidates summary_text w'',
                        sublist (map (fun rc => gc_core_insight rc.2)
                                   (@nil (SuggestionRow * GeneratedContent)))
                          (map core_insight
                             (take (Z.to_nat remaining_slots)
                                (filter_ideas candidates summary_text w'').1)))).
  { intros w' Hw'. simpl. rewrite app_nil_r. split; [exact Hw' | left; reflexivity]. }
  destruct (negb (should_summarize settings channel w1).1).
  { apply Hnone. simpl. congruence. }
  rewrite bind_run.
  pose proof (reads_only_db _ w2 get_suggestions_today_reads) as E3.
  set (w3 := (get_suggestions_today w2).2) in *.
  destruct (Z.leb_spec (max_suggestions_per_day settings)
              (Z.of_nat (length (get_suggestions_today w2).1))) as [Hfull | Hroom].
  { apply Hnone. simpl. congruence. }
  rewrite bind_run.
  pose proof (reads_only_db _ w3 (get_messages_for_summary_reads channel)) as E4.
  set (w4 := (get_messages_for_summary settings channel w3).2) in *.
  destruct (get_messages_for_summary settings channel w3).1 as [|first msgs].
  { apply Hnone. simpl. congruence. }
  rewrite bind_run.
  pose proof (reads_only_db _ w4 (summarize_conversation_reads (first :: msgs))) as E5.
  set (w5 := (summarize_conversation (first :: msgs) w4).2) in *.
  destruct (summarize_conversation (first :: msgs) w4).1 as [s|].
  2: { rewrite bind_run. apply Hnone. simpl. rewrite clear_buffer_db. congruence. }
  destruct (is_empty (summary s)).
  { rewrite bind_run. apply Hnone. simpl. rewrite clear_buffer_db. congruence. }
  rewrite bind_run.
  match goal with |- context [save_summary ?c ?t ?m w5] =>
    pose proof (save_summary_suggestions c t m w5) as E6;
    set (saved := save_summary c t m w5) in *
  end.
  rewrite bind_run.
  pose proof (clear_buffer_db channel saved.2) as E7.
  set (w7 := (clear_buffer channel saved.2).2) in *.
  rewrite bind_run.
  pose proof (reads_only_db _ w7 (detect_post_worthy_reads s)) as E8.
  set (w8 := (detect_post_worthy s w7).2) in *.
  assert (Hrows8 : suggestions (db w8) = suggestions (db w)) by congruence.
  destruct (negb (is_post_worthy (detect_post_worthy s w7).1)
            || match ideas (detect_post_worthy s w7).1 with [] => true | _ => false end).
  { apply Hnone. exact Hrows8. }
  rewrite bind_run.
  pose proof (reads_only_db _ w8
    (filter_ideas_reads (ideas (detect_post_worthy s w7).1) (summary s))) as E9.
  set (found := filter_ideas (ideas (detect_post_worthy s w7).1) (summary s) w8) in *.
  destruct found.1 as [|idea filtered] eqn:Hfound.
  { apply Hnone. simpl. congruence. }
  rewrite slice_to_take by lia. fold remaining_slots.
  destruct (generate_loop_taken (summary s) (sr_id saved.1)
              (take (Z.to_nat remaining_slots) (idea :: filtered)) [] found.2)
    as (taken & new & Hsub & Hfrom & Hout & Hrows).
  rewrite Hout, Hrows. simpl.
  split; [congruence|].
  right. split; [lia|].
  exists (ideas (detect_post_worthy s w7).1), (summary s), w8.
  fold found. rewrite Hfound, Hfrom. apply sublist_map, Hsub.
Qed.

(** ** Days *)

Lemma today_start_div (t : datetime) :
  today_start_of t = 86400000000 * (t / 86400000000).
Proof.
  unfold today_start_of.
  pose proof (Z.div_mod t 86400000000 ltac:(lia)). lia.
Qed.

(** A reading between two readings of one day is of that day. *)
Lemma same_day_between (t1 t t2 : datetime) :
  today_start_of t1 = today_start_of t2 -> t1 <= t -> t <= t2 ->
  today_start_of t = today_start_of t1.
Proof.
  rewrite !today_start_div. intros Hday Hlo Hhi.
  pose proof (Z.div_le_mono t1 t 86400000000 ltac:(lia) Hlo).
  pose proof (Z.div_le_mono t t2 86400000000 ltac:(lia) Hhi).
  lia.
Qed.

Lemma get_suggestions_today_run (w : World Env) :
  (get_suggestions_today w).1 = today_rows (today_start_of (utcnow (env w)).1) (db w).
Proof.
  unfold get_suggestions_today, today_rows, bind, external, read. simpl.
  destruct (utcnow (env w)) as [now e]. reflexivity.
Qed.

Lemma today_rows_app (T : datetime) (d d' : Database) (new : list SuggestionRow) :
  suggestions d' = suggestions d ++ new ->
  Forall (fun r => T <= sg_created_at r) new ->
  length (today_rows T d') = (length (today_rows T d) + length new)%nat.
Proof.
  intros Hrows Hnew. unfold today_rows. rewrite Hrows, filter_app, length_app.
  f_equal. clear Hrows.
  induction Hnew as [|r new Hr Hnew IH]; [reflexivity|].
  rewrite filter_cons_True by exact Hr. simpl. congruence.
Qed.

(** ** A clock that never goes back *)

Section Clock.

Hypothesis monotone : clock_monotone.

Local Abbreviation stamps := (@stamps Env _).

Lemma stamps_same {A : Type} (c : M Env A) :
  (forall w, env (c w).2 = env w /\ suggestions (db (c w).2) = suggestions (db w)) ->
  stamps c.
Proof.
  intros Hc w. destruct (Hc w) as [Henv Hrows]. rewrite Henv, Hrows.
  split; [lia|]. exists []. rewrite app_nil_r. split; [reflexivity | constructor].
Qed.

Lemma stamps_ret {A : Type} (a : A) : stamps (ret a).
Proof. apply stamps_same. intros w. split; reflexivity. Qed.

Lemma stamps_read {A : Type} (f : World Env -> A) : stamps (read f).
Proof. apply stamps_same. intros w. split; reflexivity. Qed.

Lemma stamps_write_summaries (f : Database -> list SummaryRow) :
  stamps (write_db (fun d => with_summaries (f d) d)).
Proof. apply stamps_same. intros w. split; reflexivity. Qed.

Lemma stamps_set_buffers (f : World Env -> gmap str MessageBuffer) :
  stamps (fun w => (tt, set_buffers (f w) w)).
Proof. apply stamps_same. intros w. split; reflexivity. Qed.

Lemma stamps_external {A : Type} (op : Env -> A * Env) :
  (forall e, (utcnow e).1 <= (utcnow (op e).2).1) -> stamps (external op).
Proof.
  intros Hop w. specialize (Hop (env w)). unfold external.
  destruct (op (env w)) as [a e]. simpl in *.
  split; [exact Hop|]. exists []. rewrite app_nil_r. split; [reflexivity | constructor].
Qed.

Lemma stamps_utcnow : stamps (external utcnow).
Proof. apply stamps_external, monotone. Qed.

Lemma stamps_chat (request : ChatRequest) :
  stamps (external (chat_completions_create request)).
Proof. apply stamps_external. intros e. apply monotone. Qed.

Lemma stamps_new_id : stamps (external new_id).
Proof. apply stamps_external, monotone. Qed.

Lemma stamps_bind {A B : Type} (c : M Env A) (k : A -> M Env B) :
  stamps c -> (forall a, stamps (k a)) -> stamps (bind c k).
Proof.
  intros Hc Hk w. rewrite bind_run.
  destruct (Hc w) as (Hclock & new & Hrows & Hnew).
  destruct (Hk (c w).1 (c w).2) as (Hclock' & new' & Hrows' & Hnew').
  split; [lia|]. exists (new ++ new').
  split; [rewrite Hrows', Hrows, app_assoc; reflexivity|].
  apply Forall_app. split; [exact Hnew|].
  eapply Forall_impl; [exact Hnew'|]. simpl. intros r Hr. lia.
Qed.

Lemma stamps_for_each {A S : Type} (body : S -> A -> M Env S) (items : list A) :
  (forall acc a, stamps (body acc a)) ->
  forall acc, stamps (for_each body items acc).
Proof.
  intros Hbody. induction items as [|a items IH]; intros acc; simpl.
  - apply stamps_ret.
  - apply stamps_bind; [apply Hbody | exact IH].
Qed.

(** A suggestion is created at the reading its insertion takes. *)
Lemma db_save_suggestion_stamps (suggestion : Suggestion) :
  stamps (db_save_suggestion suggestion).
Proof.
  intros w. unfold db_save_suggestion, bind, external, write_db, ret. simpl.
  destruct monotone as (Hclock & _ & _ & Hid).
  specialize (Hid (env w)).
  destruct (new_id (env w)) as [i e1]. simpl in *.
  specialize (Hclock e1).
  destruct (utcnow e1) as [now e2]. simpl in *.
  split; [lia|]. eexists. split; [reflexivity|].
  constructor; [simpl; exact Hid | constructor].
Qed.

Create HintDb stamps discriminated.

Ltac stamps :=
  repeat first
    [ solve [auto with stamps]
    | apply stamps_ret
    | apply stamps_read
    | apply stamps_utcnow
    | apply stamps_chat
    | apply stamps_new_id
    | apply stamps_write_summaries
    | apply stamps_set_buffers
    | apply db_save_suggestion_stamps
    | apply stamps_bind; [| intros ?]
    | apply stamps_for_each; intros ? ?
    | progress cbv zeta
    | match goal with
      | |- stamps (if ?b then _ else _) => destruct b
      | |- stamps (match ?x with _ => _ end) => destruct x
      end ].

Lemma get_buffer_from_db_stamps (channel : str) :
  stamps (get_buffer_from_db settings channel).
Proof. unfold get_buffer_from_db, get_messages_in_window. stamps. Qed.
Hint Resolve get_buffer_from_db_stamps : stamps.

Lemma should_summarize_stamps (channel : str) :
  stamps (should_summarize settings channel).
Proof. unfold should_summarize. stamps. Qed.
Hint Resolve should_summarize_stamps : stamps.

Lemma get_suggestions_today_stamps : stamps get_suggestions_today.
Proof. unfold get_suggestions_today. stamps. Qed.
Hint Resolve get_suggestions_today_stamps : stamps.

Lemma get_messages_for_summary_stamps (channel : str) :
  stamps (get_messages_for_summary settings channel).
Proof. unfold get_messages_for_summary. stamps. Qed.
Hint Resolve get_messages_for_summary_stamps : stamps.

Lemma complete_stamps (p : prompt) (t : Q) (n : Z) : stamps (complete p t n).
Proof. unfold complete. stamps. Qed.
Hint Resolve complete_stamps : stamps.

Lemma complete_json_stamps (p : prompt) (t : Q) : stamps (complete_json p t).
Proof. unfold complete_json. stamps. Qed.
Hint Resolve complete_json_stamps : stamps.

Lemma summarize_conversation_stamps (msgs : list SlackMessage) :
  stamps (summarize_conversation msgs).
Proof. unfold summarize_conversation. stamps. Qed.
Hint Resolve summarize_conversation_stamps : stamps.

Lemma save_summary_stamps (channel summary_text : str) (metadata : SummaryMetadata) :
  stamps (save_summary channel summary_text metadata).
Proof. unfold save_summary. stamps. Qed.
Hint Resolve save_summary_stamps : stamps.

Lemma clear_buffer_stamps (channel : str) : stamps (clear_buffer channel).
Proof. unfold clear_buffer. stamps. Qed.
Hint Resolve clear_buffer_stamps : stamps.

Lemma detect_post_worthy_stamps (s : ConversationSummary) :
  stamps (detect_post_worthy s).
Proof. unfold detect_post_worthy. stamps. Qed.
Hint Resolve detect_post_worthy_stamps : stamps.

Lemma filter_ideas_stamps (candidates : list PostIdea) (summary_text : str) :
  stamps (filter_ideas candidates summary_text).
Proof.
  unfold filter_ideas, get_saved_suggestions, filter_idea, check_duplicate,
    check_sensitivity.
  stamps.
Qed.
Hint Resolve filter_ideas_stamps : stamps.

Lemma generate_idea_stamps (summary_text summary_id : str)
    (results : list (SuggestionRow * GeneratedContent)) (idea : PostIdea) :
  stamps (generate_idea summary_text summary_id results idea).
Proof.
  unfold generate_idea, generate_content, generate_linkedin_post, generate_x_post,
    save_suggestion.
  stamps.
Qed.
Hint Resolve generate_idea_stamps : stamps.

Lemma process_channel_stamps (channel : str) :
  stamps (process_channel settings channel).
Proof. unfold process_channel. stamps. Qed.
Hint Resolve process_channel_stamps : stamps.

(** The rows a channel adds are created no earlier than the reading at
    which it counted the suggestions of today, and the clock reads no
    earlier than that when the channel is done. *)
Lemma process_channel_after_count (channel : str) (w : World Env) :
  let counted :=
    (should_summarize settings channel (get_buffer_from_db settings channel w).2).2 in
  let out := process_channel settings channel w in
  (utcnow (env w)).1 <= (utcnow (env counted)).1
  /\ (utcnow (env counted)).1 <= (utcnow (env out.2)).1
  /\ Forall (fun r => (utcnow (env counted)).1 <= sg_created_at r) (map fst out.1).
Proof.
  cbv zeta.
  destruct (get_buffer_from_db_stamps channel w) as (Hclock1 & _).
  destruct (should_summarize_stamps channel (get_buffer_from_db settings channel w).2)
    as (Hclock2 & _).
  split; [lia|].
  destruct (process_channel_slots channel w) as (Hrows & _).
  pose proof (reads_only_db _ w (get_buffer_from_db_reads channel)) as E1.
  pose proof (reads_only_db _ (get_buffer_from_db settings channel w).2
                (should_summarize_reads channel)) as E2.
  revert Hrows. unfold process_channel. rewrite bind_run. rewrite bind_run.
  set (counted := (should_summarize settings channel
                     (get_buffer_from_db settings channel w).2).2) in *.
  match goal with
  | |- context [ (?k counted).2 ] =>
      assert (Hk : stamps k) by stamps;
      destruct (Hk counted) as (Hclock & new & Hnew & Hall);
      set (out := k counted) in *
  end.
  intros Hrows. split; [exact Hclock|].
  rewrite Hnew, E2, E1 in Hrows. apply app_inv_head in Hrows. rewrite <- Hrows.
  exact Hall.
Qed.

(** The loop over the channels, on one day: from its first reading to a
    reading after its end the clock stays on the day that starts at [T]. *)
Lemma process_channels_quota (T : datetime) (channels : list str)
    (all_results : list (SuggestionRow * GeneratedContent)) (w : World Env) :
  let out := for_each (fun all_results channel =>
                         results <- process_channel settings channel ;;
                         ret (all_results ++ results))
                      channels all_results w in
  today_start_of (utcnow (env w)).1 = T ->
  today_start_of (utcnow (env out.2)).1 = T ->
  exists new,
    out.1 = all_results ++ new
    /\ suggestions (db out.2) = suggestions (db w) ++ map fst new
    /\ Z.of_nat (length new)
       <= Z.max 0 (max_suggestions_per_day settings
                   - Z.of_nat (length (today_rows T (db w)))).
Proof.
  revert all_results w. induction channels as [|channel channels IH];
    intros all_results w; cbv zeta.
  - intros _ _. exists []. simpl. rewrite !app_nil_r. repeat split. lia.
  - rewrite for_each_cons, bind_run. simpl.
    set (first := process_channel settings channel w).
    intros Hstart Hend.
    destruct (process_channel_after_count channel w) as (Hlo & Hmid & Hstamped).
    fold first in Hmid, Hstamped.
    set (counted := (should_summarize settings channel
                       (get_buffer_from_db settings channel w).2).2) in *.
    assert (Hrest : (utcnow (env first.2)).1
                    <= (utcnow (env (for_each (fun all_results channel =>
                          results <- process_channel settings channel ;;
                          ret (all_results ++ results))
                        channels (all_results ++ first.1) first.2).2)).1).
    { match goal with |- _ <= (utcnow (env (?c first.2).2)).1 =>
        assert (Hc : stamps c) by stamps; apply (Hc first.2)
      end. }
    assert (Hday : today_start_of (utcnow (env w)).1
                   = today_start_of (utcnow (env (for_each (fun all_results channel =>
                          results <- process_channel settings channel ;;
                          ret (all_results ++ results))
                        channels (all_results ++ first.1) first.2).2)).1)
      by congruence.
    assert (Hcounted : today_start_of (utcnow (env counted)).1 = T).
    { rewrite <- Hstart. apply (same_day_between _ _ _ Hday); lia. }
    assert (Hfirst : today_start_of (utcnow (env first.2)).1 = T).
    { rewrite <- Hstart. apply (same_day_between _ _ _ Hday); lia. }
    destruct (process_channel_slots channel w) as (Hrows & Hfrom).
    fold first counted in Hrows, Hfrom.
    assert (Hcount : (get_suggestions_today counted).1 = today_rows T (db w)).
    { rewrite get_suggestions_today_run, Hcounted. unfold today_rows.
      subst counted.
      rewrite (reads_only_db _ _ (should_summarize_reads channel)).
      rewrite (reads_only_db _ _ (get_buffer_from_db_reads channel)). reflexivity. }
    rewrite Hcount in Hfrom.
    assert (Hlen : Z.of_nat (length first.1)
                   <= Z.max 0 (max_suggestions_per_day settings
                               - Z.of_nat (length (today_rows T (db w))))).
    { destruct Hfrom as [-> | (Hroom & candidates & summary_text & w' & Hsub)];
        [simpl; lia|].
      apply sublist_length in Hsub. rewrite !length_map, length_take in Hsub. lia. }
    assert (Htoday : Forall (fun r => T <= sg_created_at r) (map fst first.1)).
    { eapply Forall_impl; [exact Hstamped|]. simpl. intros r Hr.
      pose proof (today_start_le (utcnow (env counted)).1). lia. }
    destruct (IH (all_results ++ first.1) first.2 Hfirst Hend)
      as (new & Hout & Hrows' & Hlen').
    exists (first.1 ++ new).
    split; [rewrite Hout, app_assoc; reflexivity|].
    split; [rewrite Hrows', Hrows, map_app, app_assoc; reflexivity|].
    rewrite (today_rows_app T _ _ _ Hrows Htoday), length_map in Hlen'.
    rewrite length_app. lia.
Qed.

End Clock.


End Properties.

(* ===================================================================== *)
(** * The scheduled run and the mention commands (main.py, slack_handler.py) *)
(* ===================================================================== *)

Section Scheduled.

Context `{Unicode} `{Pydantic} {Env : Type} `{External Env} `{Platform Env}.
Variable settings : Settings.

Local Abbreviation reads_only := (@reads_only Env _).

Lemma send_dm_suggestion_store (user : str) (content : GeneratedContent)
    (suggestion_id : str) (w : World Env) :
  let w' := (send_dm_suggestion user content suggestion_id w).2 in
  db w' = db w /\ _buffers w' = _buffers w
  /\ (_suggestion_message_map w' = _suggestion_message_map w
      \/ exists new_ts,
           _suggestion_message_map w'
           = <[new_ts := suggestion_id]> (_suggestion_message_map w)).
Proof.
  unfold send_dm_suggestion. cbv zeta. rewrite bind_run.
  pose proof (reads_only_external (conversations_open [user]) w)
    as (Hdb & Hbuf & Hmap).
  destruct (external (conversations_open [user]) w).1 as [channel|];
    [|split; [exact Hdb|]; split; [exact Hbuf | left; exact Hmap]].
  match goal with |- context [send_suggestion ?c ?i ?y ?l ?x ?s ?w0] =>
    destruct (send_suggestion_store c i y l x s w0) as (Hdb' & Hbuf' & Hmap')
  end.
  split; [congruence|]. split; [congruence|].
  destruct Hmap' as [Hm | (ts & Hm)]; [left; congruence|].
  right. exists ts. rewrite Hm, Hmap. reflexivity.
Qed.

Lemma delivery_loop_store (user : str)
    (found : list (SuggestionRow * GeneratedContent)) (w : World Env) :
  let w' := (for_each (fun (_ : unit) suggestion =>
                         send_dm_suggestion user suggestion.2 (sg_id suggestion.1))
                      found tt w).2 in
  db w' = db w /\ _buffers w' = _buffers w
  /\ forall ts sid,
       _suggestion_message_map w' !! ts = Some sid ->
       _suggestion_message_map w !! ts = Some sid
       \/ exists rc, rc ∈ found /\ sid = sg_id rc.1.
Proof.
  revert w. induction found as [|rc found IH]; intros w; cbv zeta.
  - simpl. split; [reflexivity|]. split; [reflexivity|].
    intros ts sid Hl. left. exact Hl.
  - rewrite for_each_cons.
    destruct (send_dm_suggestion_store user rc.2 (sg_id rc.1) w) as (Hdb & Hbuf & Hmap).
    destruct (send_dm_suggestion user rc.2 (sg_id rc.1) w).1.
    set (w1 := (send_dm_suggestion user rc.2 (sg_id rc.1) w).2) in *.
    destruct (IH w1) as (Hdb' & Hbuf' & Hmap').
    split; [congruence|]. split; [congruence|].
    intros ts sid Hl. apply Hmap' in Hl as [Hl | (rc' & Hin & ->)].
    + destruct Hmap as [Hm | (new_ts & Hm)]; [left; rewrite <- Hm; exact Hl|].
      rewrite Hm, lookup_insert in Hl.
      destruct (decide (new_ts = ts)); [|left; exact Hl].
      injection Hl as <-. right. exists rc. split; [left | reflexivity].
    + right. exists rc'. split; [right; exact Hin | reflexivity].
Qed.

(** X29. The scheduled run is the pass followed by the deliveries. Delivering
    writes nothing to the store: after the run the tables and the buffers
    are as the pass left them, whether Slack was reachable or not. Every
    message the run has mapped to a suggestion is mapped to one the pass
    has just persisted, as pending; a pass without results sends
    nothing. *)
Theorem scheduled_run_delivers_what_the_pass_made (founder_user_id : str)
    (w : World Env) :
  let pass := process_all_channels settings w in
  let run := scheduled_pipeline_run settings founder_user_id w in
  db run.2 = db pass.2
  /\ _buffers run.2 = _buffers pass.2
  /\ (forall ts sid,
        _suggestion_message_map run.2 !! ts = Some sid ->
        _suggestion_message_map w !! ts = Some sid
        \/ exists rc, rc ∈ pass.1 /\ sid = sg_id rc.1
                      /\ rc.1 ∈ suggestions (db run.2)
                      /\ sg_status rc.1 = PENDING)
  /\ (pass.1 = [] -> run.2 = pass.2).
Proof.
  intros pass run.
  assert (Hrun : run.2 = (for_each (fun (_ : unit) suggestion =>
                   send_dm_suggestion founder_user_id suggestion.2 (sg_id suggestion.1))
                   pass.1 tt pass.2).2).
  { subst run pass. unfold scheduled_pipeline_run. rewrite bind_run. reflexivity. }
  destruct (delivery_loop_store founder_user_id pass.1 pass.2) as (Hdb & Hbuf & Hmap).
  rewrite <- Hrun in Hdb, Hbuf, Hmap.
  destruct (process_all_channels_outcome settings w)
    as (rows & Hgrown & Hsame & _ & Hmade & _).
  fold pass in Hgrown, Hsame, Hmade.
  split; [exact Hdb|]. split; [exact Hbuf|].
  split; [|intros Hnone; rewrite Hrun, Hnone; reflexivity].
  intros ts sid Hl. apply Hmap in Hl as [Hl | (rc & Hin & ->)].
  { left. rewrite <- Hsame. exact Hl. }
  right. exists rc. split; [exact Hin|]. split; [reflexivity|].
  split.
  - rewrite Hdb, Hgrown. simpl. apply elem_of_app. right.
    apply list_elem_of_In, in_map, list_elem_of_In, Hin.
  - rewrite list.Forall_forall in Hmade.
    destruct (Hmade rc Hin) as (row & _ & Hpending & _). exact Hpending.
Qed.

Lemma is_listening_same_db (channel : str) (w w' : World Env) :
  db w' = db w -> (is_listening channel w').1 = (is_listening channel w).1.
Proof. intros Hdb. unfold is_listening, read. simpl. rewrite Hdb. reflexivity. Qed.

(** X30. The commands of a mention, in the order the handler tries them. A text
    with "start listening" makes the bot listen to the channel of the
    mention, also when it says "stop listening" as well; otherwise a text
    with "stop listening" makes it stop; otherwise a text with "status"
    only reports; any other text does nothing at all. No command touches
    another channel's listening or the messages, summaries and suggestions
    of the store. [say] is taken to post its text and to touch nothing of
    the store. *)
Theorem mention_commands (event : MentionEvent) (say : str -> str -> M Env unit)
    (w : World Env) :
  (forall txt c, reads_only (say txt c)) ->
  let txt := lower (from_option id [] (mention_text event)) in
  let channel := mention_channel event in
  let w' := (_handle_mention settings event say w).2 in
  (contains (lit "start listening") txt = true ->
   (is_listening channel w').1 = true)
  /\ (contains (lit "start listening") txt = false ->
      contains (lit "stop listening") txt = true ->
      (is_listening channel w').1 = false)
  /\ (contains (lit "start listening") txt = false ->
      contains (lit "stop listening") txt = false ->
      same_store w w'
      /\ (contains (lit "status") txt = false -> w' = w))
  /\ (forall other, other <> channel ->
        (is_listening other w').1 = (is_listening other w).1)
  /\ messages (db w') = messages (db w)
  /\ summaries (db w') = summaries (db w)
  /\ suggestions (db w') = suggestions (db w).
Proof.
  intros Hsay txt channel w'. subst w'. unfold _handle_mention. cbv zeta.
  fold txt channel.
  destruct (contains (lit "start listening") txt) eqn:Hstart.
  { rewrite bind_run.
    destruct (add_listening_channel_outcome channel (mention_user event) w)
      as (Hon & Hothers & _ & _ & Hm & Hs & Hg & _).
    set (w1 := (add_listening_channel channel (mention_user event) w).2) in *.
    match goal with |- context [say ?t ?c w1] =>
      destruct (Hsay t c w1) as (Hdb & _); set (w2 := (say t c w1).2) in *
    end.
    split; [intros _; rewrite (is_listening_same_db _ _ _ Hdb); exact Hon|].
    split; [discriminate|]. split; [discriminate|].
    split; [intros other Hne; rewrite (is_listening_same_db _ _ _ Hdb);
            apply Hothers, Hne|].
    rewrite Hdb. split; [exact Hm|]. split; [exact Hs | exact Hg]. }
  destruct (contains (lit "stop listening") txt) eqn:Hstop.
  { rewrite bind_run.
    destruct (remove_listening_channel_outcome channel w)
      as (Hoff & Hothers & _ & Hm & Hs & Hg & _).
    set (w1 := (remove_listening_channel channel w).2) in *.
    match goal with |- context [say ?t ?c w1] =>
      destruct (Hsay t c w1) as (Hdb & _); set (w2 := (say t c w1).2) in *
    end.
    split; [discriminate|].
    split; [intros _ _; rewrite (is_listening_same_db _ _ _ Hdb); exact Hoff|].
    split; [discriminate|].
    split; [intros other Hne; rewrite (is_listening_same_db _ _ _ Hdb);
            apply Hothers, Hne|].
    rewrite Hdb. split; [exact Hm|]. split; [exact Hs | exact Hg]. }
  destruct (contains (lit "status") txt) eqn:Hstatus.
  { rewrite !bind_run.
    assert (Hread : (get_listening_channels w).2 = w) by reflexivity.
    rewrite Hread.
    pose proof (get_suggestions_today_reads w) as Htoday.
    set (w1 := (get_suggestions_today w).2) in *.
    match goal with |- context [say ?t ?c w1] =>
      pose proof (same_store_trans _ _ _ Htoday (Hsay t c w1)) as Hstore;
      set (w2 := (say t c w1).2) in *
    end.
    destruct Hstore as (Hdb & Hbuf & Hmap).
    split; [discriminate|]. split; [discriminate|].
    split; [intros _ _; split; [repeat split; assumption | discriminate]|].
    split; [intros other _; apply is_listening_same_db, Hdb|].
    rewrite Hdb. repeat split. }
  simpl.
  split; [discriminate|]. split; [discriminate|].
  split; [intros _ _; split; [apply same_store_refl | reflexivity]|].
  repeat split.
Qed.

End Scheduled.

(* ===================================================================== *)
(** * The statements on concrete inputs *)
(* ===================================================================== *)

Section Scenarios.

Local Existing Instance ascii_only.
Local Existing Instance strict.
Local Existing Instance at_eight.

(** The three scenarios of readiness: 8 messages in 12 minutes, 3 messages
    in 65 minutes, 2 messages in 65 minutes, with the default settings. *)
Example readiness_scenarios :
  (should_summarize default_settings (lit "C1") (buffered 8 12)).1 = true
  /\ (should_summarize default_settings (lit "C1") (buffered 3 65)).1 = true
  /\ (should_summarize default_settings (lit "C1") (buffered 2 65)).1 = false.
Proof. repeat split. Qed.

(** After a restart the time path is not taken: 3 messages that would be
    ready from the buffer are not ready from the store. *)
Example restart_scenarios :
  (should_summarize default_settings (lit "C1") (restarted 3)).1 = false
  /\ (should_summarize default_settings (lit "C1") (restarted 8)).1 = true.
Proof. repeat split. Qed.

(** Two buffered messages, 65 minutes after the window opened, default
    settings: not ready. *)
Lemma should_summarize_buffered_witness :
  _buffers (buffered 2 65) !! lit "C1" = Some (buffer_of 2 65)
  /\ buf_messages (buffer_of 2 65) <> []
  /\ (should_summarize default_settings (lit "C1") (buffered 2 65)).1 = false.
Proof.
  assert (Hbuf : _buffers (buffered 2 65) !! lit "C1" = Some (buffer_of 2 65))
    by (vm_compute; reflexivity).
  assert (Hne : buf_messages (buffer_of 2 65) <> []) by discriminate.
  split; [exact Hbuf|]. split; [exact Hne|].
  apply (should_summarize_buffered default_settings (lit "C1") (buffered 2 65)
           (buffer_of 2 65) Hbuf Hne); reflexivity.
Defined.

(** No buffer in process and three messages of the last hour in the store:
    not ready, whatever the time. *)
Lemma should_summarize_empty_cache_witness :
  _buffers (restarted 3) !! lit "C1" = None
  /\ length (durable_window default_settings (lit "C1") (restarted 3)) = 3%nat
  /\ (should_summarize default_settings (lit "C1") (restarted 3)).1 = false.
Proof.
  assert (Hnone : _buffers (restarted 3) !! lit "C1" = None) by reflexivity.
  assert (Hlen : length (durable_window default_settings (lit "C1") (restarted 3)) = 3%nat)
    by (vm_compute; reflexivity).
  split; [exact Hnone|]. split; [exact Hlen|].
  apply not_true_is_false. intros Hready.
  apply (should_summarize_empty_cache default_settings (lit "C1") (restarted 3)
           (or_introl Hnone)) in Hready.
  rewrite Hlen in Hready. apply Hready. reflexivity.
Defined.

(** A channel that is not ready is passed over and the store stays as it
    was. *)
Lemma skipped_channel_changes_nothing_witness :
  (should_summarize default_settings (lit "C1")
     (get_buffer_from_db default_settings (lit "C1") (restarted 3)).2).1 = false
  /\ (process_channel default_settings (lit "C1") (restarted 3)).1 = []
  /\ db (process_channel default_settings (lit "C1") (restarted 3)).2 = db (restarted 3).
Proof.
  assert (Hno : (should_summarize default_settings (lit "C1")
                   (get_buffer_from_db default_settings (lit "C1") (restarted 3)).2).1
                = false) by (vm_compute; reflexivity).
  split; [exact Hno|].
  destruct (skipped_channel_changes_nothing default_settings (lit "C1") (restarted 3)
              (or_introl Hno)) as (Hnone & Hdb & _).
  split; [exact Hnone | exact Hdb].
Defined.

(** The model is down for the sensitivity check of the first of two ideas:
    that idea is not returned. *)
Lemma sensitivity_failure_excludes_witness :
  (complete_json (SENSITIVITY_PROMPT (core_insight ship_small) (lit "notes")) (2 # 10)
     (model_down_once [])).1 = None
  /\ ship_small ∉ (filter_ideas [ship_small; talk_to_users] (lit "notes")
                     (model_down_once [])).1.
Proof.
  assert (Hfail : (complete_json (SENSITIVITY_PROMPT (core_insight ship_small) (lit "notes"))
                     (2 # 10) (model_down_once [])).1 = None) by reflexivity.
  split; [exact Hfail|].
  apply (sensitivity_failure_excludes (lit "notes") [] [talk_to_users] ship_small
           (model_down_once []) Hfail).
  - apply not_elem_of_nil.
  - intros Hin. apply list_elem_of_singleton in Hin. discriminate Hin.
Defined.

(** The model is down for the duplicate check of an idea and then finds it
    not sensitive: the idea is returned. *)
Lemma duplicate_check_fails_open_witness :
  (complete_json (DEDUPLICATION_PROMPT (bullet_list [lit "hire slowly"])
                    (core_insight ship_small)) (2 # 10)
     (model_down_once [old_suggestion SAVED])).1 = None
  /\ ship_small ∈ (filter_ideas [ship_small] (lit "notes")
                     (model_down_once [old_suggestion SAVED])).1.
Proof.
  assert (Hfail : (complete_json (DEDUPLICATION_PROMPT (bullet_list [lit "hire slowly"])
                                    (core_insight ship_small)) (2 # 10)
                     (model_down_once [old_suggestion SAVED])).1 = None) by reflexivity.
  split; [exact Hfail|].
  apply (duplicate_check_fails_open (lit "notes") [] [] ship_small
           (model_down_once [old_suggestion SAVED])); [exact Hfail | reflexivity].
Defined.

(** An answer of 300 letters is cut to 277 letters and the marker; and in
    a store with one short draft, the rewrite of that draft is within the
    limit even though the call of the model fails. *)
Lemma x_draft_length_bound_witness :
  (280 < length (emoji_sub (sub_hashtag_space (repeat 97%Z 300))))%nat
  /\ _clean_x_draft (repeat 97%Z 300) = repeat 97%Z 277 ++ lit "..."
  /\ length (_clean_x_draft (repeat 97%Z 300)) = 280%nat
  /\ x_drafts_within (db (model_down_once [old_suggestion PENDING]))
  /\ (length (rewrite_x (sg_x_draft (old_suggestion PENDING))
                (sg_insight (old_suggestion PENDING))
                (model_down_once [old_suggestion PENDING])).1 <= 280)%nat.
Proof.
  assert (Hlong : (280 < length (emoji_sub (sub_hashtag_space (repeat 97%Z 300))))%nat)
    by (vm_compute; lia).
  assert (Hstore : x_drafts_within (db (model_down_once [old_suggestion PENDING]))).
  { constructor; [vm_compute; lia | constructor]. }
  destruct (x_draft_length_bound default_settings (repeat 97%Z 300) [] [] ship_small
              (model_down_once [old_suggestion PENDING]))
    as (_ & Hcut & _ & _ & _ & _ & _ & _ & _ & Hstored).
  split; [exact Hlong|]. rewrite (Hcut Hlong).
  split; [vm_compute; reflexivity|]. split; [vm_compute; reflexivity|].
  split; [exact Hstore|].
  destruct (Hstored Hstore) as (_ & _ & Hrewrite).
  apply (Hrewrite (lit "id-0")). vm_compute. reflexivity.
Defined.

(** C9 fails on [rewrite_x]: when the call of the model fails, an original
    of 300 characters is returned as it is. *)
Lemma rewrite_x_keeps_a_long_original :
  (complete (REWRITE_X_PROMPT (repeat 97%Z 300) (lit "ship small")) (9 # 10) 100
     (model_down_once [])).1 = None
  /\ (rewrite_x (repeat 97%Z 300) (lit "ship small") (model_down_once [])).1
     = repeat 97%Z 300
  /\ length (rewrite_x (repeat 97%Z 300) (lit "ship small") (model_down_once [])).1
     = 300%nat.
Proof. repeat split. Qed.


(** A thumbs-up given twice on a delivered suggestion: two updates. *)
Lemma feedback_status_writes_witness :
  _suggestion_message_map feedback_world !! lit "111.1" = Some (lit "id-0")
  /\ status_writes
       (db (_handle_reaction (reacted "+1")
              (_handle_reaction (reacted "+1") feedback_world).2).2)
     = [(lit "id-0", SAVED); (lit "id-0", SAVED)].
Proof.
  assert (Hmap : _suggestion_message_map feedback_world !! lit "111.1" = Some (lit "id-0"))
    by (vm_compute; reflexivity).
  split; [exact Hmap|].
  apply (proj2 (feedback_status_writes (reacted "+1") feedback_world)
           (lit "111.1") (lit "id-0") SAVED eq_refl Hmap).
  - discriminate.
  - left. split; reflexivity.
Defined.

(** C1 fails on the code: the second save of a suggestion that is already
    saved is no no-op but a second status update, and an ignore after the
    save overwrites the terminal status. *)
Lemma saved_twice_is_written_twice :
  let once := (_handle_reaction (reacted "+1") feedback_world).2 in
  let twice := (_handle_reaction (reacted "+1") once).2 in
  let undone := (_handle_reaction (reacted "x") once).2 in
  map sg_status (suggestions (db once)) = [SAVED]
  /\ status_writes (db once) = [(lit "id-0", SAVED)]
  /\ status_writes (db twice) = [(lit "id-0", SAVED); (lit "id-0", SAVED)]
  /\ status_writes (db twice) <> status_writes (db once)
  /\ map sg_status (suggestions (db undone)) = [IGNORED].
Proof. vm_compute. repeat split. discriminate. Qed.

(** A rewrite reaction on the delivered suggestion: the store is as before,
    and the message Slack posted, 222.2, is mapped to the suggestion. *)
Lemma rewrite_writes_nothing_witness :
  is_one_of (reaction (reacted "repeat")) ["arrows_counterclockwise"; "repeat"]%string = true
  /\ db (_handle_reaction (reacted "repeat") feedback_world).2 = db feedback_world
  /\ _suggestion_message_map (_handle_reaction (reacted "repeat") feedback_world).2
     = <[lit "222.2" := lit "id-0"]> (_suggestion_message_map feedback_world).
Proof.
  assert (Hr : is_one_of (reaction (reacted "repeat"))
                 ["arrows_counterclockwise"; "repeat"]%string = true) by reflexivity.
  assert (Hmap : _suggestion_message_map feedback_world !! lit "111.1" = Some (lit "id-0"))
    by (vm_compute; reflexivity).
  assert (Hid : lit "id-0" <> []) by (intros Hq; vm_compute in Hq; discriminate).
  assert (Hrow : (get_suggestion (lit "id-0") feedback_world).1
                 = Some (old_suggestion PENDING)) by (vm_compute; reflexivity).
  destruct (rewrite_writes_nothing (reacted "repeat") feedback_world Hr)
    as (Hdb & _ & _ & Hdone).
  split; [exact Hr|]. split; [exact Hdb|].
  destruct (Hdone (lit "111.1") (lit "id-0") eq_refl Hmap Hid) as (_ & Hsome).
  pose proof (Hsome (old_suggestion PENDING) Hrow) as Hposted. cbv zeta in Hposted.
  destruct Hposted as (_ & _ & _ & _ & _ & _ & _ & Hok & _).
  apply Hok; [vm_compute; reflexivity | intros Hq; vm_compute in Hq; discriminate].
Defined.

(** C2 fails on the code: a rewrite of an existing suggestion is not
    rejected (the model is called for both drafts, the message is posted and
    mapped to the suggestion), and it persists no new suggestion. *)
Lemma rewrite_is_no_fork :
  let after := (_handle_reaction (reacted "repeat") feedback_world).2 in
  suggestions (db after) = suggestions (db feedback_world)
  /\ length (suggestions (db after)) = 1%nat
  /\ answers (env after) = []
  /\ _suggestion_message_map feedback_world !! lit "222.2" = None
  /\ _suggestion_message_map after !! lit "222.2" = Some (lit "id-0").
Proof. vm_compute. repeat split. Qed.

(** The failing input of C3 through [generate_x_post], and a draft where
    the order of the two substitutions leaves a hashtag: the [#] before an
    emoji meets the word after it once the emoji is removed. *)
Example generate_x_post_keeps_a_hashtag :
  (generate_x_post ship_small
     {| env := {| answers := said ["##a b"]; deliveries := []; issued := 0 |};
        db := empty_db; _buffers := ∅; _suggestion_message_map := ∅ |}).1 = lit "#b"
  /\ _clean_x_draft ([HASH; 0x1F680] ++ lit "launch") = lit "#launch"
  /\ _clean_linkedin_draft ([HASH; 0x1F680] ++ lit "launch") = [].
Proof. repeat split. Qed.

Local Existing Instance offline.
Local Existing Instance one_conversation.

(** The model answers with a document that says post-worthy: the answer is
    an object with that key. *)
Lemma detect_post_worthy_fails_closed_witness :
  validate_bool (JBool false) <> Some true
  /\ is_post_worthy (detect_post_worthy standup finds_ideas).1 = true
  /\ exists items flag,
       (complete_json
          (POST_WORTHINESS_PROMPT (summary standup) (bullet_list (key_ideas standup))
             (bullet_list (interesting_phrases standup))) (4 # 10) finds_ideas).1
       = Some (JObj items)
       /\ assoc (lit "is_post_worthy") items = Some flag
       /\ validate_bool flag = Some true.
Proof.
  assert (Hdefault : validate_bool (JBool false) <> Some true) by discriminate.
  assert (Hworthy : is_post_worthy (detect_post_worthy standup finds_ideas).1 = true)
    by (vm_compute; reflexivity).
  split; [exact Hdefault|]. split; [exact Hworthy|].
  exact (proj2 (proj2 (detect_post_worthy_fails_closed standup finds_ideas Hdefault))
           Hworthy).
Defined.

(** Two channels with eight fresh messages each and a model that cannot be
    reached: the pass returns nothing and the store is as before. *)
Lemma model_down_pass_persists_nothing_witness :
  (forall (request : ChatRequest) (e : unit),
     (chat_completions_create request e).1 = None)
  /\ (process_all_channels default_settings cut_off).1 = []
  /\ db (process_all_channels default_settings cut_off).2 = db cut_off.
Proof.
  assert (Hdown : forall (request : ChatRequest) (e : unit),
            (chat_completions_create request e).1 = None)
    by (intros request e; reflexivity).
  split; [exact Hdown|].
  exact (proj2 (proj2 (model_down_pass_persists_nothing default_settings Hdown cut_off))).
Defined.

(** The store gives the id id-1 to the new row; the one row it holds has
    the id id-0. *)
Lemma saved_suggestion_can_be_fetched_witness :
  Forall (fun r => sg_id r <> sg_id (save_suggestion a_draft (lit "sum-1") feedback_world).1)
         (suggestions (db feedback_world))
  /\ (get_suggestion (lit "id-1")
        (save_suggestion a_draft (lit "sum-1") feedback_world).2).1
     = Some (save_suggestion a_draft (lit "sum-1") feedback_world).1.
Proof.
  assert (Hfresh : Forall (fun r => sg_id r
                     <> sg_id (save_suggestion a_draft (lit "sum-1") feedback_world).1)
                     (suggestions (db feedback_world))).
  { constructor; [|constructor]. intros Heq. vm_compute in Heq. discriminate. }
  split; [exact Hfresh|].
  exact (proj1 (saved_suggestion_can_be_fetched a_draft (lit "sum-1") feedback_world
                  Hfresh)).
Defined.

(** A message of eight o'clock, added at eight o'clock. *)
Lemma added_message_reaches_the_summary_witness :
  (utcnow (env (add_message (message eight_am) (restarted 3)).2)).1
    - minutes (buffer_window_minutes default_settings) <= timestamp (message eight_am)
  /\ exists m',
       m' ∈ (get_messages_for_summary default_settings (lit "C1")
               (add_message (message eight_am) (restarted 3)).2).1
       /\ channel_id m' = lit "C1"
       /\ user_id m' = lit "U0001"
       /\ text m' = lit "hello"
       /\ timestamp m' = eight_am.
Proof.
  assert (Hfresh : (utcnow (env (add_message (message eight_am) (restarted 3)).2)).1
                   - minutes (buffer_window_minutes default_settings)
                   <= timestamp (message eight_am))
    by (vm_compute; discriminate).
  split; [exact Hfresh|].
  exact (added_message_reaches_the_summary default_settings (message eight_am)
           (restarted 3) Hfresh).
Defined.

(** After a restart with eight messages in the store the channel is ready;
    the next message makes it not ready. *)
Lemma first_messages_hide_the_store_witness :
  (should_summarize default_settings (lit "C1") (restarted 8)).1 = true
  /\ (should_summarize default_settings (lit "C1")
        (add_message (message eight_am) (restarted 8)).2).1 = false.
Proof.
  split; [reflexivity|].
  apply (first_messages_hide_the_store default_settings (message eight_am) (restarted 8)).
  - vm_compute. lia.
  - vm_compute. reflexivity.
Defined.

(** Channel C1 of [busy_world] is summarised, and is ready again right
    after. *)
Lemma summarized_messages_are_not_consumed_witness :
  summaries (db (process_channel default_settings (lit "C1") busy_world).2)
    <> summaries (db busy_world)
  /\ messages (db (process_channel default_settings (lit "C1") busy_world).2)
     = messages (db busy_world)
  /\ (should_summarize default_settings (lit "C1")
        (process_channel default_settings (lit "C1") busy_world).2).1 = true.
Proof.
  assert (Hnew : summaries (db (process_channel default_settings (lit "C1") busy_world).2)
                 <> summaries (db busy_world)).
  { intros Heq. vm_compute in Heq. discriminate. }
  split; [exact Hnew|].
  destruct (summarized_messages_are_not_consumed default_settings (lit "C1") busy_world
              Hnew) as (Hkept & _ & Hready).
  split; [exact Hkept|].
  rewrite Hready. vm_compute. reflexivity.
Defined.

(** The bot listens to C1 and C2, and to nothing after the command. *)
Lemma stop_listening_forgets_every_channel_witness :
  (forall txt, reads_only (say_back txt))
  /\ (get_listening_channels busy_world).1 = [lit "C1"; lit "C2"]
  /\ (get_listening_channels (_handle_stop_listening say_back busy_world).2).1 = [].
Proof.
  assert (Hsay : forall txt, reads_only (say_back txt)).
  { intros txt w. unfold say_back, bind, external. simpl.
    destruct (deliveries (env w)); repeat split. }
  split; [exact Hsay|]. split; [reflexivity|].
  exact (proj1 (stop_listening_forgets_every_channel say_back busy_world Hsay)).
Defined.

(** A mention that says "stop listening" and then "start listening": the
    bot listens. *)
Lemma mention_commands_witness :
  (forall txt c, reads_only (say_in_channel txt c))
  /\ contains (lit "start listening")
       (lower (from_option id [] (mention_text a_mention))) = true
  /\ contains (lit "stop listening")
       (lower (from_option id [] (mention_text a_mention))) = true
  /\ (is_listening (lit "C9")
        (_handle_mention default_settings a_mention say_in_channel busy_world).2).1
     = true.
Proof.
  assert (Hsay : forall txt c, reads_only (say_in_channel txt c)).
  { intros txt c w. unfold say_in_channel, bind, external. simpl.
    destruct (deliveries (env w)); repeat split. }
  assert (Hstart : contains (lit "start listening")
                     (lower (from_option id [] (mention_text a_mention))) = true)
    by (vm_compute; reflexivity).
  split; [exact Hsay|]. split; [exact Hstart|]. split; [vm_compute; reflexivity|].
  exact (proj1 (mention_commands default_settings a_mention say_in_channel busy_world
                  Hsay) Hstart).
Defined.


End Scenarios.
